(** * Upsell orchestration core: feature enricher and orchestrator lambdas

    Shallow embedding of
      - aws/lambda/feature_enricher/lambda_function.py
      - aws/lambda/orchestrator/lambda_function.py
    and proofs about the feature aggregation rules, the agent resolution,
    the judgment step and the generate-judge-retry loop.

    The external collaborators (SSM, DynamoDB, S3, Bedrock, CloudWatch, the
    clock, uuid4 and random.choice) are oracles of a [world]; everything the
    lambdas mutate lives in an explicit [state] that is threaded through a
    state-and-exception monad.  Floats are the rationals they denote.  Event
    fields have their documented types: strings for email, id, names and the
    lifetime-value tier, numbers for the score and the service count. *)

From Stdlib Require Import ZArith QArith Qround Qabs Lia Lqa String Ascii.
From stdpp Require Import gmap strings list.

Open Scope string_scope.

(* ===================================================================== *)
(** ** Python helpers *)
(* ===================================================================== *)

Module Py.

(** The double quote character, for texts that contain it. *)
Definition dq : string := String (ascii_of_nat 34) EmptyString.
(** chr(10) *)
Definition nl : string := String (ascii_of_nat 10) EmptyString.

(** [str.lower()] on the ASCII range (bytes above 127 are left alone). *)
Definition lower_ascii (c : ascii) : ascii :=
  let n := nat_of_ascii c in
  if (65 <=? n)%nat && (n <=? 90)%nat then ascii_of_nat (n + 32) else c.

Fixpoint lower (s : string) : string :=
  match s with
  | EmptyString => EmptyString
  | String c r => String (lower_ascii c) (lower r)
  end.

Definition upper_ascii (c : ascii) : ascii :=
  let n := nat_of_ascii c in
  if (97 <=? n)%nat && (n <=? 122)%nat then ascii_of_nat (n - 32) else c.

Fixpoint upper (s : string) : string :=
  match s with
  | EmptyString => EmptyString
  | String c r => String (upper_ascii c) (upper r)
  end.

(** Truth value of a string: empty is false. *)
Definition truthy_str (s : string) : bool :=
  match s with EmptyString => false | _ => true end.

(** Truth value of [d.get(k)] for a string-valued key: a missing key
    gives [None], which is false. *)
Definition truthy_opt (o : option string) : bool :=
  match o with Some s => truthy_str s | None => false end.

(** [a or b] on optional strings, the last operand being a literal. *)
Definition or_else (o : option string) (d : string) : string :=
  match o with
  | Some s => if truthy_str s then s else d
  | None => d
  end.

(** ASCII white space as removed by [str.strip()]. *)
Definition is_space (c : ascii) : bool :=
  let n := nat_of_ascii c in
  ((9 <=? n)%nat && (n <=? 13)%nat) || ((28 <=? n)%nat && (n <=? 32)%nat).

Fixpoint lstrip (s : string) : string :=
  match s with
  | String c r => if is_space c then lstrip r else s
  | EmptyString => EmptyString
  end.

Fixpoint rstrip (s : string) : string :=
  match s with
  | EmptyString => EmptyString
  | String c r =>
      match rstrip r with
      | EmptyString => if is_space c then EmptyString else String c EmptyString
      | r' => String c r'
      end
  end.

Definition strip (s : string) : string := rstrip (lstrip s).

(** [sub in s] *)
Fixpoint contains (sub s : string) : bool :=
  String.prefix sub s ||
  match s with
  | EmptyString => false
  | String _ r => contains sub r
  end.

(** [s.split(sep)] for a non-empty separator: the pieces between the
    successive occurrences of [sep], scanned left to right. *)
Fixpoint split_aux (fuel : nat) (sep s acc : string) : list string :=
  match fuel with
  | O => [acc ++ s]
  | S fuel' =>
      match s with
      | EmptyString => [acc]
      | String c r =>
          if String.prefix sep s
          then acc :: split_aux fuel' sep
                        (String.substring (String.length sep)
                           (String.length s - String.length sep) s) EmptyString
          else split_aux fuel' sep r (acc ++ String c EmptyString)
      end
  end.

Definition split (sep s : string) : list string :=
  split_aux (S (String.length s)) sep s EmptyString.

(** Rounding of an exact value to the nearest integer, ties to even:
    what [round] does on the value of a float. *)
Definition round_half_even (q : Q) : Z :=
  let f := Qfloor q in
  match (q - inject_Z f ?= 1 # 2)%Q with
  | Lt => f
  | Gt => (f + 1)%Z
  | Eq => if Z.even f then f else (f + 1)%Z
  end.

(** [round(x, 2)] *)
Definition round2 (q : Q) : Q := (inject_Z (round_half_even (q * 100)) / 100)%Q.

End Py.

(* ===================================================================== *)
(** ** Data model *)
(* ===================================================================== *)

(** Floats are modelled by the rationals they denote: arithmetic is exact,
    and [round(_, 2)] is [Py.round2]. *)

(** JSON values, as produced by [json.loads] and stored in dictionaries.
    Numbers are integers (scores, counters, clock ticks). *)
#[warnings="-register-all"]
Inductive json :=
| JNull
| JBool (b : bool)
| JNum (n : Z)
| JStr (s : string)
| JArr (items : list json)
| JObj (members : gmap string json).

Module Json.

(** Truth value of a Python object. *)
Definition truthy (v : json) : bool :=
  match v with
  | JNull => false
  | JBool b => b
  | JNum n => negb (n =? 0)%Z
  | JStr s => Py.truthy_str s
  | JArr l => match l with [] => false | _ => true end
  | JObj m => negb (bool_decide (m = ∅))
  end.

(** [d.get(k, default)] on a dictionary. *)
Definition get (d : gmap string json) (k : string) (default : json) : json :=
  match d !! k with Some v => v | None => default end.

(** [v == 'text'] *)
Definition eq_str (v : json) (s : string) : bool :=
  match v with JStr t => String.eqb t s | _ => false end.

End Json.

(** The [customer] object of a webhook payload.  A field is [None] when the
    key is missing. *)
Record customer := {
  email : option string;
  id : option string;
  first_name : option string;
  last_name : option string;
  address : option (gmap string json)
}.

(** The [service] object. *)
Record service := {
  satisfaction_score : option Q
}.

(** The webhook payload ([customer_data] in the enricher, [webhook_payload]
    in the orchestrator), with the fields the two lambdas read. *)
Record payload := {
  p_customer : option customer;
  p_service : option service;
  customer_lifetime_value : option string;
  services_count : option Z;
  property_info : option (gmap string json)
}.

(** [customer_data.get('customer', {})] *)
Definition empty_customer : customer :=
  {| email := None; id := None; first_name := None; last_name := None;
     address := None |}.

Definition get_customer (p : payload) : customer :=
  match p_customer p with Some c => c | None => empty_customer end.

(** [customer_data.get('service', {}).get('satisfaction_score')] *)
Definition current_score_of (p : payload) : option Q :=
  match p_service p with Some s => satisfaction_score s | None => None end.

(** An item of the customer-features table.  The keys are optional because
    the enricher tests for their presence. *)
Record features := {
  customerEmail : string;
  satisfaction_avg : option Q;
  service_count : option Z;
  lifetime_value : option string;
  property_features : option (gmap string json);
  last_updated : option string;
  first_seen : option string
}.

(** Exceptions of the two lambdas.  [FuelExhausted] is not a Python
    exception: it marks a loop model that ran out of fuel, which
    [Orchestrator.while_loop] is shown never to do. *)
Inductive exn :=
| ValueError (msg : string)
| KeyError (key : string)
| ZeroDivisionError
| AttributeError
| IndexError
| JSONDecodeError
| ClientError (service_name : string)
| HandlerError (failed : nat)
| FuelExhausted.

Inductive result (A : Type) :=
| Ok (a : A)
| Raise (e : exn).
Arguments Ok {A} a.
Arguments Raise {A} e.

(** A request to [bedrock_client.converse]. *)
Record converse_request := {
  modelId : string;
  prompt : string;
  maxTokens : Z;
  temperature : Q
}.

(** One entry of [MetricData] (the time stamp is left out). *)
Record metric := {
  MetricName : string;
  Value : json
}.

(** A record of the agent registry table. *)
Record agent_item := {
  agentId : string;
  bedrockModel : option string;
  item_version : option string;
  item_promptTemplate : option string;
  item_config : option (gmap string json)
}.

(** The dictionary [get_active_agent] returns. *)
Record agent_config := {
  model_id : string;
  version : string;
  promptTemplate : option string;
  config : gmap string json
}.

(** The dictionary [get_customer_features] returns. *)
Record customer_features := {
  cf_satisfaction_avg : Q;
  cf_service_count : Z;
  cf_lifetime_value : string;
  cf_property_features : gmap string json
}.

(** The dictionary [call_bedrock_generator] returns. *)
Record generation := {
  email_content : string;
  generation_time : Z;
  g_model_id : string;
  g_retry_count : nat
}.

(** The item written to the messages table. *)
Record decision_record := {
  messageId : string;
  timestamp : Z;
  r_customerEmail : string;
  customerName : string;
  emailContent : option string;
  emailSubject : string;
  llmGeneratorScore : Z;
  llmJudgeScore : json;
  judgeApproved : json;
  judgeFeedback : json;
  judgeIssues : json;
  rejectionReason : json;
  createdAt : string;
  status : string;
  retryCount : nat;
  agentVersion : string;
  customerData : payload
}.

(** What [process_message] returns. *)
Record processing_result := {
  res_message_id : string;
  res_customer_email : string;
  res_approved : bool;
  res_retry_count : nat
}.

(* ===================================================================== *)
(** ** The world and the state *)
(* ===================================================================== *)

(** Pure library functions that are not re-implemented here. *)
Record library := {
  json_loads : string -> option json;          (* None: JSONDecodeError *)
  json_dumps : payload -> string;              (* json.dumps(_, indent=2) *)
  str_float : Q -> string;                     (* str / f-string of a float *)
  str_int : Z -> string;
  repr_json : json -> string;                  (* repr of a list or dict *)
  str_exn : exn -> string;                     (* str(e) *)
  judge_rubric : string -> string
    (* the fixed rubric of the judge prompt, from "Evaluate on THREE
       dimensions" to the JSON answer template, for a current date *)
}.

(** The collaborators.  [None] and [false] stand for a raised exception.
    Oracles that may answer differently on each call are indexed by the
    number of calls made before. *)
Record world := {
  ssm_get_parameter : string -> option string;
  registry_query : string -> option (list agent_item);
  features_get_item_ok : string -> bool;
  features_put_item_ok : features -> bool;
  s3_guidelines : string -> option string;
  bedrock_converse : nat -> converse_request -> option string;
  converse_seconds : nat -> Z;
  cloudwatch_put_ok : nat -> list metric -> bool;
  messages_put_item_ok : decision_record -> bool;
  utcnow_iso : nat -> string;
  utcnow_date : nat -> string;
  utcnow_timestamp : nat -> Z;
  uuid4 : nat -> string;
  random_index : nat -> nat
}.

(** Everything the lambdas mutate. *)
Record state := {
  parameter_cache : gmap string string;         (* _parameter_cache *)
  features_table : gmap string features;        (* keyed by customerEmail *)
  messages_table : gmap string decision_record; (* keyed by messageId *)
  bedrock_log : list converse_request;          (* converse calls, oldest first *)
  metrics_log : list (list metric);             (* put_metric_data calls *)
  ticks : nat;                                  (* clock reads *)
  draws : nat                                   (* uuid4 and random draws *)
}.

Definition initial_state : state :=
  {| parameter_cache := ∅; features_table := ∅; messages_table := ∅;
     bedrock_log := []; metrics_log := []; ticks := 0; draws := 0 |}.

Definition with_cache (f : gmap string string -> gmap string string) (st : state) : state :=
  {| parameter_cache := f (parameter_cache st); features_table := features_table st;
     messages_table := messages_table st; bedrock_log := bedrock_log st;
     metrics_log := metrics_log st; ticks := ticks st; draws := draws st |}.

Definition with_features (f : gmap string features -> gmap string features) (st : state) : state :=
  {| parameter_cache := parameter_cache st; features_table := f (features_table st);
     messages_table := messages_table st; bedrock_log := bedrock_log st;
     metrics_log := metrics_log st; ticks := ticks st; draws := draws st |}.

Definition with_messages (f : gmap string decision_record -> gmap string decision_record)
    (st : state) : state :=
  {| parameter_cache := parameter_cache st; features_table := features_table st;
     messages_table := f (messages_table st); bedrock_log := bedrock_log st;
     metrics_log := metrics_log st; ticks := ticks st; draws := draws st |}.

Definition with_bedrock_log (f : list converse_request -> list converse_request)
    (st : state) : state :=
  {| parameter_cache := parameter_cache st; features_table := features_table st;
     messages_table := messages_table st; bedrock_log := f (bedrock_log st);
     metrics_log := metrics_log st; ticks := ticks st; draws := draws st |}.

Definition with_metrics_log (f : list (list metric) -> list (list metric))
    (st : state) : state :=
  {| parameter_cache := parameter_cache st; features_table := features_table st;
     messages_table := messages_table st; bedrock_log := bedrock_log st;
     metrics_log := f (metrics_log st); ticks := ticks st; draws := draws st |}.

Definition with_ticks (f : nat -> nat) (st : state) : state :=
  {| parameter_cache := parameter_cache st; features_table := features_table st;
     messages_table := messages_table st; bedrock_log := bedrock_log st;
     metrics_log := metrics_log st; ticks := f (ticks st); draws := draws st |}.

Definition with_draws (f : nat -> nat) (st : state) : state :=
  {| parameter_cache := parameter_cache st; features_table := features_table st;
     messages_table := messages_table st; bedrock_log := bedrock_log st;
     metrics_log := metrics_log st; ticks := ticks st; draws := f (draws st) |}.

(** *** The monad: state is kept when an exception is raised. *)

Definition M (A : Type) : Type := state -> state * result A.

Definition ret {A} (a : A) : M A := fun st => (st, Ok a).

Definition raise {A} (e : exn) : M A := fun st => (st, Raise e).

Definition bind {A B} (m : M A) (k : A -> M B) : M B :=
  fun st =>
    match m st with
    | (st', Ok a) => k a st'
    | (st', Raise e) => (st', Raise e)
    end.

(** [try: body except Exception as e: handler(e)] *)
Definition try_except {A} (body : M A) (handler : exn -> M A) : M A :=
  fun st =>
    match body st with
    | (st', Ok a) => (st', Ok a)
    | (st', Raise e) => handler e st'
    end.

Definition gets {A} (f : state -> A) : M A := fun st => (st, Ok (f st)).

Definition modify (f : state -> state) : M unit := fun st => (f st, Ok tt).

(** Lifting of a computation that may raise but touches no state. *)
Definition lift {A} (r : result A) : M A := fun st => (st, r).

(** Sequencing of computations that touch no state. *)
Definition and_then {A B} (r : result A) (k : A -> result B) : result B :=
  match r with
  | Ok a => k a
  | Raise e => Raise e
  end.

Declare Scope pure_scope.
Delimit Scope pure_scope with pure.
Notation "x <- c ;; k" := (and_then c (fun x => k))
  (at level 100, c at next level, right associativity) : pure_scope.

Declare Scope py_scope.
Delimit Scope py_scope with py.
Notation "x <- c ;; k" := (bind c (fun x => k))
  (at level 100, c at next level, right associativity) : py_scope.
Notation "c ;;; k" := (bind c (fun _ => k))
  (at level 100, right associativity) : py_scope.
Open Scope py_scope.

(** [get_parameter]: SSM lookup memoised in [_parameter_cache]; the same in
    both lambdas. *)
Definition get_parameter (W : world) (parameter_name : string) : M string :=
  cache <- gets parameter_cache ;;
  match cache !! parameter_name with
  | Some v => ret v
  | None =>
      match ssm_get_parameter W parameter_name with
      | Some v => modify (with_cache (<[parameter_name := v]>)) ;;; ret v
      | None => raise (ClientError "ssm")
      end
  end.

(** [datetime.now(timezone.utc).isoformat()] *)
Definition now_iso (W : world) : M string :=
  t <- gets ticks ;; modify (with_ticks S) ;;; ret (utcnow_iso W t).

(** [features_table.get_item(Key={'customerEmail': ...})] followed by the
    ['Item' in response] test. *)
Definition get_item (W : world) (customer_email : string) : M (option features) :=
  if features_get_item_ok W customer_email
  then tbl <- gets features_table ;; ret (tbl !! customer_email)
  else raise (ClientError "dynamodb").

(* ===================================================================== *)
(** ** feature_enricher/lambda_function.py *)
(* ===================================================================== *)

Module FeatureEnricher.

Definition calculate_satisfaction_avg (customer_data : payload)
    (existing_features : option features) : result Q :=
  match current_score_of customer_data with
  | None =>
      match existing_features with
      | Some f =>
          match satisfaction_avg f with
          | Some a => Ok a
          | None => Ok (7 # 2)
          end
      | None => Ok (7 # 2)
      end
  | Some current_score =>
      match existing_features with
      | Some f =>
          match satisfaction_avg f, service_count f with
          | Some existing_avg, Some existing_count =>
              let new_count := (existing_count + 1)%Z in
              if (new_count =? 0)%Z then Raise ZeroDivisionError
              else
                let new_avg :=
                  ((existing_avg * inject_Z existing_count + current_score)
                   / inject_Z new_count)%Q in
                Ok (Py.round2 new_avg)
          | _, _ => Ok current_score
          end
      | None => Ok current_score
      end
  end.

Definition calculate_service_count (customer_data : payload)
    (existing_features : option features) : Z :=
  match existing_features with
  | Some {| service_count := Some c |} => c + 1
  | _ =>
      match services_count customer_data with
      | Some n => if (n =? 0)%Z then 1 else n
      | None => 1
      end
  end%Z.

Definition get_lifetime_value (customer_data : payload)
    (existing_features : option features) : result string :=
  if Py.truthy_opt (customer_lifetime_value customer_data)
  then Ok (Py.lower (default EmptyString (customer_lifetime_value customer_data)))
  else
    let service_count := calculate_service_count customer_data existing_features in
    match calculate_satisfaction_avg customer_data existing_features with
    | Raise e => Raise e
    | Ok satisfaction =>
        if (6 <=? service_count)%Z && Qle_bool 4 satisfaction then Ok "high"
        else if (3 <=? service_count)%Z || Qle_bool (7 # 2) satisfaction then Ok "medium"
        else Ok "low"
    end.

Definition extract_property_features (customer_data : payload) : gmap string json :=
  let from_address :=
    match address (get_customer customer_data) with
    | Some a =>
        if Json.truthy (JObj a)
        then <["zip" := Json.get a "zip" JNull]>
               (<["state" := Json.get a "state" JNull]>
                  (<["city" := Json.get a "city" JNull]> ∅))
        else ∅
    | None => ∅
    end in
  match property_info customer_data with
  | Some i =>
      if Json.truthy (JObj i)
      then <["pest_issues" := Json.get i "pest_issues" (JArr [])]>
             (<["year_built" := Json.get i "year_built" JNull]>
                (<["square_feet" := Json.get i "square_feet" JNull]>
                   (<["property_type" := Json.get i "type" JNull]> from_address)))
      else from_address
  | None => from_address
  end.

Section Lambda.
Context (W : world).

Definition enrich_customer_features (customer_data : payload) : M features :=
  let customer_email := email (get_customer customer_data) in
  if negb (Py.truthy_opt customer_email)
  then raise (ValueError "Customer email is required")
  else
    let customer_email := default EmptyString customer_email in
    _ <- get_parameter W "/referral-system/customer-features-table-name" ;;
    existing_features <-
      try_except (get_item W customer_email) (fun _ => ret None) ;;
    satisfaction_avg <-
      lift (calculate_satisfaction_avg customer_data existing_features) ;;
    let service_count := calculate_service_count customer_data existing_features in
    lifetime_value <- lift (get_lifetime_value customer_data existing_features) ;;
    let property_features := extract_property_features customer_data in
    last_updated <- now_iso W ;;
    first_seen <-
      match existing_features with
      | None => now_iso W
      | Some f => ret (default last_updated (first_seen f))
      end ;;
    ret {| customerEmail := customer_email;
           satisfaction_avg := Some satisfaction_avg;
           service_count := Some service_count;
           lifetime_value := Some lifetime_value;
           property_features := Some property_features;
           last_updated := Some last_updated;
           first_seen := Some first_seen |}.

Definition update_feature_store (feature_record : features) : M unit :=
  _ <- get_parameter W "/referral-system/customer-features-table-name" ;;
  if features_put_item_ok W feature_record
  then modify (with_features (<[customerEmail feature_record := feature_record]>))
  else raise (ClientError "dynamodb").

(** The handler's answer: status 200 with the features, or 500 with the
    error. *)
Inductive response :=
| Success (feature_record : features)
| Failure (error : exn).

(** The handler, on the customer data it extracts from its event
    ([event.get('customer_data') or event]). *)
Definition lambda_handler (customer_data : payload) : M response :=
  try_except
    (feature_record <- enrich_customer_features customer_data ;;
     update_feature_store feature_record ;;;
     ret (Success feature_record))
    (fun e => ret (Failure e)).

(** Successive invocations of the handler, one per event, on the same
    store. *)
Fixpoint process_events (events : list payload) : M (list response) :=
  match events with
  | [] => ret []
  | ev :: rest =>
      r <- lambda_handler ev ;;
      rs <- process_events rest ;;
      ret (r :: rs)
  end.

End Lambda.

End FeatureEnricher.

(* ===================================================================== *)
(** ** orchestrator/lambda_function.py *)
(* ===================================================================== *)

Module Orchestrator.

(** Maximum retry attempts for LLM generation *)
Definition MAX_RETRIES : nat := 2.

(** The SQS message body; [None] when the key is missing. *)
Record message_body := {
  webhook_payload : option payload
}.

(** The variables of the retry loop of [process_message]. *)
Record loop_state := {
  retry_count : nat;
  approved : bool;
  final_email_content : option string;
  final_judgment : option (gmap string json);
  generation_result : option generation;
  previous_feedback : json              (* [JNull] is Python's None *)
}.

Definition loop_start : loop_state :=
  {| retry_count := 0; approved := false; final_email_content := None;
     final_judgment := None; generation_result := None;
     previous_feedback := JNull |}.

Inductive flow := Next | Break.

(** [d[k]] *)
Definition getitem (d : gmap string json) (k : string) : M json :=
  match d !! k with
  | Some v => ret v
  | None => raise (KeyError k)
  end.

(** [l[i]] *)
Definition index (l : list string) (i : nat) : result string :=
  match l !! i with
  | Some v => Ok v
  | None => Raise IndexError
  end.

Definition legacy_agent (model_id : string) : agent_config :=
  {| model_id := model_id; version := "legacy"; promptTemplate := None;
     config := ∅ |}.

(** The verdict [call_bedrock_judge] returns when the call or the parse
    fails. *)
Definition failed_verdict (error_text : string) : gmap string json :=
  <["judgment_time" := JNum 0]>
    (<["feedback" := JStr ("Error: " ++ error_text)]>
       (<["issues" := JArr [JStr "Judge evaluation failed"]]>
          (<["score" := JNum 0]>
             (<["approved" := JBool false]> ∅)))).

(** The verdict built from the parsed answer of the judge. *)
Definition verdict_of (judgment : gmap string json) (judgment_time : Z)
    : gmap string json :=
  <["judgment_time" := JNum judgment_time]>
    (<["feedback" := Json.get judgment "feedback" (JStr EmptyString)]>
       (<["issues" := Json.get judgment "issues" (JArr [])]>
          (<["score" := Json.get judgment "score" (JNum 0)]>
             (<["approved" := Json.get judgment "approved" (JBool false)]> ∅)))).

(** The metrics published after a judgment. *)
Definition judge_metrics (judgment : gmap string json) : list metric :=
  [ {| MetricName := "ApprovalRate";
       Value := JNum (if Json.truthy (Json.get judgment "approved" JNull)
                      then 1 else 0) |};
    {| MetricName := "JudgeScore";
       Value := Json.get judgment "score" (JNum 0) |} ].

(** Generator prompt: the text before the customer data, between the data
    and the guidelines, the task description, and the closing line. *)
Definition generator_head : string :=
  "You are creating a personalized service upsell message for a pest control customer.

Customer Data (JSON):
".

Definition generator_catalog : string :=
  "

Company Information & Service Catalog (JSON):
".

Definition generator_task : string :=
  "

Your task:
1. Analyze the customer data provided (it may have various fields - use what's available)
2. Look for patterns in service_history, property_info, current_plan, etc.
3. Select ONE service from the catalog that would genuinely benefit this customer
4. Create a brief, personalized message (150-200 words) that:
   - References POSITIVE details from their data (loyal customer, property features, service frequency)
   - Explains why this additional service makes sense for them
   - Highlights 2-3 key benefits relevant to their situation
   - Includes a soft call-to-action
   - Maintains the brand voice (professional, friendly, reassuring)

CRITICAL - What NOT to mention in the message:
- DO NOT mention any complaints, issues, or negative experiences from service notes
- DO NOT reference dissatisfaction, late arrivals, or service problems
- DO NOT bring up past issues even if they're in the data
- DO NOT make the customer feel like you're tracking negative things
- Focus ONLY on positive aspects (loyalty, satisfaction, property needs, service patterns)
" ++ Py.nl ++ "Example: If data shows " ++ Py.dq ++ "Customer complained about late technician" ++ Py.dq
  ++ " → Don't mention this in the message at all

Important:
- Work with whatever fields are present in the customer data
- Check current_plan to avoid recommending what they already have
- If service_history exists, analyze patterns but only reference positive ones
- If property_info exists, use it to inform recommendations
- Use customer's first name if available
".

Definition generator_tail : string :=
  "

Output ONLY the message body text. No subject line, no " ++ Py.dq ++ "Dear [Name]"
  ++ Py.dq ++ " greeting - start directly with the content.".

(** The corrective note of a retry. *)
Definition feedback_text (previous_feedback : string) : string :=
  Py.nl ++ Py.nl ++ "IMPORTANT - Previous attempt was rejected:" ++ Py.nl
  ++ previous_feedback ++ Py.nl
  ++ "Please address these issues and select a different service if needed.".

(** Sampling temperature of the generator. *)
Definition generator_temperature (retry_count : nat) : Q :=
  if (retry_count =? 0)%nat then 7 # 10 else 8 # 10.

Section Lambda.
Context (L : library) (W : world).

(** [str(v)] and the f-string rendering of a value. *)
Definition str (v : json) : string :=
  match v with
  | JNull => "None"
  | JBool true => "True"
  | JBool false => "False"
  | JNum n => str_int L n
  | JStr s => s
  | _ => repr_json L v
  end.

Definition get_active_agent (agent_id : string) : M agent_config :=
  try_except
    (_ <- get_parameter W "/referral-system/agent-registry-table-name" ;;
     items <- match registry_query W agent_id with
              | Some items => ret items
              | None => raise (ClientError "dynamodb")
              end ;;
     match items with
     | agent :: _ =>
         v <- match item_version agent with
              | Some v => ret v
              | None => raise (KeyError "version")
              end ;;
         m <- match bedrockModel agent with
              | Some m => ret m
              | None => raise (KeyError "bedrockModel")
              end ;;
         ret {| model_id := m; version := v;
                promptTemplate := item_promptTemplate agent;
                config := default ∅ (item_config agent) |}
     | [] =>
         model_id <- get_parameter W "/referral-system/bedrock-model-id" ;;
         ret (legacy_agent model_id)
     end)
    (fun _ =>
       try_except
         (model_id <- get_parameter W "/referral-system/bedrock-model-id" ;;
          ret (legacy_agent model_id))
         (fun fallback_error => raise fallback_error)).

Definition get_customer_features (customer_email : string)
    : M (option customer_features) :=
  if negb (Py.truthy_str customer_email) then ret None
  else
    try_except
      (_ <- get_parameter W "/referral-system/customer-features-table-name" ;;
       response <- get_item W customer_email ;;
       match response with
       | Some item =>
           ret (Some {| cf_satisfaction_avg := default 0%Q (satisfaction_avg item);
                        cf_service_count := default 0%Z (service_count item);
                        cf_lifetime_value := default "unknown" (lifetime_value item);
                        cf_property_features := default ∅ (property_features item) |})
       | None => ret None
       end)
      (fun _ => ret None).

(** The oracle returns the guidelines already formatted. *)
Definition get_brand_guidelines (bucket_name : string) : M string :=
  match s3_guidelines W bucket_name with
  | Some text => ret text
  | None => raise (ClientError "s3")
  end.

Definition format_customer_data (customer_data : payload) : string :=
  json_dumps L customer_data.

Definition format_customer_features (features : option customer_features) : string :=
  match features with
  | None => EmptyString
  | Some f =>
      let feature_text :=
        Py.nl ++ Py.nl ++ "CUSTOMER INSIGHTS (from Feature Store):" ++ Py.nl
        ++ "- Average Satisfaction Score: " ++ str_float L (cf_satisfaction_avg f)
        ++ "/5.0" ++ Py.nl
        ++ "- Total Services Completed: " ++ str_int L (cf_service_count f) ++ Py.nl
        ++ "- Customer Lifetime Value: " ++ Py.upper (cf_lifetime_value f) ++ Py.nl in
      let pf := cf_property_features f in
      let feature_text :=
        if Json.truthy (JObj pf) then
          feature_text ++ "- Property Location: " ++ str (Json.get pf "city" (JStr "N/A"))
          ++ ", " ++ str (Json.get pf "state" (JStr "N/A")) ++ Py.nl
          ++ (if Json.truthy (Json.get pf "property_type" JNull)
              then "- Property Type: " ++ str (Json.get pf "property_type" JNull) ++ Py.nl
              else EmptyString)
          ++ (if Json.truthy (Json.get pf "square_feet" JNull)
              then "- Property Size: " ++ str (Json.get pf "square_feet" JNull)
                   ++ " sq ft" ++ Py.nl
              else EmptyString)
        else feature_text in
      feature_text ++ Py.nl
      ++ "Use these insights to personalize the message and select the most relevant service."
  end.

(** [bedrock_client.converse] and the extraction of the answer text. *)
Definition converse (request : converse_request) : M (string * Z) :=
  log <- gets bedrock_log ;;
  modify (with_bedrock_log (fun l => (l ++ [request])%list)) ;;;
  match bedrock_converse W (length log) request with
  | Some text => ret (text, converse_seconds W (length log))
  | None => raise (ClientError "bedrock")
  end.

Definition put_metric_data (data : list metric) : M unit :=
  log <- gets metrics_log ;;
  if cloudwatch_put_ok W (length log) data
  then modify (with_metrics_log (fun l => (l ++ [data])%list))
  else raise (ClientError "cloudwatch").

Definition feedback_note (retry_count : nat) (previous_feedback : json) : string :=
  if (0 <? retry_count)%nat && Json.truthy previous_feedback
  then feedback_text (str previous_feedback)
  else EmptyString.

Definition generator_prompt (customer_data_str brand_guidelines : string)
    (retry_count : nat) (previous_feedback : json)
    (features : option customer_features) : string :=
  generator_head ++ customer_data_str ++ generator_catalog ++ brand_guidelines
  ++ format_customer_features features ++ generator_task
  ++ feedback_note retry_count previous_feedback ++ generator_tail.

(** The request sent by [call_bedrock_generator]. *)
Definition generator_request (model_id customer_data_str brand_guidelines : string)
    (retry_count : nat) (previous_feedback : json)
    (features : option customer_features) : converse_request :=
  {| modelId := model_id;
     prompt := generator_prompt customer_data_str brand_guidelines retry_count
                 previous_feedback features;
     maxTokens := 1000;
     temperature := generator_temperature retry_count |}.

Definition call_bedrock_generator (model_id customer_data_str brand_guidelines : string)
    (retry_count : nat) (previous_feedback : json)
    (features : option customer_features) : M generation :=
  try_except
    (answer <- converse (generator_request model_id customer_data_str brand_guidelines
                           retry_count previous_feedback features) ;;
     let '(generated_text, generation_time) := answer in
     put_metric_data [ {| MetricName := "GenerationTime"; Value := JNum generation_time |} ] ;;;
     ret {| email_content := Py.strip generated_text;
            generation_time := generation_time;
            g_model_id := model_id;
            g_retry_count := retry_count |})
    (fun e => raise e).

Definition judge_prompt (current_date customer_data_str generated_email
    brand_guidelines : string) : string :=
  "You are a message quality judge evaluating whether this service upsell message should be sent.

CURRENT DATE: " ++ current_date ++ "

Customer Data (JSON - may have variable fields):
" ++ customer_data_str ++ "

Generated Message:
" ++ generated_email ++ "

Company Information & Service Catalog (JSON):
" ++ brand_guidelines ++ "

" ++ judge_rubric L current_date.

(** Extract JSON from response (handle markdown code blocks) *)
Definition extract_json (judgment_text : string) : result string :=
  (if Py.contains "```json" judgment_text then
     after <- index (Py.split "```json" judgment_text) 1 ;;
     inner <- index (Py.split "```" after) 0 ;;
     Ok (Py.strip inner)
   else if Py.contains "```" judgment_text then
     after <- index (Py.split "```" judgment_text) 1 ;;
     inner <- index (Py.split "```" after) 0 ;;
     Ok (Py.strip inner)
   else Ok judgment_text)%pure.

(** From the answer text of the judge to the [judgment] dictionary: strip,
    unwrap the code fence, [json.loads]; the first [judgment.get] raises
    on anything that is not a dictionary. *)
Definition parse_judgment (text : string) : result (gmap string json) :=
  (judgment_text <- extract_json (Py.strip text) ;;
   parsed <- match json_loads L judgment_text with
             | Some v => Ok v
             | None => Raise JSONDecodeError
             end ;;
   match parsed with
   | JObj members => Ok members
   | _ => Raise AttributeError
   end)%pure.

(** The request sent by [call_bedrock_judge] on a given date. *)
Definition judge_request (current_date model_id generated_email brand_guidelines
    customer_data_str : string) : converse_request :=
  {| modelId := model_id;
     prompt := judge_prompt current_date customer_data_str generated_email
                 brand_guidelines;
     maxTokens := 500;
     temperature := 3 # 10 |}.

Definition call_bedrock_judge (model_id generated_email brand_guidelines
    customer_data_str : string) : M (gmap string json) :=
  t <- gets ticks ;;
  modify (with_ticks S) ;;;
  try_except
    (answer <- converse (judge_request (utcnow_date W t) model_id generated_email
                           brand_guidelines customer_data_str) ;;
     let '(text, judgment_time) := answer in
     judgment <- lift (parse_judgment text) ;;
     put_metric_data (judge_metrics judgment) ;;;
     ret (verdict_of judgment judgment_time))
    (fun e => ret (failed_verdict (str_exn L e))).

Definition generate_email_subject (customer_name : string) : M string :=
  d <- gets draws ;;
  modify (with_draws S) ;;;
  let subjects :=
    [ customer_name ++ ", Enhance Your Home Protection";
      "Additional Protection Options for Your Home, " ++ customer_name;
      customer_name ++ ", Here's How We Can Better Protect Your Home";
      "Recommended Service Upgrade for " ++ customer_name;
      customer_name ++ ", Take Your Pest Protection to the Next Level" ] in
  lift (index subjects (random_index W d mod 5)).

Definition store_in_dynamodb (table_name : string) (message_data : decision_record)
    : M unit :=
  try_except
    (if messages_put_item_ok W message_data
     then modify (with_messages (<[messageId message_data := message_data]>))
     else raise (ClientError "dynamodb"))
    (fun e => raise e).

(** One pass through the body of the retry loop. *)
Definition attempt (model_id customer_data_str brand_guidelines : string)
    (features : option customer_features) (ls : loop_state) : M (flow * loop_state) :=
  generated <- call_bedrock_generator model_id customer_data_str brand_guidelines
                 (retry_count ls) (previous_feedback ls) features ;;
  judgment_result <- call_bedrock_judge model_id (email_content generated)
                       brand_guidelines customer_data_str ;;
  verdict_approved <- getitem judgment_result "approved" ;;
  if Json.truthy verdict_approved then
    ret (Next,
         {| retry_count := retry_count ls;
            approved := true;
            final_email_content := Some (email_content generated);
            final_judgment := Some judgment_result;
            generation_result := Some generated;
            previous_feedback := previous_feedback ls |})
  else
    let rejection_reason := Json.get judgment_result "reason" (JStr "brand") in
    feedback <- getitem judgment_result "feedback" ;;
    if Json.eq_str rejection_reason "appropriateness" then
      ret (Break,
           {| retry_count := retry_count ls;
              approved := approved ls;
              final_email_content := Some (email_content generated);
              final_judgment := Some judgment_result;
              generation_result := Some generated;
              previous_feedback := previous_feedback ls |})
    else
      ret (Next,
           {| retry_count := S (retry_count ls);
              approved := approved ls;
              final_email_content := Some (email_content generated);
              final_judgment := Some judgment_result;
              generation_result := Some generated;
              previous_feedback := feedback |}).

(** [while retry_count <= MAX_RETRIES and not approved: ...] *)
Fixpoint while_loop (fuel max_retries : nat)
    (model_id customer_data_str brand_guidelines : string)
    (features : option customer_features) (ls : loop_state) : M loop_state :=
  if (retry_count ls <=? max_retries)%nat && negb (approved ls) then
    match fuel with
    | O => raise FuelExhausted
    | S fuel' =>
        step <- attempt model_id customer_data_str brand_guidelines features ls ;;
        match step with
        | (Break, ls') => ret ls'
        | (Next, ls') =>
            while_loop fuel' max_retries model_id customer_data_str brand_guidelines
              features ls'
        end
    end
  else ret ls.

(** The part of [process_message] from the configuration lookups to the
    end of the retry loop, for a given retry bound. *)
Definition generate_and_validate (max_retries : nat) (payload_ : payload)
    : M (string * agent_config * loop_state) :=
  let customer := get_customer payload_ in
  let customer_email := Py.or_else (email customer) "unknown@example.com" in
  bucket_name <- get_parameter W "/referral-system/s3-bucket-name" ;;
  table_name <- get_parameter W "/referral-system/dynamodb-table-name" ;;
  active_agent <- get_active_agent "upsell-generator" ;;
  brand_guidelines <- get_brand_guidelines bucket_name ;;
  features <- get_customer_features customer_email ;;
  let customer_data_str := format_customer_data payload_ in
  ls <- while_loop (S max_retries) max_retries (model_id active_agent)
          customer_data_str brand_guidelines features loop_start ;;
  ret (table_name, active_agent, ls).

Definition process_message (body : message_body) : M processing_result :=
  match webhook_payload body with
  | None => raise (KeyError "webhook_payload")
  | Some payload_ =>
      let customer := get_customer payload_ in
      outcome <- generate_and_validate MAX_RETRIES payload_ ;;
      let '(table_name, active_agent, ls) := outcome in
      email_subject <-
        generate_email_subject (default "Valued Customer" (first_name customer)) ;;
      d <- gets draws ;;
      modify (with_draws S) ;;;
      let message_id := uuid4 W d in
      t <- gets ticks ;;
      modify (with_ticks S) ;;;
      let customer_name :=
        let full := Py.strip (default EmptyString (first_name customer) ++ " "
                              ++ default EmptyString (last_name customer)) in
        if Py.truthy_str full then full else "Unknown Customer" in
      let customer_email :=
        if Py.truthy_opt (email customer) then default EmptyString (email customer)
        else Py.or_else (id customer) "unknown@example.com" in
      match generation_result ls, final_judgment ls with
      | Some generated, Some judgment =>
          t' <- gets ticks ;;
          modify (with_ticks S) ;;;
          let dynamodb_item :=
            {| messageId := message_id;
               timestamp := utcnow_timestamp W t;
               r_customerEmail := customer_email;
               customerName := customer_name;
               emailContent := final_email_content ls;
               emailSubject := email_subject;
               llmGeneratorScore := generation_time generated;
               llmJudgeScore := Json.get judgment "score" (JNum 0);
               judgeApproved := Json.get judgment "approved" (JBool false);
               judgeFeedback := Json.get judgment "feedback" (JStr EmptyString);
               judgeIssues := Json.get judgment "issues" (JArr []);
               rejectionReason := Json.get judgment "reason" (JStr "N/A");
               createdAt := utcnow_iso W t';
               status := if approved ls then "approved" else "rejected";
               retryCount := retry_count ls;
               agentVersion := version active_agent;
               customerData := payload_ |} in
          store_in_dynamodb table_name dynamodb_item ;;;
          put_metric_data
            [ {| MetricName := "MessagesGenerated"; Value := JNum 1 |};
              {| MetricName := "RetryRate"; Value := JNum (Z.of_nat (retry_count ls)) |} ] ;;;
          match email customer with
          | Some customer_email_key =>
              ret {| res_message_id := message_id;
                     res_customer_email := customer_email_key;
                     res_approved := approved ls;
                     res_retry_count := retry_count ls |}
          | None => raise (KeyError "email")
          end
      | _, _ => raise AttributeError
      end
  end.

(** The handler over the bodies of the SQS records ([None]: a body that
    does not parse). *)
Fixpoint process_records (records : list (option message_body))
    : M (list processing_result * nat) :=
  match records with
  | [] => ret ([], O)
  | record :: rest =>
      one <- try_except
               (match record with
                | None => raise JSONDecodeError
                | Some body => r <- process_message body ;; ret (Some r)
                end)
               (fun _ => ret None) ;;
      others <- process_records rest ;;
      let '(results, errors) := others in
      match one with
      | Some r => ret (r :: results, errors)
      | None => ret (results, S errors)
      end
  end.

Definition lambda_handler (records : list (option message_body))
    : M (list processing_result) :=
  outcome <- process_records records ;;
  let '(results, errors) := outcome in
  if (0 <? errors)%nat then raise (HandlerError errors) else ret results.

End Lambda.

(** Generator calls among the logged Bedrock requests: the generator asks
    for 1000 tokens, the judge for 500. *)
Definition is_generation (request : converse_request) : bool :=
  (maxTokens request =? 1000)%Z.

Definition generation_attempts (st : state) : nat :=
  length (filter (fun r => is_generation r = true) (bedrock_log st)).

End Orchestrator.

(* ===================================================================== *)
(** ** Vocabulary of the statements *)
(* ===================================================================== *)

Import Orchestrator.

(** What a computation leaves behind and what it yields. *)
Definition final_state {A} (run : state * result A) : state := fst run.
Definition outcome {A} (run : state * result A) : result A := snd run.

(** Everything but the parameter cache is the same. *)
Definition same_but_cache (st st' : state) : Prop :=
  features_table st' = features_table st /\
  messages_table st' = messages_table st /\
  bedrock_log st' = bedrock_log st /\
  metrics_log st' = metrics_log st /\
  ticks st' = ticks st /\
  draws st' = draws st.

(** The feature store answers: its table name is configured and its reads
    and writes go through. *)
Record store_available (W : world) : Prop := {
  table_name_known :
    is_Some (ssm_get_parameter W "/referral-system/customer-features-table-name");
  reads_succeed : forall e, features_get_item_ok W e = true;
  writes_succeed : forall f, features_put_item_ok W f = true
}.


(** The event brings no count of its own ([services_count] missing or 0). *)
Definition no_explicit_count (ev : payload) : Prop :=
  services_count ev = None \/ services_count ev = Some 0%Z.




(** A minimal event: customer [e] with an optional score and an optional
    explicit count. *)
Definition event_of (e : option string) (s : option Q) (n : option Z) : payload :=
  {| p_customer := Some {| email := e; id := None; first_name := None;
                           last_name := None; address := None |};
     p_service := Some {| satisfaction_score := s |};
     customer_lifetime_value := None;
     services_count := n;
     property_info := None |}.

(** A stored snapshot with the given average and count. *)
Definition snapshot_of (e : string) (a : Q) (k : Z) : features :=
  {| customerEmail := e; satisfaction_avg := Some a; service_count := Some k;
     lifetime_value := Some "low"; property_features := Some ∅;
     last_updated := Some "2025-01-01T00:00:00";
     first_seen := Some "2025-01-01T00:00:00" |}.

(** A world in which every collaborator answers; the judge's answer text is
    given per call, and the registry content and the presence of the legacy
    model id are chosen. *)
Definition world_with (judge_reply : option string)
    (registry : option (list agent_item)) (legacy : bool) : world :=
  {| ssm_get_parameter := fun k =>
       if String.eqb k "/referral-system/bedrock-model-id" && negb legacy
       then None else Some ("value-of-" ++ k);
     registry_query := fun _ => registry;
     features_get_item_ok := fun _ => true;
     features_put_item_ok := fun _ => true;
     s3_guidelines := fun _ => Some "Brand Voice: friendly";
     bedrock_converse := fun _ r =>
       if (maxTokens r =? 1000)%Z then Some " Hello there " else judge_reply;
     converse_seconds := fun _ => 2%Z;
     cloudwatch_put_ok := fun _ _ => true;
     messages_put_item_ok := fun _ => true;
     utcnow_iso := fun _ => "2025-12-12T00:00:00";
     utcnow_date := fun _ => "2025-12-12";
     utcnow_timestamp := fun _ => 1765497600%Z;
     uuid4 := fun _ => "0b5e3c1e-7d1f-4a8e-9d55-2f6f3f1f0a11";
     random_index := fun n => n |}.

Definition friendly_world : world := world_with None (Some []) true.

(** The value [get_parameter] finds for a name: the cached one, else the
    one in SSM. *)
Definition lookup_parameter (W : world) (st : state) (k : string) : option string :=
  match parameter_cache st !! k with
  | Some v => Some v
  | None => ssm_get_parameter W k
  end.

(** The registry supplies no production record for the role: the query
    raises or returns no item. *)
Definition registry_misses (W : world) (agent_id : string) : Prop :=
  registry_query W agent_id = None \/ registry_query W agent_id = Some [].

(** The configuration the registry supplies, if it supplies a usable one:
    its table name resolves, the query returns an item, and the item has
    its version and model. *)
Definition registry_record (W : world) (st : state) (agent_id : string)
    : option agent_config :=
  match lookup_parameter W st "/referral-system/agent-registry-table-name" with
  | None => None
  | Some _ =>
      match registry_query W agent_id with
      | Some (agent :: _) =>
          match item_version agent, bedrockModel agent with
          | Some v, Some m =>
              Some {| model_id := m; version := v;
                      promptTemplate := item_promptTemplate agent;
                      config := default ∅ (item_config agent) |}
          | _, _ => None
          end
      | _ => None
      end
  end.

(** Every collaborator but the judge answers: the configuration is there,
    the guidelines are served, the generator call and its metric go
    through, and the messages table accepts writes. *)
Record cooperative (W : world) : Prop := {
  bucket_known : is_Some (ssm_get_parameter W "/referral-system/s3-bucket-name");
  table_known : is_Some (ssm_get_parameter W "/referral-system/dynamodb-table-name");
  model_known : is_Some (ssm_get_parameter W "/referral-system/bedrock-model-id");
  guidelines_served : forall b, is_Some (s3_guidelines W b);
  generator_answers :
    forall n r, maxTokens r = 1000%Z -> is_Some (bedrock_converse W n r);
  generation_metric_accepted :
    forall n t, cloudwatch_put_ok W n
                  [ {| MetricName := "GenerationTime"; Value := JNum t |} ] = true;
  store_accepts : forall r, messages_put_item_ok W r = true
}.

(** Every answer the judge delivers is a rejection for brand or service
    validity. *)
Definition judge_always_rejects (L : library) (W : world) : Prop :=
  forall n r text judgment,
    maxTokens r = 500%Z ->
    bedrock_converse W n r = Some text ->
    parse_judgment L text = Ok judgment ->
    judgment !! "approved" = Some (JBool false) /\
    (judgment !! "reason" = Some (JStr "brand") \/
     judgment !! "reason" = Some (JStr "service_validity")).

(** The verdict of the judgment step in state [st] for a request: the
    failure verdict when the call, the parse or the metric publication
    fails, else the verdict built from the parsed answer. *)
Definition judge_verdict (L : library) (W : world) (st : state)
    (request : converse_request) : gmap string json :=
  match bedrock_converse W (length (bedrock_log st)) request with
  | None => failed_verdict (str_exn L (ClientError "bedrock"))
  | Some text =>
      match parse_judgment L text with
      | Raise e => failed_verdict (str_exn L e)
      | Ok judgment =>
          if cloudwatch_put_ok W (length (metrics_log st))
               (judge_metrics judgment)
          then verdict_of judgment
                 (converse_seconds W (length (bedrock_log st)))
          else failed_verdict (str_exn L (ClientError "cloudwatch"))
      end
  end.

(** The identity [process_message] writes into the record. *)
Definition recorded_identity (c : customer) : string :=
  if Py.truthy_opt (email c) then default EmptyString (email c)
  else Py.or_else (id c) "unknown@example.com".

(** The generator goes through in state [st] for a request. *)
Definition generator_succeeds (W : world) (st : state) (request : converse_request) : Prop :=
  is_Some (bedrock_converse W (length (bedrock_log st)) request) /\
  forall t, cloudwatch_put_ok W (length (metrics_log st))
              [ {| MetricName := "GenerationTime"; Value := JNum t |} ] = true.

(** What one pass of the loop body leaves in the loop variables. *)
Definition attempted (L : library) (W : world) (ls ls' : loop_state)
    (st st' : state) (request : converse_request) : Prop :=
  exists g v st1 judge_req,
    bedrock_log st' = (bedrock_log st ++ [request; judge_req])%list /\
    maxTokens judge_req = 500%Z /\
    v = judge_verdict L W st1 judge_req /\
    generation_result ls' = Some g /\
    final_judgment ls' = Some v /\
    final_email_content ls' = Some (email_content g) /\
    ((Json.truthy (Json.get v "approved" JNull) = true /\
      approved ls' = true /\
      retry_count ls' = retry_count ls /\
      previous_feedback ls' = previous_feedback ls)
     \/
     (Json.truthy (Json.get v "approved" JNull) = false /\
      approved ls' = approved ls /\
      retry_count ls' = S (retry_count ls) /\
      v !! "feedback" = Some (previous_feedback ls'))).

(** What the retry loop has established about its variables since it
    started in state [st0]. *)
Record looped (L : library) (W : world) (max_retries : nat) (st0 st : state)
    (ls : loop_state) : Prop := {
  looped_messages : messages_table st = messages_table st0;
  looped_bound : retry_count ls <= S max_retries;
  looped_attempts :
    generation_attempts st
    = (generation_attempts st0 + retry_count ls + if approved ls then 1 else 0)%nat;
  looped_results :
    ls = loop_start \/
    exists g v st1 judge_req,
      generation_result ls = Some g /\
      final_judgment ls = Some v /\
      final_email_content ls = Some (email_content g) /\
      maxTokens judge_req = 500%Z /\
      v = judge_verdict L W st1 judge_req /\
      approved ls = Json.truthy (Json.get v "approved" JNull)
}.

(** The decision record [rec] for payload [p] has been written between
    [st] and [st'], from the loop variables [ls]. *)
Record decided (L : library) (W : world) (p : payload) (st st' : state)
    (rec : decision_record) (ls : loop_state) : Prop := {
  decided_stored : messages_table st' = <[messageId rec := rec]> (messages_table st);
  decided_status : status rec = if approved ls then "approved" else "rejected";
  decided_retries : retryCount rec = retry_count ls;
  decided_reason : rejectionReason rec = JStr "N/A";
  decided_identity : r_customerEmail rec = recorded_identity (get_customer p);
  decided_content : emailContent rec = final_email_content ls;
  decided_payload : customerData rec = p;
  decided_verdict :
    exists v st1 judge_req,
              final_judgment ls = Some v /\
              maxTokens judge_req = 500%Z /\
              v = judge_verdict L W st1 judge_req /\
              approved ls = Json.truthy (Json.get v "approved" JNull) /\
              judgeApproved rec = Json.get v "approved" (JBool false) /\
              llmJudgeScore rec = Json.get v "score" (JNum 0) /\
              judgeIssues rec = Json.get v "issues" (JArr []) /\
              judgeFeedback rec = Json.get v "feedback" (JStr EmptyString);
  decided_attempts :
    generation_attempts st'
    = (generation_attempts st + retry_count ls + if approved ls then 1 else 0)%nat;
  decided_bound : retry_count ls <= S MAX_RETRIES;
  decided_exit : approved ls = true \/ MAX_RETRIES < retry_count ls
}.

(** The judge fails on every call: the inference call raises or its answer
    does not parse. *)
Definition judge_always_fails (L : library) (W : world) : Prop :=
  forall n r,
    maxTokens r = 500%Z ->
    bedrock_converse W n r = None \/
    exists text e, bedrock_converse W n r = Some text /\
                   parse_judgment L text = Raise e.

(** *** Sample answers of the judge *)

Definition quoted (s : string) : string := Py.dq ++ s ++ Py.dq.

Definition fenced (body : string) : string :=
  "```json" ++ Py.nl ++ body ++ Py.nl ++ "```".

(** A rejection because an upsell went out ten days ago. *)
Definition appropriateness_text : string :=
  "{" ++ quoted "approved" ++ ": false, " ++ quoted "score" ++ ": 2, "
  ++ quoted "issues" ++ ": [" ++ quoted "recent upsell" ++ "], "
  ++ quoted "feedback" ++ ": " ++ quoted "Last upsell was sent 10 days ago" ++ ", "
  ++ quoted "reason" ++ ": " ++ quoted "appropriateness" ++ "}".

Definition appropriateness_judgment : gmap string json :=
  <["reason" := JStr "appropriateness"]>
    (<["feedback" := JStr "Last upsell was sent 10 days ago"]>
       (<["issues" := JArr [JStr "recent upsell"]]>
          (<["score" := JNum 2]> (<["approved" := JBool false]> ∅)))).

(** A rejection for tone. *)
Definition brand_text : string :=
  "{" ++ quoted "approved" ++ ": false, " ++ quoted "score" ++ ": 4, "
  ++ quoted "issues" ++ ": [" ++ quoted "pushy" ++ "], "
  ++ quoted "feedback" ++ ": " ++ quoted "Soften the tone" ++ ", "
  ++ quoted "reason" ++ ": " ++ quoted "brand" ++ "}".

Definition brand_judgment : gmap string json :=
  <["reason" := JStr "brand"]>
    (<["feedback" := JStr "Soften the tone"]>
       (<["issues" := JArr [JStr "pushy"]]>
          (<["score" := JNum 4]> (<["approved" := JBool false]> ∅)))).

(** A rejection that gives no feedback. *)
Definition bare_rejection_text : string :=
  "{" ++ quoted "approved" ++ ": false}".

Definition bare_rejection_judgment : gmap string json :=
  <["approved" := JBool false]> ∅.

(** A library whose [json.loads] knows the sample answers. *)
Definition sample_library : library :=
  {| json_loads := fun s =>
       if String.eqb s appropriateness_text then Some (JObj appropriateness_judgment)
       else if String.eqb s brand_text then Some (JObj brand_judgment)
       else if String.eqb s bare_rejection_text then Some (JObj bare_rejection_judgment)
       else None;
     json_dumps := fun _ => "{}";
     str_float := fun _ => "5.0";
     str_int := fun _ => "1";
     repr_json := fun _ => "[]";
     str_exn := fun e =>
       match e with
       | JSONDecodeError => "Expecting value: line 1 column 1 (char 0)"
       | _ => "An error occurred when calling the Converse operation"
       end;
     judge_rubric := fun _ => "Evaluate on THREE dimensions:" |}.

(** An event of a customer with neither email nor id. *)
Definition anonymous_event : payload :=
  {| p_customer := Some {| email := None; id := None; first_name := Some "Ann";
                           last_name := None; address := None |};
     p_service := Some {| satisfaction_score := Some 5%Q |};
     customer_lifetime_value := None;
     services_count := None;
     property_info := None |}.

(** Seven scored events of one new customer. *)
Definition seven_scores : list Q := [1; 1; 1; 1; 1; 2; 1]%Q.

Definition seven_events : list payload :=
  map (fun s => event_of (Some "a@b.com") (Some s) None) seven_scores.

(** A message body that carries the payload. *)
Definition sample_body (p : payload) : message_body :=
  {| webhook_payload := Some p |}.

(** Every answer the judge delivers is a rejection with the given reason. *)
Definition judge_rejects_with (reason : string) (L : library) (W : world) : Prop :=
  forall n r text judgment,
    maxTokens r = 500%Z ->
    bedrock_converse W n r = Some text ->
    parse_judgment L text = Ok judgment ->
    judgment !! "approved" = Some (JBool false) /\
    judgment !! "reason" = Some (JStr reason).

(** No answer the judge delivers has a true [approved]. *)
Definition judge_never_approves (L : library) (W : world) : Prop :=
  forall n r text judgment,
    maxTokens r = 500%Z ->
    bedrock_converse W n r = Some text ->
    parse_judgment L text = Ok judgment ->
    Json.truthy (Json.get judgment "approved" (JBool false)) = false.

(** Weakest precondition of a computation: [Q] holds of the state it leaves
    and of what it yields. *)
Definition wp {A} (m : M A) (Q : state -> result A -> Prop) (st : state) : Prop :=
  Q (final_state (m st)) (outcome (m st)).


(** *** Vocabulary of the further properties *)

(** The snapshot the enricher works from in state [st]: the stored item
    when the read goes through, nothing when it raises. *)
Definition snapshot_read (W : world) (st : state) (e : string) : option features :=
  if features_get_item_ok W e then features_table st !! e else None.

(** The feature record the enricher computes for the event [ev] in state
    [st]. *)
Record computed (W : world) (ev : payload) (st : state) (fr : features) : Prop := {
  computed_email : email (get_customer ev) = Some (customerEmail fr);
  computed_email_given : Py.truthy_str (customerEmail fr) = true;
  computed_average :
    exists a,
      FeatureEnricher.calculate_satisfaction_avg ev
        (snapshot_read W st (customerEmail fr)) = Ok a /\
      satisfaction_avg fr = Some a;
  computed_count :
    service_count fr
    = Some (FeatureEnricher.calculate_service_count ev
              (snapshot_read W st (customerEmail fr)));
  computed_tier :
    exists t,
      FeatureEnricher.get_lifetime_value ev
        (snapshot_read W st (customerEmail fr)) = Ok t /\
      lifetime_value fr = Some t;
  computed_property :
    property_features fr = Some (FeatureEnricher.extract_property_features ev);
  computed_first_seen :
    match snapshot_read W st (customerEmail fr) with
    | Some f => first_seen fr = Some (default (utcnow_iso W (ticks st)) (first_seen f))
    | None => first_seen fr = Some (utcnow_iso W (S (ticks st)))
    end
}.

(** What a successful run of the enricher's handler did between [st] and
    [st']: it computed [fr] and the store took it. *)
Record enriched (W : world) (ev : payload) (st st' : state) (fr : features) : Prop := {
  enriched_computed : computed W ev st fr;
  enriched_accepted : features_put_item_ok W fr = true;
  enriched_stored : features_table st' = <[customerEmail fr := fr]> (features_table st)
}.

(** The tables and the Bedrock log are the same. *)
Definition same_tables (st st' : state) : Prop :=
  features_table st' = features_table st /\
  messages_table st' = messages_table st /\
  bedrock_log st' = bedrock_log st.

(** On the satisfaction scale of 0 to 5. *)
Definition on_scale (q : Q) : Prop := (0 <= q)%Q /\ (q <= 5)%Q.

(** A state whose feature table holds one snapshot. *)
Definition state_with (f : features) : state :=
  with_features (<[customerEmail f := f]>) initial_state.

(** The friendly world with a feature store whose reads raise. *)
Definition unreadable_world : world :=
  {| ssm_get_parameter := ssm_get_parameter friendly_world;
     registry_query := registry_query friendly_world;
     features_get_item_ok := fun _ => false;
     features_put_item_ok := features_put_item_ok friendly_world;
     s3_guidelines := s3_guidelines friendly_world;
     bedrock_converse := bedrock_converse friendly_world;
     converse_seconds := converse_seconds friendly_world;
     cloudwatch_put_ok := cloudwatch_put_ok friendly_world;
     messages_put_item_ok := messages_put_item_ok friendly_world;
     utcnow_iso := fun n => if (n =? 0)%nat then "2025-12-12T00:00:00"
                            else "2025-12-12T00:00:01";
     utcnow_date := utcnow_date friendly_world;
     utcnow_timestamp := utcnow_timestamp friendly_world;
     uuid4 := uuid4 friendly_world;
     random_index := random_index friendly_world |}.

(** Every event's score, when it has one, is on the scale. *)
Definition scores_on_scale (ev : payload) : Prop :=
  forall s, current_score_of ev = Some s -> on_scale s.

(** The snapshot records an average on the scale and a non-negative count. *)
Definition sound_snapshot (o : option features) : Prop :=
  exists f a k, o = Some f /\ satisfaction_avg f = Some a /\ on_scale a /\
                service_count f = Some k /\ (0 <= k)%Z.

(** The dictionary [get_customer_features] builds from a stored item. *)
Definition features_view (item : features) : customer_features :=
  {| cf_satisfaction_avg := default 0%Q (satisfaction_avg item);
     cf_service_count := default 0%Z (service_count item);
     cf_lifetime_value := default "unknown" (lifetime_value item);
     cf_property_features := default ∅ (property_features item) |}.

(** The configuration [process_message] reads is there: the bucket, the
    messages table and the legacy model id are in SSM, and S3 serves the
    guidelines. *)
Record configured (W : world) : Prop := {
  configured_bucket : is_Some (ssm_get_parameter W "/referral-system/s3-bucket-name");
  configured_table : is_Some (ssm_get_parameter W "/referral-system/dynamodb-table-name");
  configured_model : is_Some (ssm_get_parameter W "/referral-system/bedrock-model-id");
  configured_guidelines : forall b, is_Some (s3_guidelines W b)
}.

(** Every generation call fails. *)
Definition generator_down (W : world) : Prop :=
  forall n r, maxTokens r = 1000%Z -> bedrock_converse W n r = None.

(** Every answer of the judge parses to an approval, and its metrics are
    published. *)
Definition judge_always_approves (L : library) (W : world) : Prop :=
  forall n r,
    maxTokens r = 500%Z ->
    exists text judgment,
      bedrock_converse W n r = Some text /\
      parse_judgment L text = Ok judgment /\
      Json.truthy (Json.get judgment "approved" (JBool false)) = true /\
      forall m, cloudwatch_put_ok W m (judge_metrics judgment) = true.

(** The metrics [process_message] publishes after the record is stored. *)
Definition delivery_metrics (retry_count : nat) : list metric :=
  [ {| MetricName := "MessagesGenerated"; Value := JNum 1 |};
    {| MetricName := "RetryRate"; Value := JNum (Z.of_nat retry_count) |} ].

(** What [process_message] yields once the record [rec] is stored. *)
Definition reported (W : world) (p : payload) (rec : decision_record)
    (ls : loop_state) (st' : state) (r : result processing_result) : Prop :=
  messages_put_item_ok W rec = true /\
  match r with
  | Ok res =>
      email (get_customer p) = Some (res_customer_email res) /\
      res_message_id res = messageId rec /\
      res_approved res = approved ls /\
      res_retry_count res = retry_count ls /\
      last (metrics_log st') = Some (delivery_metrics (retry_count ls))
  | Raise e =>
      (e = ClientError "cloudwatch" /\
       exists n, cloudwatch_put_ok W n (delivery_metrics (retry_count ls)) = false)
      \/
      (e = KeyError "email" /\ email (get_customer p) = None /\
       last (metrics_log st') = Some (delivery_metrics (retry_count ls)))
  end.

(** An approval. *)
Definition approval_text : string :=
  "{" ++ quoted "approved" ++ ": true, " ++ quoted "score" ++ ": 9}".

Definition approval_judgment : gmap string json :=
  <["score" := JNum 9]> (<["approved" := JBool true]> ∅).

(** A library whose [json.loads] also knows the approval. *)
Definition approving_library : library :=
  {| json_loads := fun s =>
       if String.eqb s approval_text then Some (JObj approval_judgment)
       else json_loads sample_library s;
     json_dumps := json_dumps sample_library;
     str_float := str_float sample_library;
     str_int := str_int sample_library;
     repr_json := repr_json sample_library;
     str_exn := str_exn sample_library;
     judge_rubric := judge_rubric sample_library |}.

(** A configured world with the given answer of the generator, the answer
    of the judge to each Bedrock call, the metric lists CloudWatch accepts
    and whether the messages table accepts writes. *)
Definition sample_world (generator_reply : option string)
    (judge_reply : nat -> option string)
    (metrics_ok : list metric -> bool) (store_ok : bool) : world :=
  {| ssm_get_parameter := fun k => Some ("value-of-" ++ k);
     registry_query := fun _ => Some [];
     features_get_item_ok := fun _ => true;
     features_put_item_ok := fun _ => true;
     s3_guidelines := fun _ => Some "Brand Voice: friendly";
     bedrock_converse := fun n r =>
       if (maxTokens r =? 1000)%Z then generator_reply else judge_reply n;
     converse_seconds := fun _ => 2%Z;
     cloudwatch_put_ok := fun _ d => metrics_ok d;
     messages_put_item_ok := fun _ => store_ok;
     utcnow_iso := fun _ => "2025-12-12T00:00:00";
     utcnow_date := fun _ => "2025-12-12";
     utcnow_timestamp := fun _ => 1765497600%Z;
     uuid4 := fun _ => "0b5e3c1e-7d1f-4a8e-9d55-2f6f3f1f0a11";
     random_index := fun n => n |}.

(** An approval is kept only below the retry bound. *)
Definition approved_in_time (ls : loop_state) : Prop :=
  approved ls = true -> retry_count ls <= MAX_RETRIES.

(** CloudWatch refuses every publication of the judge's metrics. *)
Definition judge_metrics_refused (W : world) : Prop :=
  forall n judgment, cloudwatch_put_ok W n (judge_metrics judgment) = false.


(** The text has no backtick. *)
Fixpoint no_backtick (s : string) : bool :=
  match s with
  | EmptyString => true
  | String c r => negb (Ascii.eqb c "`") && no_backtick r
  end.

(** A complete production record of the registry, and one without its
    model. *)
Definition registered_agent : agent_item :=
  {| agentId := "upsell-generator";
     bedrockModel := Some "amazon.nova-pro-v1:0";
     item_version := Some "3";
     item_promptTemplate := Some "template-3";
     item_config := None |}.

Definition incomplete_agent : agent_item :=
  {| agentId := "upsell-generator";
     bedrockModel := None;
     item_version := Some "4";
     item_promptTemplate := None;
     item_config := None |}.

(** The answer of the judge to the Bedrock call number [n] is no approval. *)
Definition judge_rejects_at (L : library) (W : world) (n : nat) : Prop :=
  forall r text judgment,
    maxTokens r = 500%Z ->
    bedrock_converse W n r = Some text ->
    parse_judgment L text = Ok judgment ->
    Json.truthy (Json.get judgment "approved" (JBool false)) = false.

(** The answer of the judge to the Bedrock call number [n] is an approval,
    and its metrics are published. *)
Definition judge_approves_at (L : library) (W : world) (n : nat) : Prop :=
  forall r,
    maxTokens r = 500%Z ->
    exists text judgment,
      bedrock_converse W n r = Some text /\
      parse_judgment L text = Ok judgment /\
      Json.truthy (Json.get judgment "approved" (JBool false)) = true /\
      forall m, cloudwatch_put_ok W m (judge_metrics judgment) = true.

(** The loop variables hold a generation, stripped, and the verdict of the
    judge on that very text. *)
Definition judged (L : library) (W : world)
    (model_id brand_guidelines customer_data_str : string) (ls : loop_state) : Prop :=
  exists g date st1,
    generation_result ls = Some g /\
    final_email_content ls = Some (email_content g) /\
    Py.strip (email_content g) = email_content g /\
    final_judgment ls
    = Some (judge_verdict L W st1
              (judge_request L date model_id (email_content g) brand_guidelines
                 customer_data_str)).

(** What a lookup of a parameter yields is the same in both states. *)
Definition same_lookups (W : world) (st st' : state) : Prop :=
  forall k, lookup_parameter W st' k = lookup_parameter W st k.

(** The configuration [process_message] needs cannot be had in state [st]:
    the bucket name or the table name does not resolve, or neither the
    registry nor the legacy parameter gives a model, or S3 does not serve
    the guidelines. *)
Definition unconfigurable (W : world) (st : state) : Prop :=
  lookup_parameter W st "/referral-system/s3-bucket-name" = None \/
  lookup_parameter W st "/referral-system/dynamodb-table-name" = None \/
  (registry_record W st "upsell-generator" = None /\
   lookup_parameter W st "/referral-system/bedrock-model-id" = None) \/
  (forall b, s3_guidelines W b = None).

(* ===================================================================== *)
(** ** Webhook handler (aws/lambda/webhook_handler/lambda_function.py) *)
(* ===================================================================== *)

(** The lambda in front of the queue the orchestrator reads.  Its event and
    the payload are JSON values; its collaborators are SSM, which tells a
    missing parameter from other failures, SQS and the clock. *)
Module WebhookHandler.

Inductive ssm_answer :=
| Found (value : string)
| ParameterNotFound
| OtherError.

(** The arguments of [sqs_client.send_message]; [MessageBody] is the
    dictionary before [json.dumps]. *)
Record sqs_message := {
  QueueUrl : string;
  MessageBody : gmap string json;
  customer_identifier : json;
  event_type : json
}.

Record collaborators := {
  ENVIRONMENT : string;
  ssm_parameter : string -> ssm_answer;
  send_message : sqs_message -> option string;   (* MessageId; None: raises *)
  utcnow_isoformat : nat -> string
}.

(** What the lambda mutates: its parameter cache, the queue and the
    clock. *)
Record ingress_state := {
  cached : gmap string string;
  queue : list sqs_message;
  clock : nat
}.

Definition H (A : Type) : Type := ingress_state -> ingress_state * result A.

Definition retH {A} (a : A) : H A := fun s => (s, Ok a).

Definition raiseH {A} (e : exn) : H A := fun s => (s, Raise e).

Definition liftH {A} (r : result A) : H A := fun s => (s, r).

Definition bindH {A B} (m : H A) (k : A -> H B) : H B :=
  fun s =>
    match m s with
    | (s', Ok a) => k a s'
    | (s', Raise e) => (s', Raise e)
    end.

Declare Scope hook_scope.
Delimit Scope hook_scope with hook.
Notation "x <- c ;; k" := (bindH c (fun x => k))
  (at level 100, c at next level, right associativity) : hook_scope.

(** [sep.join(parts)] *)
Definition join (sep : string) (parts : list string) : string :=
  match parts with
  | [] => EmptyString
  | first :: rest => fold_left (fun acc part => acc ++ sep ++ part) rest first
  end.

(** [s.replace(old, new)] for a non-empty [old] *)
Definition replace (old new s : string) : string := join new (Py.split old s).

Definition env_specific_name (environment parameter_name : string) : string :=
  if String.prefix "/referral-system/" parameter_name
  then replace "/referral-system/" ("/referral-system/" ++ environment ++ "/")
         parameter_name
  else parameter_name.

(** One turn of the loop of [get_parameter]: the value, or nothing when the
    parameter is not found. *)
Definition try_name (C : collaborators) (param_name : string) : H (option string) :=
  fun s =>
    match cached s !! param_name with
    | Some v => (s, Ok (Some v))
    | None =>
        match ssm_parameter C param_name with
        | Found v =>
            ({| cached := <[param_name := v]> (cached s);
                queue := queue s; clock := clock s |}, Ok (Some v))
        | ParameterNotFound => (s, Ok None)
        | OtherError => (s, Raise (ClientError "ssm"))
        end
    end.

Fixpoint first_found (C : collaborators) (names : list string) (not_found : exn)
    : H string :=
  match names with
  | [] => raiseH not_found
  | param_name :: rest =>
      (found <- try_name C param_name ;;
       match found with
       | Some v => retH v
       | None => first_found C rest not_found
       end)%hook
  end.

Definition get_parameter (C : collaborators) (parameter_name : string) : H string :=
  let env_specific_name := env_specific_name (ENVIRONMENT C) parameter_name in
  first_found C [env_specific_name; parameter_name]
    (ValueError ("Parameter not found: " ++ parameter_name ++ " or "
                 ++ env_specific_name)).

(** [a or b] *)
Definition or_ (a b : json) : json := if Json.truthy a then a else b.

(** [customer.get('email') or customer.get('id') or 'unknown'] *)
Definition identifier (customer : gmap string json) : json :=
  or_ (Json.get customer "email" JNull)
      (or_ (Json.get customer "id" JNull) (JStr "unknown")).

(** [payload.get('customer', {})] followed by the reads of its keys: a
    customer that is no dictionary has no [get]. *)
Definition customer_of (payload : gmap string json) : result (gmap string json) :=
  match Json.get payload "customer" (JObj ∅) with
  | JObj customer => Ok customer
  | _ => Raise AttributeError
  end.

Definition validate_webhook_payload (payload : json) : result (bool * string) :=
  match payload with
  | JObj members =>
      if Json.truthy payload then
        (customer <- customer_of members ;;
         let customer_id := identifier customer in
         Ok (true, EmptyString))%pure
      else Ok (false, "Payload must be a non-empty JSON object")
  | _ => Ok (false, "Payload must be a non-empty JSON object")
  end.

Definition now (C : collaborators) : H string :=
  fun s => ({| cached := cached s; queue := queue s; clock := S (clock s) |},
            Ok (utcnow_isoformat C (clock s))).

Definition send_to_sqs (C : collaborators) (queue_url : string)
    (payload : gmap string json) : H string :=
  (received_at <- now C ;;
   let message_body : gmap string json :=
     <["source" := JStr "webhook_handler"]>
       (<["received_at" := JStr received_at]>
          (<["webhook_payload" := JObj payload]> ∅)) in
   customer <- liftH (customer_of payload) ;;
   let message :=
     {| QueueUrl := queue_url;
        MessageBody := message_body;
        customer_identifier := identifier customer;
        event_type := Json.get payload "event_type" (JStr "service_completed") |} in
   fun s =>
     match send_message C message with
     | Some message_id =>
         ({| cached := cached s; queue := (queue s ++ [message])%list;
             clock := clock s |}, Ok message_id)
     | None => (s, Raise (ClientError "sqs"))
     end)%hook.

(** The answers of the handler: 200 with the message id, the customer
    identifier and the time; 400 with an error and a message; 500. *)
Inductive response :=
| Accepted (messageId : string) (customer_identifier : json) (timestamp : string)
| BadRequest (error message : string)
| InternalError.

(** The request body: parsed when it is a string, taken as it is when it is
    not, the event itself when there is none. *)
Definition body_of (L : library) (event : gmap string json) : result json :=
  match event !! "body" with
  | Some (JStr text) =>
      match json_loads L text with
      | Some v => Ok v
      | None => Raise JSONDecodeError
      end
  | Some v => Ok v
  | None => Ok (JObj event)
  end.

Definition lambda_handler (L : library) (C : collaborators)
    (event : gmap string json) : ingress_state -> ingress_state * response :=
  fun s =>
    let attempt :=
      (body <- liftH (body_of L event) ;;
       validity <- liftH (validate_webhook_payload body) ;;
       if negb (fst validity) then retH (BadRequest "Invalid payload" (snd validity))
       else
         match body with
         | JObj payload =>
             queue_url <- get_parameter C "/referral-system/sqs-queue-url" ;;
             message_id <- send_to_sqs C queue_url payload ;;
             customer <- liftH (customer_of payload) ;;
             timestamp <- now C ;;
             retH (Accepted message_id (identifier customer) timestamp)
         | _ => raiseH AttributeError
         end)%hook in
    match attempt s with
    | (s', Ok answer) => (s', answer)
    | (s', Raise JSONDecodeError) =>
        (s', BadRequest "Invalid JSON" (str_exn L JSONDecodeError))
    | (s', Raise _) => (s', InternalError)
    end.

End WebhookHandler.

(** The payload is one the webhook handler takes: a non-empty object. *)
Definition well_formed (payload : json) : bool :=
  match payload with
  | JObj _ => Json.truthy payload
  | _ => false
  end.

(** The message [send_to_sqs] builds for a payload at a given time. *)
Definition message_for (C : WebhookHandler.collaborators) (queue_url : string)
    (payload customer : gmap string json) (time : nat) : WebhookHandler.sqs_message :=
  {| WebhookHandler.QueueUrl := queue_url;
     WebhookHandler.MessageBody :=
       <["source" := JStr "webhook_handler"]>
         (<["received_at" := JStr (WebhookHandler.utcnow_isoformat C time)]>
            (<["webhook_payload" := JObj payload]> ∅));
     WebhookHandler.customer_identifier := WebhookHandler.identifier customer;
     WebhookHandler.event_type :=
       Json.get payload "event_type" (JStr "service_completed") |}.

(** Collaborators of a development stage that knows only the old parameter
    path. *)
Definition sample_collaborators : WebhookHandler.collaborators :=
  {| WebhookHandler.ENVIRONMENT := "dev";
     WebhookHandler.ssm_parameter := fun k =>
       if String.eqb k "/referral-system/sqs-queue-url"
       then WebhookHandler.Found "https://sqs.example/queue"
       else WebhookHandler.ParameterNotFound;
     WebhookHandler.send_message := fun _ => Some "m-1";
     WebhookHandler.utcnow_isoformat := fun _ => "2025-12-12T00:00:00" |}.

Definition fresh : WebhookHandler.ingress_state :=
  {| WebhookHandler.cached := ∅; WebhookHandler.queue := [];
     WebhookHandler.clock := 0 |}.

(** An event whose payload has a customer without email or id. *)
Definition anonymous_request : gmap string json :=
  <["customer" := JObj (<["first_name" := JStr "Ann"]> ∅)]> ∅.

(** A request whose body is a text. *)
Definition text_request (text : string) : gmap string json :=
  <["body" := JStr text]> ∅.

(* ===================================================================== *)
(** ** Rounding and the running average *)
(* ===================================================================== *)








(* ===================================================================== *)
(** ** Rules of the weakest precondition *)
(* ===================================================================== *)

Lemma wp_ret {A} (a : A) Q st : Q st (Ok a) -> wp (ret a) Q st.
Proof. exact (fun H => H). Qed.

Lemma wp_raise {A} (e : exn) (Q : state -> result A -> Prop) st :
  Q st (Raise e) -> wp (raise e) Q st.
Proof. exact (fun H => H). Qed.

Lemma wp_gets {A} (f : state -> A) Q st : Q st (Ok (f st)) -> wp (gets f) Q st.
Proof. exact (fun H => H). Qed.

Lemma wp_modify (f : state -> state) Q st : Q (f st) (Ok tt) -> wp (modify f) Q st.
Proof. exact (fun H => H). Qed.

Lemma wp_lift {A} (r : result A) Q st : Q st r -> wp (lift r) Q st.
Proof. exact (fun H => H). Qed.

Lemma wp_bind {A B} (m : M A) (k : A -> M B) Q st :
  wp m (fun st' r => match r with
                     | Ok a => wp (k a) Q st'
                     | Raise e => Q st' (Raise e)
                     end) st ->
  wp (bind m k) Q st.
Proof.
  unfold wp, bind, final_state, outcome.
  destruct (m st) as [st' [a|e]]; cbn; auto.
Qed.

Lemma wp_try_except {A} (body : M A) (handler : exn -> M A) Q st :
  wp body (fun st' r => match r with
                        | Ok a => Q st' (Ok a)
                        | Raise e => wp (handler e) Q st'
                        end) st ->
  wp (try_except body handler) Q st.
Proof.
  unfold wp, try_except, final_state, outcome.
  destruct (body st) as [st' [a|e]]; cbn; auto.
Qed.

Lemma wp_mono {A} (m : M A) (Q Q' : state -> result A -> Prop) st :
  wp m Q st -> (forall st' r, Q st' r -> Q' st' r) -> wp m Q' st.
Proof. unfold wp. auto. Qed.

Ltac wp_step :=
  lazymatch goal with
  | |- wp (bind _ _) _ _ => apply wp_bind
  | |- wp (try_except _ _) _ _ => apply wp_try_except
  | |- wp (ret _) _ _ => apply wp_ret
  | |- wp (raise _) _ _ => apply wp_raise
  | |- wp (gets _) _ _ => apply wp_gets
  | |- wp (modify _) _ _ => apply wp_modify
  | |- wp (lift _) _ _ => apply wp_lift
  end; cbn beta iota.

Ltac wp_steps := repeat wp_step.

(** Use a proved specification of the computation in head position. *)
Ltac wp_use H :=
  eapply wp_mono; [ apply H | cbn beta; intros ? ? ? ].

Lemma same_but_cache_refl st : same_but_cache st st.
Proof. repeat split. Qed.

Lemma same_but_cache_trans st1 st2 st3 :
  same_but_cache st1 st2 -> same_but_cache st2 st3 -> same_but_cache st1 st3.
Proof.
  unfold same_but_cache. intros (?&?&?&?&?&?) (?&?&?&?&?&?).
  repeat split; congruence.
Qed.


(* ===================================================================== *)
(** ** Feature enricher *)
(* ===================================================================== *)

Import FeatureEnricher.


Lemma get_lifetime_value_defined (ev : payload) (ex : option features) (a : Q) :
  calculate_satisfaction_avg ev ex = Ok a ->
  exists t, get_lifetime_value ev ex = Ok t.
Proof.
  intros Ha. unfold get_lifetime_value. rewrite Ha.
  destruct (Py.truthy_opt _); [eauto|].
  destruct (_ && _); [eauto|]. destruct (_ || _); eauto.
Qed.

Lemma calculate_service_count_existing (ev : payload) (f : features) (k : Z) :
  service_count f = Some k ->
  calculate_service_count ev (Some f) = (k + 1)%Z.
Proof. intros H. destruct f; cbn in *. subst. reflexivity. Qed.



Lemma enricher_rejects_missing_email (W : world) (ev : payload) (st : state) :
  Py.truthy_opt (email (get_customer ev)) = false ->
  enrich_customer_features W ev st
  = (st, Raise (ValueError "Customer email is required")) /\
  lambda_handler W ev st
  = (st, Ok (Failure (ValueError "Customer email is required"))).
Proof.
  intros H. unfold lambda_handler, try_except, bind, enrich_customer_features.
  rewrite H. split; reflexivity.
Qed.

Lemma friendly_store_available judge registry legacy :
  store_available (world_with judge registry legacy).
Proof.
  split; [|reflexivity|reflexivity]. eexists. reflexivity.
Qed.




(** C6.  The tier is a function of its inputs.  A non-empty tier supplied by
    the event is returned in lower case.  Otherwise, with [count] the
    computed service count and [sat] the computed satisfaction average, the
    tier is high exactly when count >= 6 and sat >= 4.0, medium exactly when
    it is not high and count >= 3 or sat >= 3.5, and low in the remaining
    case; in particular count = 6 with sat = 4.0 is high and count = 3 is
    medium whatever the score. *)
Theorem lifetime_value_tier_classification
    (ev : payload) (ex : option features) (t : string) (sat : Q) :
  (customer_lifetime_value ev = Some t -> t <> EmptyString ->
     get_lifetime_value ev ex = Ok (Py.lower t)) /\
  (Py.truthy_opt (customer_lifetime_value ev) = false ->
   calculate_satisfaction_avg ev ex = Ok sat ->
   let count := calculate_service_count ev ex in
   let high := (6 <= count)%Z /\ (4 <= sat)%Q in
   let medium := (3 <= count)%Z \/ (7 # 2 <= sat)%Q in
   exists tier,
     get_lifetime_value ev ex = Ok tier /\
     (tier = "high" <-> high) /\
     (tier = "medium" <-> ~ high /\ medium) /\
     (tier = "low" <-> ~ high /\ ~ medium) /\
     (count = 6%Z -> (sat == 4)%Q -> tier = "high") /\
     (count = 3%Z -> tier = "medium")).
Proof.
  split.
  - intros Ht Hne. unfold get_lifetime_value. rewrite Ht.
    destruct t as [|c r]; [congruence|]. reflexivity.
  - intros Hnone Hsat count high medium.
    unfold get_lifetime_value. rewrite Hnone, Hsat. fold count.
    destruct (6 <=? count)%Z eqn:E6; destruct (Qle_bool 4 sat) eqn:Q4;
      destruct (3 <=? count)%Z eqn:E3; destruct (Qle_bool (7 # 2) sat) eqn:Q35;
      cbn [andb orb];
      try (apply Z.leb_le in E6); try (apply Z.leb_gt in E6);
      try (apply Z.leb_le in E3); try (apply Z.leb_gt in E3);
      try (apply Qle_bool_iff in Q4);
      try (apply Qle_bool_iff in Q35);
      try (assert (~ (4 <= sat)%Q)
             by (intros Hc; apply Qle_bool_iff in Hc; congruence));
      try (assert (~ (7 # 2 <= sat)%Q)
             by (intros Hc; apply Qle_bool_iff in Hc; congruence));
      eexists; (split; [reflexivity|]); unfold high, medium;
      repeat split; intros; try discriminate; try tauto; try lia;
      try (exfalso; lra);
      try solve [intuition (try lia; try lra)];
      try solve [exfalso; intuition (try lia; try lra)].
Qed.

Lemma lifetime_value_tier_classification_witness :
  get_lifetime_value
    {| p_customer := None; p_service := None;
       customer_lifetime_value := Some "High"; services_count := Some 8%Z;
       property_info := None |} None = Ok "high" /\
  exists tier,
    get_lifetime_value (event_of (Some "a@b.com") (Some 4%Q) None)
      (Some (snapshot_of "a@b.com" 4 5)) = Ok tier /\
    tier = "high".
Proof.
  split.
  - apply (proj1 (lifetime_value_tier_classification _ None "High" 0)).
    + reflexivity.
    + discriminate.
  - destruct (proj2 (lifetime_value_tier_classification
                       (event_of (Some "a@b.com") (Some 4%Q) None)
                       (Some (snapshot_of "a@b.com" 4 5)) EmptyString
                       (Py.round2 ((4 * inject_Z 5 + 4) / inject_Z (5 + 1))))
                    eq_refl eq_refl)
      as (tier & Ht & _ & _ & _ & Hb & _).
    exists tier. split; [exact Ht|]. apply Hb; reflexivity.
Defined.

(** C8 (amended).  With an existing snapshot that records a count, the new
    count is that count plus 1.  Without one, the count is the count the
    event supplies when it supplies a non-zero one, and 1 otherwise; a
    snapshot without a recorded count is treated like no snapshot. *)
Theorem service_count_rule (ev : payload) (f : features) (k n : Z) :
  (service_count f = Some k -> calculate_service_count ev (Some f) = (k + 1)%Z) /\
  (services_count ev = Some n -> n <> 0%Z -> calculate_service_count ev None = n) /\
  (no_explicit_count ev -> calculate_service_count ev None = 1%Z) /\
  (service_count f = None ->
     calculate_service_count ev (Some f) = calculate_service_count ev None).
Proof.
  repeat split.
  - apply calculate_service_count_existing.
  - intros Hn Hne. unfold calculate_service_count. rewrite Hn.
    destruct (n =? 0)%Z eqn:E; [lia | reflexivity].
  - intros [H | H]; unfold calculate_service_count; rewrite H; reflexivity.
  - intros H. destruct f; cbn in *. subst. reflexivity.
Qed.

Lemma service_count_rule_witness :
  calculate_service_count (event_of (Some "a@b.com") (Some 5%Q) (Some 8%Z))
    (Some (snapshot_of "a@b.com" 4 5)) = 6%Z /\
  calculate_service_count (event_of (Some "a@b.com") (Some 5%Q) (Some 8%Z)) None = 8%Z /\
  calculate_service_count (event_of (Some "a@b.com") (Some 5%Q) None) None = 1%Z.
Proof.
  split; [|split].
  - apply (proj1 (service_count_rule _ (snapshot_of "a@b.com" 4 5) 5 0)). reflexivity.
  - apply (proj1 (proj2 (service_count_rule
                           (event_of (Some "a@b.com") (Some 5%Q) (Some 8%Z))
                           (snapshot_of "a@b.com" 4 5) 5 8)));
      [reflexivity | lia].
  - apply (proj1 (proj2 (proj2 (service_count_rule
                           (event_of (Some "a@b.com") (Some 5%Q) None)
                           (snapshot_of "a@b.com" 4 5) 5 8)))).
    left. reflexivity.
Defined.

(** The claim C8 as stated fails: a new customer's first event that carries
    [services_count = 8] yields a snapshot with count 8, not 1. *)
Lemma new_customer_count_can_exceed_one :
  exists fr,
    outcome (lambda_handler friendly_world
               (event_of (Some "a@b.com") (Some 5%Q) (Some 8%Z)) initial_state)
    = Ok (Success fr) /\
    features_table initial_state !! "a@b.com" = None /\
    service_count fr = Some 8%Z /\
    service_count fr <> Some 1%Z.
Proof.
  eexists. split; [vm_compute; reflexivity|].
  split; [reflexivity|]. split; [reflexivity|]. discriminate.
Qed.

(* ===================================================================== *)
(** ** Orchestrator *)
(* ===================================================================== *)

Import Orchestrator.

Lemma get_active_agent_outcome (W : world) (agent_id : string) (st : state) :
  outcome (get_active_agent W agent_id st) =
  match registry_record W st agent_id with
  | Some cfg => Ok cfg
  | None =>
      match lookup_parameter W st "/referral-system/bedrock-model-id" with
      | Some m => Ok (legacy_agent m)
      | None => Raise (ClientError "ssm")
      end
  end.
Proof.
  unfold outcome, get_active_agent, registry_record, lookup_parameter.
  unfold try_except, bind, get_parameter, bind, gets, modify, ret, raise.
  cbn [fst snd].
  destruct (parameter_cache st !! "/referral-system/agent-registry-table-name")
    as [tn|] eqn:Hc1;
  [| destruct (ssm_get_parameter W "/referral-system/agent-registry-table-name")
       as [tn|] eqn:Hs1 ];
  cbn [fst snd parameter_cache with_cache];
  rewrite ?lookup_insert_ne by discriminate;
  try (destruct (registry_query W agent_id) as [[|agent rest]|] eqn:Hq);
  cbn [fst snd parameter_cache with_cache];
  rewrite ?lookup_insert_ne by discriminate;
  try (destruct (item_version agent) as [v|] eqn:Hv);
  try (destruct (bedrockModel agent) as [m|] eqn:Hm);
  cbn [fst snd parameter_cache with_cache];
  rewrite ?lookup_insert_ne by discriminate;
  try reflexivity;
  destruct (parameter_cache st !! "/referral-system/bedrock-model-id") as [c|] eqn:Hc2;
  cbn [fst snd parameter_cache with_cache];
  rewrite ?lookup_insert_ne by discriminate; rewrite ?Hc2;
  try reflexivity;
  destruct (ssm_get_parameter W "/referral-system/bedrock-model-id") as [c|] eqn:Hs2;
  cbn [fst snd parameter_cache with_cache];
  rewrite ?lookup_insert_ne by discriminate; rewrite ?Hc2, ?Hs2;
  try reflexivity.
Qed.

(** C4.  When the registry supplies no production record for the role (the
    query raises or returns no item), [get_active_agent] does not raise as
    long as the legacy model id can be found: it returns the configuration
    with that model, version legacy, no prompt template and an empty config.
    It raises only when the legacy model id is unavailable and the registry
    supplies no usable record either. *)
Theorem agent_resolution_falls_back_to_legacy
    (W : world) (agent_id : string) (st : state) :
  let legacy := lookup_parameter W st "/referral-system/bedrock-model-id" in
  let resolved := outcome (get_active_agent W agent_id st) in
  (registry_misses W agent_id ->
     (forall m, legacy = Some m ->
        resolved = Ok {| model_id := m; version := "legacy";
                         promptTemplate := None; config := ∅ |}) /\
     (legacy = None -> exists e, resolved = Raise e)) /\
  (forall e, resolved = Raise e ->
     legacy = None /\ registry_record W st agent_id = None).
Proof.
  intros legacy resolved. unfold resolved.
  rewrite get_active_agent_outcome. fold legacy.
  split.
  - intros Hmiss.
    assert (Hrec : registry_record W st agent_id = None).
    { unfold registry_record.
      destruct (lookup_parameter W st "/referral-system/agent-registry-table-name");
        [|reflexivity].
      destruct Hmiss as [-> | ->]; reflexivity. }
    rewrite Hrec. split.
    + intros m ->. reflexivity.
    + intros ->. eauto.
  - intros e. destruct (registry_record W st agent_id); [discriminate|].
    destruct legacy; [discriminate|]. auto.
Qed.

Lemma agent_resolution_falls_back_to_legacy_witness :
  outcome (get_active_agent (world_with None None true) "upsell-generator" initial_state)
  = Ok {| model_id := "value-of-/referral-system/bedrock-model-id";
          version := "legacy"; promptTemplate := None; config := ∅ |} /\
  lookup_parameter (world_with None (Some []) false) initial_state
    "/referral-system/bedrock-model-id" = None.
Proof.
  split.
  - apply (proj1 (agent_resolution_falls_back_to_legacy
                    (world_with None None true) "upsell-generator" initial_state)).
    + left. reflexivity.
    + reflexivity.
  - apply (proj2 (agent_resolution_falls_back_to_legacy
                    (world_with None (Some []) false) "upsell-generator" initial_state)
             (ClientError "ssm")).
    reflexivity.
Defined.


(** *** Frames of the orchestrator's steps *)

Lemma get_parameter_frame (W : world) (k : string) (st : state) :
  wp (get_parameter W k)
     (fun st' r => same_but_cache st st' /\
                   (is_Some (ssm_get_parameter W k) -> exists v, r = Ok v)) st.
Proof.
  unfold get_parameter. wp_steps.
  destruct (parameter_cache st !! k) as [c|] eqn:Hc.
  - wp_steps. split; [apply same_but_cache_refl | eauto].
  - destruct (ssm_get_parameter W k) as [v|] eqn:Hv; wp_steps.
    + split; [repeat split | eauto].
    + split; [apply same_but_cache_refl|]. intros [v Hv']. discriminate.
Qed.

Lemma get_active_agent_frame (W : world) (agent_id : string) (st : state) :
  wp (get_active_agent W agent_id)
     (fun st' r =>
        same_but_cache st st' /\
        (is_Some (ssm_get_parameter W "/referral-system/bedrock-model-id") ->
         exists cfg, r = Ok cfg)) st.
Proof.
  assert (Hfallback : forall st1, same_but_cache st st1 ->
    wp (try_except
          (model_id <- get_parameter W "/referral-system/bedrock-model-id" ;;
           ret (legacy_agent model_id))
          (fun fallback_error => raise fallback_error))
       (fun st' r =>
          same_but_cache st st' /\
          (is_Some (ssm_get_parameter W "/referral-system/bedrock-model-id") ->
           exists cfg, r = Ok cfg)) st1).
  { intros st1 H1. wp_step. wp_step.
    wp_use (get_parameter_frame W "/referral-system/bedrock-model-id" st1).
    destruct H as [S2 Hok].
    pose proof (same_but_cache_trans _ _ _ H1 S2) as S3.
    destruct r as [m|e]; wp_steps.
    - split; eauto.
    - split; [exact S3|]. intros Hm. destruct (Hok Hm) as [v Hv]. discriminate. }
  unfold get_active_agent. wp_step. wp_step.
  wp_use (get_parameter_frame W "/referral-system/agent-registry-table-name" st).
  destruct H as [S1 _].
  destruct r as [tn|e]; [|apply Hfallback; exact S1].
  wp_step.
  destruct (registry_query W agent_id) as [[|agent rest]|].
  - wp_step. wp_step.
    wp_use (get_parameter_frame W "/referral-system/bedrock-model-id" st').
    destruct H as [S2 Hok].
    pose proof (same_but_cache_trans _ _ _ S1 S2) as S3.
    destruct r as [m|e].
    + wp_steps. split; eauto.
    + apply Hfallback. exact S3.
  - wp_step. wp_step.
    destruct (item_version agent) as [v|]; wp_step; [|apply Hfallback; exact S1].
    wp_step.
    destruct (bedrockModel agent) as [m|]; wp_step; [|apply Hfallback; exact S1].
    wp_steps. split; eauto.
  - wp_step. apply Hfallback. exact S1.
Qed.

Lemma get_customer_features_frame (W : world) (customer_email : string) (st : state) :
  wp (get_customer_features W customer_email)
     (fun st' r => same_but_cache st st' /\ exists f, r = Ok f) st.
Proof.
  unfold get_customer_features.
  destruct (negb (Py.truthy_str customer_email)); wp_steps.
  { split; [apply same_but_cache_refl | eauto]. }
  wp_use (get_parameter_frame W "/referral-system/customer-features-table-name" st).
  destruct H as [S1 _].
  destruct r as [tn|e]; wp_steps; [|split; eauto].
  unfold get_item. destruct (features_get_item_ok W customer_email); wp_steps.
  - destruct (features_table st' !! customer_email); wp_steps; split; eauto.
  - split; eauto.
Qed.

(** *** The generation and judgment steps *)

Lemma call_bedrock_generator_spec (L : library) (W : world)
    (model_id customer_data_str brand_guidelines : string) (retry_count : nat)
    (previous_feedback : json) (features : option customer_features) (st : state) :
  let request := generator_request L model_id customer_data_str brand_guidelines
                   retry_count previous_feedback features in
  wp (call_bedrock_generator L W model_id customer_data_str brand_guidelines
        retry_count previous_feedback features)
     (fun st' r =>
        messages_table st' = messages_table st /\
        bedrock_log st' = (bedrock_log st ++ [request])%list /\
        ((is_Some (bedrock_converse W (length (bedrock_log st)) request) /\
          (forall t, cloudwatch_put_ok W (length (metrics_log st))
                       [ {| MetricName := "GenerationTime"; Value := JNum t |} ] = true)) ->
         exists g, r = Ok g) /\
        (forall e, r = Raise e -> exists service_name, e = ClientError service_name))
     st.
Proof.
  intros request. unfold call_bedrock_generator. fold request.
  wp_step. wp_step. unfold converse. wp_steps.
  destruct (bedrock_converse W (length (bedrock_log st)) request) as [text|] eqn:Hc;
    wp_steps.
  - unfold put_metric_data. wp_steps. cbn [metrics_log with_bedrock_log].
    destruct (cloudwatch_put_ok W (length (metrics_log st)) _) eqn:Hm; wp_steps.
    + repeat split; eauto. intros e He. discriminate.
    + repeat split.
      * intros [_ Hok]. rewrite Hok in Hm. discriminate.
      * intros e He. injection He as <-. eauto.
  - repeat split.
    + intros [[x Hx] _]. discriminate.
    + intros e He. injection He as <-. eauto.
Qed.

Lemma call_bedrock_judge_spec (L : library) (W : world)
    (model_id generated_email brand_guidelines customer_data_str : string)
    (st : state) :
  let request := judge_request L (utcnow_date W (ticks st)) model_id generated_email
                   brand_guidelines customer_data_str in
  wp (call_bedrock_judge L W model_id generated_email brand_guidelines
        customer_data_str)
     (fun st' r =>
        r = Ok (judge_verdict L W st request) /\
        messages_table st' = messages_table st /\
        bedrock_log st' = (bedrock_log st ++ [request])%list)
     st.
Proof.
  intros request. unfold call_bedrock_judge. wp_steps. fold request.
  unfold converse, judge_verdict. wp_steps. cbn [bedrock_log with_ticks].
  destruct (bedrock_converse W (length (bedrock_log st)) request) as [text|] eqn:Hc;
    wp_steps; [|repeat split].
  destruct (parse_judgment L text) as [judgment|e] eqn:Hp; wp_steps; [|repeat split].
  unfold put_metric_data. wp_steps. cbn [metrics_log with_bedrock_log with_ticks].
  destruct (cloudwatch_put_ok W (length (metrics_log st)) (judge_metrics judgment));
    wp_steps; repeat split.
Qed.

Lemma failed_verdict_shape (text : string) :
  failed_verdict text !! "reason" = None /\
  failed_verdict text !! "approved" = Some (JBool false) /\
  failed_verdict text !! "score" = Some (JNum 0) /\
  failed_verdict text !! "issues" = Some (JArr [JStr "Judge evaluation failed"]) /\
  failed_verdict text !! "feedback" = Some (JStr ("Error: " ++ text)).
Proof. repeat split; reflexivity. Qed.

Lemma verdict_of_shape (judgment : gmap string json) (t : Z) :
  verdict_of judgment t !! "reason" = None /\
  verdict_of judgment t !! "approved"
  = Some (Json.get judgment "approved" (JBool false)) /\
  verdict_of judgment t !! "feedback"
  = Some (Json.get judgment "feedback" (JStr EmptyString)).
Proof. repeat split; reflexivity. Qed.

Lemma judge_verdict_shape (L : library) (W : world) (st : state)
    (request : converse_request) :
  judge_verdict L W st request !! "reason" = None /\
  is_Some (judge_verdict L W st request !! "approved") /\
  is_Some (judge_verdict L W st request !! "feedback").
Proof.
  unfold judge_verdict.
  destruct (bedrock_converse W _ request) as [text|].
  2: { repeat split; eexists; reflexivity. }
  destruct (parse_judgment L text) as [judgment|e].
  2: { repeat split; eexists; reflexivity. }
  destruct (cloudwatch_put_ok W _ _); repeat split; eexists; reflexivity.
Qed.

Lemma attempt_spec (L : library) (W : world)
    (model_id customer_data_str brand_guidelines : string)
    (features : option customer_features) (ls : loop_state) (st : state) :
  let request := generator_request L model_id customer_data_str brand_guidelines
                   (retry_count ls) (previous_feedback ls) features in
  wp (attempt L W model_id customer_data_str brand_guidelines features ls)
     (fun st' r =>
        messages_table st' = messages_table st /\
        match r with
        | Ok (fl, ls') => fl = Next /\ attempted L W ls ls' st st' request
        | Raise e =>
            ~ generator_succeeds W st request /\
            exists service_name, e = ClientError service_name
        end)
     st.
Proof.
  intros request. unfold attempt. wp_step.
  wp_use (call_bedrock_generator_spec L W model_id customer_data_str brand_guidelines
            (retry_count ls) (previous_feedback ls) features st).
  fold request in H. destruct H as (M1 & B1 & Hok & Hexn).
  destruct r as [g|e].
  2: { split; [exact M1|]. split; [|apply Hexn; reflexivity].
       intros Hs. destruct (Hok Hs) as [g Hg]. discriminate. }
  wp_step.
  wp_use (call_bedrock_judge_spec L W model_id (email_content g) brand_guidelines
            customer_data_str st').
  destruct H as (-> & M2 & B2).
  set (jreq := judge_request L (utcnow_date W (ticks st')) model_id (email_content g)
                 brand_guidelines customer_data_str) in *.
  destruct (judge_verdict_shape L W st' jreq) as (Hreason & [va Hva] & [vf Hvf]).
  set (v := judge_verdict L W st' jreq) in *.
  assert (Hlog : bedrock_log st'0 = (bedrock_log st ++ [request; jreq])%list).
  { rewrite B2, B1, <- app_assoc. reflexivity. }
  assert (Hget : Json.get v "approved" JNull = va).
  { unfold Json.get. rewrite Hva. reflexivity. }
  wp_step. unfold getitem at 1. rewrite Hva. wp_step.
  destruct (Json.truthy va) eqn:Htruthy; wp_steps.
  - split; [exact (eq_trans M2 M1)|]. split; [reflexivity|].
    exists g, v, st', jreq. cbn. rewrite Hget.
    repeat split; try assumption; try reflexivity. left. auto.
  - unfold getitem. rewrite Hvf. wp_steps.
    unfold Json.get at 1. rewrite Hreason. cbn [Json.eq_str String.eqb].
    change (String.eqb "brand" "appropriateness") with false. cbn iota.
    wp_steps.
    split; [exact (eq_trans M2 M1)|]. split; [reflexivity|].
    exists g, v, st', jreq. cbn. rewrite Hget.
    repeat split; try assumption; try reflexivity. right. auto.
Qed.

Lemma while_loop_rule (L : library) (W : world) (max_retries : nat)
    (model_id customer_data_str brand_guidelines : string)
    (features : option customer_features)
    (I : state -> loop_state -> Prop) (E : state -> exn -> Prop) :
  (forall ls st, I st ls -> retry_count ls <= max_retries -> approved ls = false ->
     wp (attempt L W model_id customer_data_str brand_guidelines features ls)
        (fun st' r =>
           match r with
           | Ok (fl, ls') =>
               fl = Next /\ I st' ls' /\
               (approved ls' = true \/ retry_count ls' = S (retry_count ls))
           | Raise e => E st' e
           end) st) ->
  forall fuel ls st,
    I st ls ->
    (approved ls = true \/ S max_retries <= fuel + retry_count ls) ->
    wp (while_loop L W fuel max_retries model_id customer_data_str brand_guidelines
          features ls)
       (fun st' r =>
          match r with
          | Ok ls' => I st' ls' /\ (approved ls' = true \/ max_retries < retry_count ls')
          | Raise e => E st' e
          end) st.
Proof.
  intros Hbody fuel.
  induction fuel as [|fuel IH]; intros ls st HI Hfuel.
  - cbn [while_loop].
    destruct (Nat.leb_spec (retry_count ls) max_retries) as [Hle|Hgt];
      destruct (approved ls) eqn:Ha; cbn [andb negb]; wp_steps;
      try (split; [exact HI|]; auto; fail).
    destruct Hfuel as [Hfuel|Hfuel]; [discriminate | lia].
  - cbn [while_loop].
    destruct (Nat.leb_spec (retry_count ls) max_retries) as [Hle|Hgt];
      destruct (approved ls) eqn:Ha; cbn [andb negb];
      try (wp_steps; split; [exact HI|]; auto; fail).
    wp_step.
    eapply wp_mono; [apply (Hbody ls st HI Hle Ha)|].
    intros st' [[fl ls']|e] H; cbn beta iota; [|exact H].
    destruct H as (-> & HI' & Hprog).
    apply IH; [exact HI'|].
    destruct Hprog as [Hp|Hp]; [left; exact Hp|].
    right. destruct Hfuel as [Hfuel|Hfuel]; [congruence | lia].
Qed.

Lemma cooperative_generator_succeeds (L : library) (W : world) (st : state)
    (model_id customer_data_str brand_guidelines : string) (retry_count : nat)
    (previous_feedback : json) (features : option customer_features) :
  cooperative W ->
  generator_succeeds W st
    (generator_request L model_id customer_data_str brand_guidelines retry_count
       previous_feedback features).
Proof.
  intros HW. split.
  - apply (generator_answers W HW). reflexivity.
  - intros t. apply (generation_metric_accepted W HW).
Qed.

Lemma while_loop_spec (L : library) (W : world) (max_retries : nat)
    (model_id customer_data_str brand_guidelines : string)
    (features : option customer_features) (st0 : state) :
  wp (while_loop L W (S max_retries) max_retries model_id customer_data_str
        brand_guidelines features loop_start)
     (fun st' r =>
        match r with
        | Ok ls' =>
            looped L W max_retries st0 st' ls' /\
            (approved ls' = true \/ max_retries < retry_count ls')
        | Raise e =>
            messages_table st' = messages_table st0 /\ ~ cooperative W /\
            e <> FuelExhausted
        end) st0.
Proof.
  apply (while_loop_rule L W max_retries model_id customer_data_str brand_guidelines
           features (looped L W max_retries st0)
           (fun st' e => messages_table st' = messages_table st0 /\ ~ cooperative W /\
                         e <> FuelExhausted)).
  - intros ls st [HM HB HA HR] Hle Hfalse.
    wp_use (attempt_spec L W model_id customer_data_str brand_guidelines features ls st).
    destruct H as [HM' H].
    destruct r as [[fl ls']|e].
    2: { destruct H as [Hfail [service_name ->]].
         split; [congruence|]. split; [|discriminate]. intros HW. apply Hfail.
         apply cooperative_generator_succeeds. exact HW. }
    destruct H as (-> & g & v & st1 & jreq & Hlog & Hmax & Hv & Hg & Hj & Hc & Hcase).
    assert (Hcount : generation_attempts st' = S (generation_attempts st)).
    { unfold generation_attempts. rewrite Hlog, filter_app, length_app.
      rewrite filter_cons_True by reflexivity.
      rewrite filter_cons_False.
      - rewrite filter_nil. cbn [length]. lia.
      - unfold is_generation. rewrite Hmax. discriminate. }
    split; [reflexivity|].
    destruct Hcase as [(Ht & Ha & Hr & Hp) | (Ht & Ha & Hr & Hp)].
    + split; [|left; exact Ha]. split.
      * congruence.
      * lia.
      * rewrite Hcount, HA, Ha, Hr, Hfalse. lia.
      * right. exists g, v, st1, jreq. repeat split; try assumption. congruence.
    + split; [|right; exact Hr]. split.
      * congruence.
      * lia.
      * rewrite Hcount, HA, Ha, Hr, Hfalse. lia.
      * right. exists g, v, st1, jreq. repeat split; try assumption. congruence.
  - split; try reflexivity.
    + cbn. lia.
    + cbn. lia.
    + left. reflexivity.
  - right. cbn. lia.
Qed.

(** The fuel [process_message] gives the loop is never used up. *)
Lemma while_loop_has_enough_fuel (L : library) (W : world) (max_retries : nat)
    (model_id customer_data_str brand_guidelines : string)
    (features : option customer_features) (st : state) :
  outcome (while_loop L W (S max_retries) max_retries model_id customer_data_str
             brand_guidelines features loop_start st)
  <> Raise FuelExhausted.
Proof.
  pose proof (while_loop_spec L W max_retries model_id customer_data_str
                brand_guidelines features st) as H.
  unfold wp in H.
  destruct (outcome _) as [ls|e]; [discriminate|].
  destruct H as (_ & _ & Hne). congruence.
Qed.

Lemma looped_rebase (L : library) (W : world) (max_retries : nat)
    (st st0 st' : state) (ls : loop_state) :
  same_but_cache st st0 ->
  looped L W max_retries st0 st' ls ->
  looped L W max_retries st st' ls.
Proof.
  intros (F & M & B & _) [HM HB HA HR]. split; try assumption.
  - congruence.
  - rewrite HA. unfold generation_attempts. rewrite B. reflexivity.
Qed.

Lemma generate_and_validate_spec (L : library) (W : world) (max_retries : nat)
    (p : payload) (st : state) :
  wp (generate_and_validate L W max_retries p)
     (fun st' r =>
        match r with
        | Ok (_, _, ls) =>
            looped L W max_retries st st' ls /\
            (approved ls = true \/ max_retries < retry_count ls)
        | Raise e => messages_table st' = messages_table st /\ ~ cooperative W
        end) st.
Proof.
  unfold generate_and_validate. wp_step.
  wp_use (get_parameter_frame W "/referral-system/s3-bucket-name" st).
  destruct H as [S1 Hok1].
  destruct r as [bucket|e].
  2: { split; [apply S1|]. intros HW.
       destruct (Hok1 (bucket_known W HW)) as [? ?]. discriminate. }
  wp_step.
  wp_use (get_parameter_frame W "/referral-system/dynamodb-table-name" st').
  destruct H as [S2 Hok2].
  pose proof (same_but_cache_trans _ _ _ S1 S2) as S12.
  destruct r as [table|e].
  2: { split; [apply S12|]. intros HW.
       destruct (Hok2 (table_known W HW)) as [? ?]. discriminate. }
  wp_step.
  wp_use (get_active_agent_frame W "upsell-generator" st'0).
  destruct H as [S3 Hok3].
  pose proof (same_but_cache_trans _ _ _ S12 S3) as S13.
  destruct r as [agent|e].
  2: { split; [apply S13|]. intros HW.
       destruct (Hok3 (model_known W HW)) as [? ?]. discriminate. }
  wp_step. unfold get_brand_guidelines.
  destruct (s3_guidelines W bucket) as [guidelines|] eqn:Hg; wp_step.
  2: { split; [apply S13|]. intros HW.
       destruct (guidelines_served W HW bucket) as [? ?]. congruence. }
  wp_step.
  wp_use (get_customer_features_frame W
            (Py.or_else (email (get_customer p)) "unknown@example.com") st'1).
  destruct H as [S4 [features ->]].
  pose proof (same_but_cache_trans _ _ _ S13 S4) as S14.
  wp_step.
  wp_use (while_loop_spec L W max_retries (model_id agent) (format_customer_data L p)
            guidelines features st'2).
  destruct r as [ls|e].
  - destruct H as [Hl Hexit]. wp_steps. split; [|exact Hexit].
    eapply looped_rebase; eassumption.
  - destruct H as (HM & HW & _). split; [|exact HW].
    destruct S14 as (_ & M & _). congruence.
Qed.

Lemma generate_email_subject_frame (W : world) (customer_name : string) (st : state) :
  wp (generate_email_subject W customer_name)
     (fun st' r =>
        (exists s, r = Ok s) /\
        messages_table st' = messages_table st /\
        bedrock_log st' = bedrock_log st) st.
Proof.
  unfold generate_email_subject. wp_steps. unfold index.
  match goal with
  | |- context [?l !! ?i] =>
      destruct (lookup_lt_is_Some_2 l i) as [s Hs];
      [cbn [length]; apply Nat.mod_upper_bound; discriminate | rewrite Hs]
  end.
  repeat split; eauto.
Qed.

Lemma looped_ran (L : library) (W : world) (max_retries : nat) (st st' : state)
    (ls : loop_state) :
  looped L W max_retries st st' ls ->
  approved ls = true \/ max_retries < retry_count ls ->
  exists g v st1 judge_req,
    generation_result ls = Some g /\
    final_judgment ls = Some v /\
    final_email_content ls = Some (email_content g) /\
    maxTokens judge_req = 500%Z /\
    v = judge_verdict L W st1 judge_req /\
    approved ls = Json.truthy (Json.get v "approved" JNull).
Proof.
  intros [_ _ _ [-> | H]] Hexit; [|exact H].
  cbn in Hexit. destruct Hexit; [discriminate | lia].
Qed.

Lemma process_message_spec (L : library) (W : world) (body : message_body)
    (st : state) :
  wp (process_message L W body)
     (fun st' r =>
        (messages_table st' = messages_table st /\
         ~ (cooperative W /\ is_Some (webhook_payload body)))
        \/
        (exists p rec ls,
           webhook_payload body = Some p /\ decided L W p st st' rec ls))
     st.
Proof.
  unfold process_message.
  destruct (webhook_payload body) as [p|] eqn:Hp.
  2: { wp_step. left. split; [reflexivity|]. intros [_ [? ?]]. discriminate. }
  wp_step.
  wp_use (generate_and_validate_spec L W MAX_RETRIES p st).
  destruct r as [[[table agent] ls]|e].
  2: { left. destruct H as [HM HW]. split; [exact HM|]. intros [HW' _]. auto. }
  destruct H as [Hl Hexit].
  destruct (looped_ran _ _ _ _ _ _ Hl Hexit)
    as (g & v & st1 & jreq & Hg & Hv & Hcontent & Hmax & Hjv & Happ).
  assert (Hreason : v !! "reason" = None).
  { rewrite Hjv. apply judge_verdict_shape. }
  wp_step.
  wp_use (generate_email_subject_frame W
            (default "Valued Customer" (first_name (get_customer p))) st').
  destruct H as ([subject ->] & M1 & B1).
  wp_steps. rewrite Hg, Hv. wp_steps.
  unfold store_in_dynamodb. wp_step.
  match goal with
  | |- context [messages_put_item_ok W ?r] =>
      set (rec := r); destruct (messages_put_item_ok W rec) eqn:Hput
  end.
  2: { wp_steps. left. split.
       - cbn. rewrite M1. apply Hl.
       - intros [HW _]. rewrite (store_accepts W HW) in Hput. discriminate. }
  wp_steps.
  assert (Hdec : forall stf,
            messages_table stf = <[messageId rec := rec]> (messages_table st'0) ->
            bedrock_log stf = bedrock_log st'0 ->
            decided L W p st stf rec ls).
  { intros stf HMf HBf.
    destruct Hl as [HM HB HA HR].
    split.
    - rewrite HMf, M1, HM. reflexivity.
    - reflexivity.
    - reflexivity.
    - unfold rec. cbn. unfold Json.get. rewrite Hreason. reflexivity.
    - reflexivity.
    - reflexivity.
    - reflexivity.
    - exists v, st1, jreq. repeat split; assumption.
    - unfold generation_attempts in *. rewrite HBf, B1. exact HA.
    - exact HB.
    - exact Hexit. }
  unfold put_metric_data. wp_steps.
  match goal with
  | |- context [cloudwatch_put_ok W ?n ?d] => destruct (cloudwatch_put_ok W n d)
  end.
  - wp_steps.
    destruct (email (get_customer p)); wp_steps;
      right; exists p, rec, ls; (split; [reflexivity|]); apply Hdec; reflexivity.
  - wp_steps. right. exists p, rec, ls. split; [reflexivity|].
    apply Hdec; reflexivity.
Qed.

Lemma world_with_cooperative judge registry :
  cooperative (world_with judge registry true).
Proof.
  split.
  - eexists. reflexivity.
  - eexists. reflexivity.
  - eexists. reflexivity.
  - intros b. eexists. reflexivity.
  - intros n r Hr. cbn. rewrite Hr. eexists. reflexivity.
  - intros n t. reflexivity.
  - intros r. reflexivity.
Qed.

Lemma decided_persisted L W p st st' rec ls :
  decided L W p st st' rec ls ->
  messages_table st' !! messageId rec = Some rec.
Proof. intros H. rewrite (decided_stored _ _ _ _ _ _ _ H). apply lookup_insert_eq. Qed.

Lemma process_message_cooperative (L : library) (W : world) (body : message_body)
    (p : payload) (st : state) :
  cooperative W ->
  webhook_payload body = Some p ->
  wp (process_message L W body)
     (fun st' r => exists rec ls, decided L W p st st' rec ls) st.
Proof.
  intros HW Hp.
  wp_use (process_message_spec L W body st).
  destruct H as [[_ Hno] | (p' & rec & ls & Hp' & Hd)].
  - exfalso. apply Hno. split; [exact HW|]. rewrite Hp. eauto.
  - rewrite Hp in Hp'. injection Hp' as <-. eauto.
Qed.

Lemma judge_verdict_never_approves (L : library) (W : world) (st : state)
    (request : converse_request) :
  judge_never_approves L W ->
  maxTokens request = 500%Z ->
  Json.truthy (Json.get (judge_verdict L W st request) "approved" JNull) = false.
Proof.
  intros Hrej Hmax. unfold judge_verdict.
  destruct (bedrock_converse W _ request) as [text|] eqn:Hc; [|reflexivity].
  destruct (parse_judgment L text) as [judgment|e] eqn:Hp; [|reflexivity].
  destruct (cloudwatch_put_ok W _ _); [|reflexivity].
  unfold Json.get at 1. rewrite (proj1 (proj2 (verdict_of_shape judgment _))).
  exact (Hrej _ _ _ _ Hmax Hc Hp).
Qed.

Lemma rejecting_judge_never_approves (reason : string) (L : library) (W : world) :
  judge_rejects_with reason L W -> judge_never_approves L W.
Proof.
  intros H n r text judgment Hmax Hc Hp.
  destruct (H n r text judgment Hmax Hc Hp) as [Ha _].
  unfold Json.get. rewrite Ha. reflexivity.
Qed.

Lemma always_rejecting_judge_never_approves (L : library) (W : world) :
  judge_always_rejects L W -> judge_never_approves L W.
Proof.
  intros H n r text judgment Hmax Hc Hp.
  destruct (H n r text judgment Hmax Hc Hp) as [Ha _].
  unfold Json.get. rewrite Ha. reflexivity.
Qed.

(** Whatever the reason, a judge that never approves makes the loop use
    every attempt: three generations, then a rejected record. *)
Lemma every_rejection_is_retried (L : library) (W : world)
    (body : message_body) (p : payload) (st : state) :
  cooperative W ->
  judge_never_approves L W ->
  webhook_payload body = Some p ->
  wp (process_message L W body)
     (fun st' _ =>
        generation_attempts st' = (generation_attempts st + (MAX_RETRIES + 1))%nat /\
        exists rec,
          messages_table st' !! messageId rec = Some rec /\
          customerData rec = p /\
          status rec = "rejected" /\
          retryCount rec = S MAX_RETRIES /\
          rejectionReason rec = JStr "N/A")
     st.
Proof.
  intros HW Hrej Hp.
  wp_use (process_message_cooperative L W body p st HW Hp).
  destruct H as (rec & ls & Hd).
  pose proof (decided_persisted _ _ _ _ _ _ _ Hd) as Hstored.
  destruct Hd as [_ Hstatus Hretries Hreason _ _ Hpayload Hv Hatt Hbound Hexit].
  destruct Hv as (v & st1 & jreq & _ & Hmax & -> & Happ & _).
  rewrite (judge_verdict_never_approves L W st1 jreq Hrej Hmax) in Happ.
  rewrite Happ in *.
  destruct Hexit as [Hexit|Hexit]; [discriminate|].
  assert (Hr : retry_count ls = S MAX_RETRIES) by lia.
  split; [rewrite Hatt, Hr; lia|].
  exists rec. rewrite Hretries, Hr. auto.
Qed.

(** C2.  In a world whose other collaborators answer, when every verdict the
    judge delivers is a rejection with reason brand or service_validity,
    [process_message] makes exactly MAX_RETRIES + 1 = 3 generation attempts
    and writes a record whose status is rejected. *)
Theorem rejections_exhaust_the_retry_budget (L : library) (W : world)
    (body : message_body) (p : payload) (st : state) :
  cooperative W ->
  judge_always_rejects L W ->
  webhook_payload body = Some p ->
  wp (process_message L W body)
     (fun st' _ =>
        generation_attempts st' = (generation_attempts st + (MAX_RETRIES + 1))%nat /\
        (MAX_RETRIES + 1 = 3)%nat /\
        exists rec,
          messages_table st' !! messageId rec = Some rec /\
          customerData rec = p /\
          status rec = "rejected")
     st.
Proof.
  intros HW Hrej Hp.
  wp_use (every_rejection_is_retried L W body p st HW
            (always_rejecting_judge_never_approves L W Hrej) Hp).
  destruct H as (Hatt & rec & Hstored & Hpayload & Hstatus & _).
  split; [exact Hatt|]. split; [reflexivity|]. eauto.
Qed.

Lemma parse_brand_text :
  parse_judgment sample_library (fenced brand_text) = Ok brand_judgment.
Proof. vm_compute. reflexivity. Qed.

Lemma brand_rejections_always : 
  judge_always_rejects sample_library (world_with (Some (fenced brand_text)) (Some []) true).
Proof.
  intros n r text judgment Hmax Hc Hp.
  cbn in Hc. rewrite Hmax in Hc. cbn in Hc. injection Hc as <-.
  rewrite parse_brand_text in Hp. injection Hp as <-.
  split; [reflexivity | left; reflexivity].
Qed.

Lemma rejections_exhaust_the_retry_budget_witness :
  wp (process_message sample_library
        (world_with (Some (fenced brand_text)) (Some []) true)
        (sample_body (event_of (Some "a@b.com") (Some 5%Q) None)))
     (fun st' _ =>
        generation_attempts st' = (generation_attempts initial_state + (MAX_RETRIES + 1))%nat /\
        (MAX_RETRIES + 1 = 3)%nat /\
        exists rec,
          messages_table st' !! messageId rec = Some rec /\
          customerData rec = event_of (Some "a@b.com") (Some 5%Q) None /\
          status rec = "rejected")
     initial_state.
Proof.
  apply rejections_exhaust_the_retry_budget.
  - apply world_with_cooperative.
  - apply brand_rejections_always.
  - reflexivity.
Defined.

Lemma judge_failure_verdict (L : library) (W : world) (st : state)
    (request : converse_request) :
  (bedrock_converse W (length (bedrock_log st)) request = None \/
   exists text e, bedrock_converse W (length (bedrock_log st)) request = Some text /\
                  parse_judgment L text = Raise e) ->
  exists what, judge_verdict L W st request = failed_verdict what.
Proof.
  unfold judge_verdict. intros [-> | (text & e & -> & ->)]; eauto.
Qed.

(** C3.  [call_bedrock_judge] never raises.  When the inference call fails
    or its answer does not parse, the verdict it returns has approved false,
    score 0, the issue "Judge evaluation failed" and a feedback text that
    describes the error.  In a world whose other collaborators answer,
    [process_message] then still writes a decision record for the event, and
    when the judge fails on every attempt that record is a rejection with
    judge score 0. *)
Theorem judgment_fails_closed (L : library) (W : world)
    (model_id generated_email brand_guidelines customer_data_str : string)
    (body : message_body) (p : payload) (st : state) :
  let request := judge_request L (utcnow_date W (ticks st)) model_id generated_email
                   brand_guidelines customer_data_str in
  wp (call_bedrock_judge L W model_id generated_email brand_guidelines
        customer_data_str)
     (fun _ r =>
        exists v, r = Ok v /\
          ((bedrock_converse W (length (bedrock_log st)) request = None \/
            exists text e,
              bedrock_converse W (length (bedrock_log st)) request = Some text /\
              parse_judgment L text = Raise e) ->
           v !! "approved" = Some (JBool false) /\
           v !! "score" = Some (JNum 0) /\
           v !! "issues" = Some (JArr [JStr "Judge evaluation failed"]) /\
           exists what, v !! "feedback" = Some (JStr ("Error: " ++ what))))
     st /\
  (cooperative W ->
   webhook_payload body = Some p ->
   wp (process_message L W body)
      (fun st' _ =>
         exists rec,
           messages_table st' !! messageId rec = Some rec /\
           customerData rec = p /\
           (judge_always_fails L W ->
              status rec = "rejected" /\
              judgeApproved rec = JBool false /\
              llmJudgeScore rec = JNum 0))
      st).
Proof.
  intros request. split.
  - wp_use (call_bedrock_judge_spec L W model_id generated_email brand_guidelines
              customer_data_str st).
    destruct H as (-> & _ & _). exists (judge_verdict L W st request).
    split; [reflexivity|].
    intros Hfail. destruct (judge_failure_verdict L W st request Hfail) as [what Hw].
    rewrite Hw.
    destruct (failed_verdict_shape what) as (_ & Ha & Hs & Hi & Hf). eauto 6.
  - intros HW Hp.
    wp_use (process_message_cooperative L W body p st HW Hp).
    destruct H as (rec & ls & Hd).
    exists rec. split; [eapply decided_persisted; exact Hd|].
    destruct Hd as [_ Hstatus _ _ _ _ Hpayload Hv _ _ _].
    split; [exact Hpayload|]. intros Hfail.
    destruct Hv as (v & st1 & jreq & _ & Hmax & -> & Happ & HjA & HjS & _).
    destruct (judge_failure_verdict L W st1 jreq (Hfail _ _ Hmax)) as [what Hw].
    rewrite Hw in *.
    change (Json.truthy _) with false in Happ. rewrite Happ in Hstatus.
    repeat split; assumption.
Qed.

Lemma judge_down_always_fails (L : library) (registry : option (list agent_item)) :
  judge_always_fails L (world_with None registry true).
Proof. intros n r Hmax. left. cbn. rewrite Hmax. reflexivity. Qed.

Lemma judgment_fails_closed_witness :
  (exists v,
     outcome (call_bedrock_judge sample_library (world_with None (Some []) true)
                "m" "text" "guidelines" "{}" initial_state) = Ok v /\
     v !! "approved" = Some (JBool false) /\
     v !! "score" = Some (JNum 0)) /\
  exists rec,
    messages_table
      (final_state (process_message sample_library (world_with None (Some []) true)
                      (sample_body (event_of (Some "a@b.com") (Some 5%Q) None))
                      initial_state))
      !! messageId rec = Some rec /\
    status rec = "rejected" /\
    judgeApproved rec = JBool false /\
    llmJudgeScore rec = JNum 0.
Proof.
  destruct (judgment_fails_closed sample_library (world_with None (Some []) true)
              "m" "text" "guidelines" "{}"
              (sample_body (event_of (Some "a@b.com") (Some 5%Q) None))
              (event_of (Some "a@b.com") (Some 5%Q) None) initial_state)
    as [Hjudge Hpipeline].
  split.
  - destruct Hjudge as (v & Hv & Hfail). exists v. split; [exact Hv|].
    destruct (Hfail (or_introl eq_refl)) as (Ha & Hs & _). auto.
  - destruct (Hpipeline (world_with_cooperative None (Some [])) eq_refl)
      as (rec & Hstored & _ & Hfail).
    exists rec. split; [exact Hstored|].
    apply Hfail. apply judge_down_always_fails.
Defined.

Lemma append_assoc (a b c : string) : (a ++ b) ++ c = a ++ b ++ c.
Proof.
  induction a as [|x a IH]; [reflexivity|].
  change (String x ((a ++ b) ++ c) = String x (a ++ b ++ c)). rewrite IH. reflexivity.
Qed.

(** C7 (amended).  The feature enricher rejects an event whose customer has
    no email with a ValueError and leaves the state untouched, so its handler
    answers with that error and writes nothing.  The orchestrator does not
    validate the identity: in a world whose collaborators answer, an event
    with neither email nor id is generated for, judged, and recorded under
    the default identity unknown@example.com. *)
Theorem identity_is_checked_by_the_enricher_only (L : library) (W : world)
    (ev : payload) (body : message_body) (st : state) :
  (Py.truthy_opt (email (get_customer ev)) = false ->
     FeatureEnricher.enrich_customer_features W ev st
     = (st, Raise (ValueError "Customer email is required")) /\
     FeatureEnricher.lambda_handler W ev st
     = (st, Ok (FeatureEnricher.Failure (ValueError "Customer email is required")))) /\
  (cooperative W ->
   webhook_payload body = Some ev ->
   Py.truthy_opt (email (get_customer ev)) = false ->
   Py.truthy_opt (id (get_customer ev)) = false ->
   wp (process_message L W body)
      (fun st' _ =>
         exists rec,
           messages_table st' !! messageId rec = Some rec /\
           customerData rec = ev /\
           r_customerEmail rec = "unknown@example.com" /\
           generation_attempts st < generation_attempts st')
      st).
Proof.
  split.
  - apply enricher_rejects_missing_email.
  - intros HW Hp Hmail Hid.
    wp_use (process_message_cooperative L W body ev st HW Hp).
    destruct H as (rec & ls & Hd).
    exists rec. split; [eapply decided_persisted; exact Hd|].
    destruct Hd as [_ _ _ _ Hident _ Hpayload _ Hatt _ Hexit].
    split; [exact Hpayload|]. split.
    + rewrite Hident. unfold recorded_identity. rewrite Hmail.
      unfold Py.truthy_opt in Hid. unfold Py.or_else.
      destruct (id (get_customer ev)) as [i|]; [rewrite Hid|]; reflexivity.
    + rewrite Hatt. destruct Hexit as [-> | Hgt]; [lia|].
      unfold MAX_RETRIES in Hgt. lia.
Qed.

Lemma identity_is_checked_by_the_enricher_only_witness :
  FeatureEnricher.lambda_handler friendly_world anonymous_event initial_state
  = (initial_state,
     Ok (FeatureEnricher.Failure (ValueError "Customer email is required"))) /\
  exists rec,
    messages_table
      (final_state (process_message sample_library
                      (world_with (Some (fenced brand_text)) (Some []) true)
                      (sample_body anonymous_event) initial_state))
      !! messageId rec = Some rec /\
    r_customerEmail rec = "unknown@example.com".
Proof.
  destruct (identity_is_checked_by_the_enricher_only sample_library
              (world_with (Some (fenced brand_text)) (Some []) true)
              anonymous_event (sample_body anonymous_event) initial_state)
    as [Henrich Horch].
  destruct (identity_is_checked_by_the_enricher_only sample_library
              friendly_world anonymous_event (sample_body anonymous_event)
              initial_state)
    as [Hfriendly _].
  split.
  - apply (proj2 (Hfriendly eq_refl)).
  - destruct (Horch (world_with_cooperative _ _) eq_refl eq_refl eq_refl)
      as (rec & Hstored & _ & Hident & _).
    exists rec. auto.
Defined.

(** The claim C7 as stated fails: for an event with neither email nor id
    the orchestrator calls the generator three times and writes a record
    under unknown@example.com; no validation error is raised. *)
Lemma anonymous_event_is_decided_under_default_identity :
  let run := process_message sample_library
               (world_with (Some (fenced brand_text)) (Some []) true)
               (sample_body anonymous_event) initial_state in
  email (get_customer anonymous_event) = None /\
  id (get_customer anonymous_event) = None /\
  generation_attempts (final_state run) = 3%nat /\
  (exists rec,
     messages_table (final_state run) !! "0b5e3c1e-7d1f-4a8e-9d55-2f6f3f1f0a11"
     = Some rec /\
     r_customerEmail rec = "unknown@example.com" /\
     status rec = "rejected") /\
  forall msg, outcome run <> Raise (ValueError msg).
Proof.
  cbv zeta. split; [reflexivity|]. split; [reflexivity|].
  split; [vm_compute; reflexivity|].
  split.
  - eexists. split; [vm_compute; reflexivity|]. split; reflexivity.
  - intros msg H. vm_compute in H. discriminate H.
Qed.

(** C9 (amended).  On a retry (attempt index above 0) whose carried feedback
    is non-empty, the generator prompt embeds the corrective note built from
    that feedback; when the carried feedback is empty or missing the note is
    left out.  Every retry is sampled at temperature 0.8, the first attempt
    at 0.7.  A pass of the loop body sends the generator request built from
    the current attempt index and carried feedback, and after a rejection
    the attempt index is one higher and the carried feedback is the feedback
    of that rejected verdict. *)
Theorem retry_request_carries_nonempty_feedback (L : library) (W : world)
    (model_id customer_data_str brand_guidelines : string)
    (features : option customer_features) (n : nat) (feedback : json)
    (ls : loop_state) (st : state) :
  ((0 < n)%nat -> Json.truthy feedback = true ->
     exists before after,
       prompt (generator_request L model_id customer_data_str brand_guidelines n
                 feedback features)
       = before ++ feedback_text (str L feedback) ++ after) /\
  ((0 < n)%nat ->
     temperature (generator_request L model_id customer_data_str brand_guidelines n
                    feedback features) = 8 # 10 /\
     temperature (generator_request L model_id customer_data_str brand_guidelines 0
                    feedback features) = 7 # 10 /\
     (7 # 10 < 8 # 10)%Q) /\
  (Json.truthy feedback = false ->
     feedback_note L n feedback = EmptyString) /\
  wp (attempt L W model_id customer_data_str brand_guidelines features ls)
     (fun st' r =>
        match r with
        | Ok (_, ls') =>
            bedrock_log st' !! length (bedrock_log st)
            = Some (generator_request L model_id customer_data_str brand_guidelines
                      (retry_count ls) (previous_feedback ls) features) /\
            (approved ls' = true \/
             (retry_count ls' = S (retry_count ls) /\
              exists v, final_judgment ls' = Some v /\
                        v !! "feedback" = Some (previous_feedback ls')))
        | Raise _ => True
        end) st.
Proof.
  split; [|split; [|split]].
  - intros Hn Hf.
    exists (generator_head ++ customer_data_str ++ generator_catalog ++ brand_guidelines
            ++ format_customer_features L features ++ generator_task),
           generator_tail.
    cbn [generator_request prompt]. unfold generator_prompt, feedback_note.
    destruct (Nat.ltb_spec 0 n) as [_|Hle]; [|lia]. rewrite Hf. cbn [andb].
    rewrite !append_assoc. reflexivity.
  - intros Hn. cbn [generator_request temperature]. unfold generator_temperature.
    destruct n as [|n]; [lia|]. repeat split.
  - intros Hf. unfold feedback_note. rewrite Hf, andb_false_r. reflexivity.
  - wp_use (attempt_spec L W model_id customer_data_str brand_guidelines features ls st).
    destruct H as [_ H]. destruct r as [[fl ls']|e]; [|exact I].
    destruct H as (_ & g & v & st1 & jreq & Hlog & _ & _ & _ & Hj & _ & Hcase).
    split.
    + rewrite Hlog. rewrite lookup_app_r by lia. rewrite Nat.sub_diag. reflexivity.
    + destruct Hcase as [(_ & Ha & _) | (_ & _ & Hr & Hfb)]; [left; exact Ha|].
      right. split; [exact Hr|]. eauto.
Qed.

Lemma retry_request_carries_nonempty_feedback_witness :
  (exists before after,
     prompt (generator_request sample_library "m" "{}" "guidelines" 1
               (JStr "Soften the tone") None)
     = before ++ feedback_text "Soften the tone" ++ after) /\
  temperature (generator_request sample_library "m" "{}" "guidelines" 1
                 (JStr "Soften the tone") None) = 8 # 10 /\
  feedback_note sample_library 1 (JStr EmptyString) = EmptyString.
Proof.
  destruct (retry_request_carries_nonempty_feedback sample_library friendly_world
              "m" "{}" "guidelines" None 1 (JStr "Soften the tone")
              loop_start initial_state) as (Hprompt & Htemp & _ & _).
  destruct (retry_request_carries_nonempty_feedback sample_library friendly_world
              "m" "{}" "guidelines" None 1 (JStr EmptyString)
              loop_start initial_state) as (_ & _ & Hnote & _).
  split; [|split].
  - apply Hprompt; [lia | reflexivity].
  - apply Htemp. lia.
  - apply Hnote. reflexivity.
Defined.

(** The claim C9 as stated fails: when the judge rejects without feedback,
    the retry request is sampled at 0.8 but its prompt is the prompt of the
    first attempt, with no corrective instruction. *)
Lemma retry_after_empty_feedback_has_no_corrective_note :
  let run := process_message sample_library
               (world_with (Some bare_rejection_text) (Some []) true)
               (sample_body (event_of (Some "a@b.com") (Some 5%Q) None))
               initial_state in
  exists first judged retry,
    bedrock_log (final_state run) !! 0%nat = Some first /\
    bedrock_log (final_state run) !! 1%nat = Some judged /\
    bedrock_log (final_state run) !! 2%nat = Some retry /\
    is_generation first = true /\
    is_generation judged = false /\
    is_generation retry = true /\
    temperature retry = 8 # 10 /\
    prompt retry = prompt first /\
    Py.contains "Previous attempt was rejected" (prompt retry) = false.
Proof.
  cbv zeta. eexists _, _, _.
  split; [vm_compute; reflexivity|].
  split; [vm_compute; reflexivity|].
  split; [vm_compute; reflexivity|].
  repeat split; vm_compute; reflexivity.
Qed.

(** C10.  The verdict built from a parsed answer has no reason key,
    whatever the answer contains, and neither has any verdict
    [call_bedrock_judge] returns.  So a pass of the loop body never breaks
    out: the reason it reads is the default brand.  And whenever
    [process_message] writes a record, its rejectionReason is N/A. *)
Theorem verdict_never_carries_a_reason (L : library) (W : world)
    (model_id generated_email brand_guidelines customer_data_str : string)
    (features : option customer_features) (ls : loop_state)
    (body : message_body) (judgment : gmap string json) (t : Z) (st : state) :
  verdict_of judgment t !! "reason" = None /\
  wp (call_bedrock_judge L W model_id generated_email brand_guidelines
        customer_data_str)
     (fun _ r => exists v, r = Ok v /\ v !! "reason" = None) st /\
  wp (attempt L W model_id customer_data_str brand_guidelines features ls)
     (fun _ r =>
        match r with
        | Ok (fl, ls') =>
            fl = Next /\
            exists v, final_judgment ls' = Some v /\
                      Json.get v "reason" (JStr "brand") = JStr "brand"
        | Raise _ => True
        end) st /\
  wp (process_message L W body)
     (fun st' _ =>
        messages_table st' = messages_table st \/
        exists rec,
          messages_table st' = <[messageId rec := rec]> (messages_table st) /\
          rejectionReason rec = JStr "N/A")
     st.
Proof.
  split; [apply verdict_of_shape|]. split; [|split].
  - wp_use (call_bedrock_judge_spec L W model_id generated_email brand_guidelines
              customer_data_str st).
    destruct H as (-> & _). eexists. split; [reflexivity|].
    apply judge_verdict_shape.
  - wp_use (attempt_spec L W model_id customer_data_str brand_guidelines features ls st).
    destruct H as [_ H]. destruct r as [[fl ls']|e]; [|exact I].
    destruct H as (-> & g & v & st1 & jreq & _ & _ & -> & _ & Hj & _).
    split; [reflexivity|]. eexists. split; [exact Hj|].
    unfold Json.get. rewrite (proj1 (judge_verdict_shape L W st1 jreq)). reflexivity.
  - wp_use (process_message_spec L W body st).
    destruct H as [[HM _] | (p & rec & ls' & _ & Hd)]; [left; exact HM|].
    right. exists rec. split; [apply Hd | apply Hd].
Qed.

Lemma parse_appropriateness_text :
  parse_judgment sample_library (fenced appropriateness_text)
  = Ok appropriateness_judgment.
Proof. vm_compute. reflexivity. Qed.

Lemma appropriateness_rejections_always :
  judge_rejects_with "appropriateness" sample_library
    (world_with (Some (fenced appropriateness_text)) (Some []) true).
Proof.
  intros n r text judgment Hmax Hc Hp.
  cbn in Hc. rewrite Hmax in Hc. cbn in Hc. injection Hc as <-.
  rewrite parse_appropriateness_text in Hp. injection Hp as <-.
  split; reflexivity.
Qed.

(** C1 (what the code does instead).  In a world whose other collaborators
    answer, when every verdict of the judge is a rejection whose reason is
    appropriateness, [process_message] still makes MAX_RETRIES + 1 = 3
    generation attempts, and the record it writes has retryCount 3 and
    rejectionReason N/A: the reason never reaches the retry loop. *)
Theorem appropriateness_rejection_is_retried (L : library) (W : world)
    (body : message_body) (p : payload) (st : state) :
  cooperative W ->
  judge_rejects_with "appropriateness" L W ->
  webhook_payload body = Some p ->
  wp (process_message L W body)
     (fun st' _ =>
        generation_attempts st' = (generation_attempts st + 3)%nat /\
        exists rec,
          messages_table st' !! messageId rec = Some rec /\
          customerData rec = p /\
          status rec = "rejected" /\
          retryCount rec = 3%nat /\
          rejectionReason rec = JStr "N/A")
     st.
Proof.
  intros HW Hrej Hp.
  exact (every_rejection_is_retried L W body p st HW
           (rejecting_judge_never_approves _ L W Hrej) Hp).
Qed.

Lemma appropriateness_rejection_is_retried_witness :
  let run := process_message sample_library
               (world_with (Some (fenced appropriateness_text)) (Some []) true)
               (sample_body (event_of (Some "a@b.com") (Some 5%Q) None))
               initial_state in
  appropriateness_judgment !! "reason" = Some (JStr "appropriateness") /\
  generation_attempts (final_state run) = 3%nat /\
  exists rec,
    messages_table (final_state run) !! messageId rec = Some rec /\
    status rec = "rejected" /\
    retryCount rec = 3%nat /\
    rejectionReason rec = JStr "N/A".
Proof.
  cbv zeta. split; [reflexivity|].
  destruct (appropriateness_rejection_is_retried sample_library
              (world_with (Some (fenced appropriateness_text)) (Some []) true)
              (sample_body (event_of (Some "a@b.com") (Some 5%Q) None))
              (event_of (Some "a@b.com") (Some 5%Q) None) initial_state
              (world_with_cooperative _ _) appropriateness_rejections_always eq_refl)
    as (Hatt & rec & Hstored & _ & Hstatus & Hretries & Hreason).
  split; [exact Hatt|]. exists rec. auto.
Defined.

(* ===================================================================== *)
(** ** Further properties of the feature enricher *)
(* ===================================================================== *)

Lemma same_tables_of_cache st st' : same_but_cache st st' -> same_tables st st'.
Proof. intros (F & M & B & _). repeat split; assumption. Qed.

Lemma enrich_customer_features_effect (W : world) (ev : payload) (st : state) :
  wp (enrich_customer_features W ev)
     (fun st' r =>
        same_tables st st' /\
        match r with
        | Ok fr => computed W ev st fr
        | Raise _ => True
        end /\
        (is_Some (ssm_get_parameter W "/referral-system/customer-features-table-name") ->
         forall e, email (get_customer ev) = Some e -> Py.truthy_str e = true ->
           match calculate_satisfaction_avg ev (snapshot_read W st e) with
           | Ok _ => exists fr, r = Ok fr
           | Raise ex => r = Raise ex
           end)) st.
Proof.
  unfold enrich_customer_features.
  destruct (Py.truthy_opt (email (get_customer ev))) eqn:Hmail; cbn [negb].
  2: { wp_steps. repeat split. intros _ e He Ht. rewrite He in Hmail.
       cbn in Hmail. congruence. }
  destruct (email (get_customer ev)) as [e|] eqn:He; [|discriminate].
  cbn [Py.truthy_opt] in Hmail. change (default EmptyString (Some e)) with e.
  wp_step.
  wp_use (get_parameter_frame W "/referral-system/customer-features-table-name" st).
  destruct H as [(F1 & M1 & B1 & C1 & T1 & D1) Hok].
  destruct r as [tn|ex].
  2: { repeat split; try assumption. intros Hn. destruct (Hok Hn). discriminate. }
  wp_step.
  assert (Hread : wp (try_except (get_item W e) (fun _ => ret None))
            (fun stx r => stx = st' /\ r = Ok (snapshot_read W st e)) st').
  { wp_step. unfold get_item, snapshot_read.
    destruct (features_get_item_ok W e); wp_steps; rewrite ?F1; auto. }
  eapply wp_mono; [exact Hread|]. cbn beta. intros stx r [-> ->].
  wp_step. wp_step.
  destruct (calculate_satisfaction_avg ev (snapshot_read W st e)) as [a|ex] eqn:Ha.
  2: { repeat split; try assumption. intros _ e' He' _. injection He' as <-.
       rewrite Ha. reflexivity. }
  wp_step. wp_step.
  destruct (get_lifetime_value_defined ev _ a Ha) as [t Ht]. rewrite Ht.
  wp_step. unfold now_iso. wp_step. wp_step. wp_step. wp_step. wp_step. wp_step.
  assert (Hclause : forall fr : features,
            is_Some (ssm_get_parameter W "/referral-system/customer-features-table-name") ->
            forall e0, Some e = Some e0 -> Py.truthy_str e0 = true ->
              match calculate_satisfaction_avg ev (snapshot_read W st e0) with
              | Ok _ => exists fr0, Ok fr = Ok fr0
              | Raise ex => Ok fr = Raise ex
              end).
  { intros fr _ e0 He0 _. injection He0 as <-. rewrite Ha. eauto. }
  destruct (snapshot_read W st e) as [f|] eqn:Hex.
  - wp_steps. split; [repeat split; assumption|]. split; [|apply Hclause].
    split; cbn; try assumption; try reflexivity; rewrite ?Hex; eauto.
    cbn. rewrite T1. reflexivity.
  - wp_steps. split; [repeat split; assumption|]. split; [|apply Hclause].
    split; cbn; try assumption; try reflexivity; rewrite ?Hex; eauto.
    cbn. rewrite T1. reflexivity.
Qed.

Lemma lambda_handler_effect (W : world) (ev : payload) (st : state) :
  wp (FeatureEnricher.lambda_handler W ev)
     (fun st' r =>
        messages_table st' = messages_table st /\
        bedrock_log st' = bedrock_log st /\
        exists resp, r = Ok resp /\
          match resp with
          | Failure e => features_table st' = features_table st
          | Success fr => enriched W ev st st' fr
          end /\
          (is_Some (ssm_get_parameter W "/referral-system/customer-features-table-name") ->
           forall e, email (get_customer ev) = Some e -> Py.truthy_str e = true ->
             match calculate_satisfaction_avg ev (snapshot_read W st e) with
             | Ok _ =>
                 (forall f, features_put_item_ok W f = true) ->
                 exists fr, resp = Success fr
             | Raise ex => resp = Failure ex
             end)) st.
Proof.
  unfold FeatureEnricher.lambda_handler. wp_step. wp_step.
  wp_use (enrich_customer_features_effect W ev st).
  destruct H as ((F1 & M1 & B1) & Hc & Hclause).
  destruct r as [fr|ex].
  2: { wp_steps. repeat split; try assumption. eexists. split; [reflexivity|].
       split; [exact F1|]. intros Hn e He Ht. specialize (Hclause Hn e He Ht).
       destruct (calculate_satisfaction_avg ev (snapshot_read W st e)).
       - destruct Hclause. discriminate.
       - congruence. }
  assert (Hclause' : is_Some (ssm_get_parameter W
                        "/referral-system/customer-features-table-name") ->
            forall e, email (get_customer ev) = Some e -> Py.truthy_str e = true ->
            exists a, calculate_satisfaction_avg ev (snapshot_read W st e) = Ok a).
  { intros Hn e He Ht. specialize (Hclause Hn e He Ht).
    destruct (calculate_satisfaction_avg ev (snapshot_read W st e)); [eauto|discriminate]. }
  wp_step. unfold update_feature_store. wp_step.
  wp_use (get_parameter_frame W "/referral-system/customer-features-table-name" st').
  destruct H as [(F2 & M2 & B2 & _) Hok].
  destruct r as [tn2|ex].
  2: { wp_steps. repeat split; try congruence. eexists. split; [reflexivity|].
       split; [congruence|]. intros Hn. destruct (Hok Hn). discriminate. }
  destruct (features_put_item_ok W fr) eqn:Hput; wp_steps.
  2: { repeat split; try congruence. eexists. split; [reflexivity|].
       split; [congruence|]. intros Hn e He Ht.
       destruct (Hclause' Hn e He Ht) as [a ->]. intros Hall.
       rewrite Hall in Hput. discriminate. }
  cbn. repeat split; try congruence.
  eexists. split; [reflexivity|]. split.
  - split; [exact Hc | exact Hput |]. cbn. rewrite F2, F1. reflexivity.
  - intros Hn e He Ht. destruct (Hclause' Hn e He Ht) as [a ->]. eauto.
Qed.

Lemma round_half_even_between (q : Q) (lo hi : Z) :
  (inject_Z lo <= q)%Q -> (q <= inject_Z hi)%Q ->
  (lo <= Py.round_half_even q <= hi)%Z.
Proof.
  intros Hlo Hhi. unfold Py.round_half_even.
  pose proof (Qfloor_le q) as Hf. pose proof (Qlt_floor q) as Hc.
  assert (Hlo' : (lo <= Qfloor q)%Z).
  { rewrite <- (Qfloor_Z lo). apply Qfloor_resp_le. exact Hlo. }
  assert (Hhi' : (Qfloor q <= hi)%Z).
  { rewrite <- (Qfloor_Z hi). apply Qfloor_resp_le. exact Hhi. }
  assert (Hstrict : (inject_Z (Qfloor q) < q)%Q -> (Qfloor q + 1 <= hi)%Z).
  { intros Hlt. assert (Qfloor q < hi)%Z; [|lia].
    rewrite Zlt_Qlt. eapply Qlt_le_trans; eassumption. }
  destruct (q - inject_Z (Qfloor q) ?= 1 # 2)%Q eqn:E.
  - apply Qeq_alt in E. destruct (Z.even (Qfloor q)); [lia|].
    split; [lia|]. apply Hstrict. lra.
  - lia.
  - apply Qgt_alt in E. split; [lia|]. apply Hstrict. lra.
Qed.

Lemma round2_on_scale (q : Q) : on_scale q -> on_scale (Py.round2 q).
Proof.
  intros [Hlo Hhi]. unfold Py.round2.
  destruct (round_half_even_between (q * 100) 0 500) as [H0 H5].
  - change (inject_Z 0) with 0%Q. lra.
  - change (inject_Z 500) with 500%Q. lra.
  - rewrite Zle_Qle in H0, H5.
    change (inject_Z 0) with 0%Q in H0. change (inject_Z 500) with 500%Q in H5.
    set (r := inject_Z (Py.round_half_even (q * 100))) in *.
    assert (E : (r / 100 == r * (1 # 100))%Q) by field.
    split; rewrite E; lra.
Qed.

Lemma calculate_satisfaction_avg_on_scale (ev : payload) (ex : option features)
    (a' : Q) :
  (forall s, current_score_of ev = Some s -> on_scale s) ->
  (forall f a, ex = Some f -> satisfaction_avg f = Some a -> on_scale a) ->
  (forall f k, ex = Some f -> service_count f = Some k -> (0 <= k)%Z) ->
  calculate_satisfaction_avg ev ex = Ok a' ->
  on_scale a'.
Proof.
  intros Hscore Havg Hcount. unfold calculate_satisfaction_avg.
  destruct (current_score_of ev) as [s|] eqn:Hs.
  - specialize (Hscore s eq_refl).
    destruct ex as [f|]; [|intros H; injection H as <-; exact Hscore].
    destruct (satisfaction_avg f) as [a|] eqn:Ha;
      [|intros H; injection H as <-; exact Hscore].
    destruct (service_count f) as [k|] eqn:Hk;
      [|intros H; injection H as <-; exact Hscore].
    specialize (Havg f a eq_refl Ha). specialize (Hcount f k eq_refl Hk).
    destruct (k + 1 =? 0)%Z; [discriminate|].
    intros H. injection H as <-. apply round2_on_scale.
    destruct Hscore as [Hs0 Hs5]. destruct Havg as [Ha0 Ha5].
    rewrite inject_Z_plus. change (inject_Z 1) with 1%Q.
    assert (HK : (0 <= inject_Z k)%Q).
    { change 0%Q with (inject_Z 0). rewrite <- Zle_Qle. exact Hcount. }
    set (K := inject_Z k) in *.
    set (x := ((a * K + s) / (K + 1))%Q).
    assert (Hx : ((K + 1) * x == a * K + s)%Q) by (unfold x; field; lra).
    split; nra.
  - destruct ex as [f|]; [|intros H; injection H as <-; split; lra].
    destruct (satisfaction_avg f) as [a|] eqn:Ha.
    + intros H. injection H as <-. eapply Havg; eauto.
    + intros H. injection H as <-. split; lra.
Qed.

Lemma wp_and {A} (m : M A) (Q1 Q2 : state -> result A -> Prop) st :
  wp m Q1 st -> wp m Q2 st -> wp m (fun st' r => Q1 st' r /\ Q2 st' r) st.
Proof. unfold wp. auto. Qed.

(** X1.  The enricher's handler never raises and never touches the messages
    table.  When it answers with a failure the feature table is unchanged;
    when it answers with success the only change is the entry written under
    the email of the event's customer. *)
Theorem enricher_handler_writes_only_its_customer (W : world) (ev : payload)
    (st : state) :
  wp (FeatureEnricher.lambda_handler W ev)
     (fun st' r =>
        messages_table st' = messages_table st /\
        exists resp, r = Ok resp /\
          match resp with
          | Failure _ => features_table st' = features_table st
          | Success fr =>
              email (get_customer ev) = Some (customerEmail fr) /\
              features_table st' !! customerEmail fr = Some fr /\
              features_table st' = <[customerEmail fr := fr]> (features_table st)
          end) st.
Proof.
  wp_use (lambda_handler_effect W ev st).
  destruct H as (HM & _ & resp & -> & Hresp & _).
  split; [exact HM|]. exists resp. split; [reflexivity|].
  destruct resp as [fr|e]; [|exact Hresp].
  destruct Hresp as [[Hmail _ _ _ _ _ _] _ Hst].
  repeat split; try assumption. rewrite Hst. apply lookup_insert_eq.
Qed.

(** A property of customer [e]'s stored snapshot that every successful run
    of the handler keeps is kept by any sequence of events. *)
Lemma process_events_keeps (W : world) (e : string)
    (good : payload -> Prop) (P : option features -> Prop) :
  (forall ev st st' fr,
     good ev -> enriched W ev st st' fr -> customerEmail fr = e ->
     P (features_table st !! e) -> P (Some fr)) ->
  forall events st,
    Forall good events ->
    P (features_table st !! e) ->
    wp (process_events W events)
       (fun st' r =>
          (exists rs, r = Ok rs /\ length rs = length events) /\
          P (features_table st' !! e)) st.
Proof.
  intros Hkeep events.
  induction events as [|ev rest IH]; intros st Hgood HP; cbn [process_events].
  - wp_steps. split; [exists []; auto | exact HP].
  - inversion Hgood as [|? ? Hev Hrest]; subst. wp_step.
    wp_use (lambda_handler_effect W ev st).
    destruct H as (_ & _ & resp & -> & Hresp & _). wp_step.
    assert (HP' : P (features_table st' !! e)).
    { destruct resp as [fr|ex]; [|rewrite Hresp; exact HP].
      destruct (decide (customerEmail fr = e)) as [Heq|Hne].
      - rewrite (enriched_stored _ _ _ _ _ Hresp), Heq, lookup_insert_eq.
        eapply Hkeep; eauto.
      - rewrite (enriched_stored _ _ _ _ _ Hresp), lookup_insert_ne by exact Hne.
        exact HP. }
    wp_use (IH st' Hrest HP').
    destruct H as [(rs & -> & Hlen) HPf]. wp_steps.
    split; [|exact HPf]. eexists. split; [reflexivity|]. cbn. lia.
Qed.

(** X2.  With a readable store, once a customer's snapshot carries a
    first_seen date, no sequence of events changes it. *)
Theorem first_seen_is_never_overwritten (W : world) (e t : string)
    (events : list payload) (f : features) (st : state) :
  (forall c, features_get_item_ok W c = true) ->
  features_table st !! e = Some f ->
  first_seen f = Some t ->
  wp (process_events W events)
     (fun st' r =>
        (exists rs, r = Ok rs /\ length rs = length events) /\
        exists f', features_table st' !! e = Some f' /\ first_seen f' = Some t) st.
Proof.
  intros Hread Hf Ht.
  apply (process_events_keeps W e (fun _ => True)
           (fun o => exists f', o = Some f' /\ first_seen f' = Some t)).
  - intros ev st0 st1 fr _ [Hc _ _] Heq (f0 & Hf0 & Ht0).
    exists fr. split; [reflexivity|].
    pose proof (computed_first_seen _ _ _ _ Hc) as Hfs.
    unfold snapshot_read in Hfs. rewrite Hread, Heq, Hf0 in Hfs.
    rewrite Hfs, Ht0. reflexivity.
  - apply Forall_forall. auto.
  - eauto.
Qed.

(** X3.  With a readable store, over any sequence of events the stored
    service count of a customer never decreases and grows by at most one per
    event. *)
Theorem service_count_never_decreases (W : world) (e : string)
    (events : list payload) (f : features) (k : Z) (st : state) :
  (forall c, features_get_item_ok W c = true) ->
  features_table st !! e = Some f ->
  service_count f = Some k ->
  wp (process_events W events)
     (fun st' r =>
        (exists rs, r = Ok rs /\ length rs = length events) /\
        exists f' k', features_table st' !! e = Some f' /\
                      service_count f' = Some k' /\
                      (k <= k' <= k + Z.of_nat (length events))%Z) st.
Proof.
  intros Hread Hf Hk.
  revert st f k Hf Hk.
  induction events as [|ev rest IH]; intros st f k Hf Hk; cbn [process_events].
  - wp_steps. split; [exists []; auto|]. exists f, k. repeat split; auto; cbn; lia.
  - wp_step. wp_use (lambda_handler_effect W ev st).
    destruct H as (_ & _ & resp & -> & Hresp & _). wp_step.
    assert (Hnext : exists f1 k1, features_table st' !! e = Some f1 /\
                      service_count f1 = Some k1 /\ (k <= k1 <= k + 1)%Z).
    { destruct resp as [fr|ex].
      - destruct (decide (customerEmail fr = e)) as [Heq|Hne].
        + exists fr, (k + 1)%Z.
          rewrite (enriched_stored _ _ _ _ _ Hresp), Heq, lookup_insert_eq.
          split; [reflexivity|]. split; [|lia].
          rewrite (computed_count _ _ _ _ (enriched_computed _ _ _ _ _ Hresp)).
          unfold snapshot_read. rewrite Hread, Heq, Hf.
          rewrite (calculate_service_count_existing ev f k Hk). reflexivity.
        + exists f, k.
          rewrite (enriched_stored _ _ _ _ _ Hresp), lookup_insert_ne by exact Hne.
          repeat split; auto; lia.
      - exists f, k. rewrite Hresp. repeat split; auto; lia. }
    destruct Hnext as (f1 & k1 & Hf1 & Hk1 & Hb).
    wp_use (IH st' f1 k1 Hf1 Hk1).
    destruct H as [(rs & -> & Hlen) (f' & k' & Hf' & Hk' & Hb')]. wp_steps.
    split; [eexists; split; [reflexivity|]; cbn; lia|].
    exists f', k'. repeat split; auto; cbn [length]; lia.
Qed.

Lemma first_seen_is_never_overwritten_witness :
  wp (process_events friendly_world seven_events)
     (fun st' r =>
        (exists rs, r = Ok rs /\ length rs = length seven_events) /\
        exists f', features_table st' !! "a@b.com" = Some f' /\
                   first_seen f' = Some "2025-01-01T00:00:00")
     (state_with (snapshot_of "a@b.com" 4 5)).
Proof.
  apply (first_seen_is_never_overwritten friendly_world "a@b.com"
           "2025-01-01T00:00:00" seven_events (snapshot_of "a@b.com" 4 5)).
  - intros c. reflexivity.
  - reflexivity.
  - reflexivity.
Defined.

Lemma service_count_never_decreases_witness :
  wp (process_events friendly_world seven_events)
     (fun st' r =>
        (exists rs, r = Ok rs /\ length rs = length seven_events) /\
        exists f' k', features_table st' !! "a@b.com" = Some f' /\
                      service_count f' = Some k' /\
                      (5 <= k' <= 5 + Z.of_nat (length seven_events))%Z)
     (state_with (snapshot_of "a@b.com" 4 5)).
Proof.
  apply (service_count_never_decreases friendly_world "a@b.com" seven_events
           (snapshot_of "a@b.com" 4 5) 5).
  - intros c. reflexivity.
  - reflexivity.
  - reflexivity.
Defined.

(** X4.  With a readable store, if a customer's snapshot has an average
    between 0 and 5 and a non-negative count, and every score that arrives
    is between 0 and 5, then after any sequence of events the snapshot still
    has an average between 0 and 5 and a non-negative count: the rounding
    never leaves the scale. *)
Theorem stored_average_stays_on_scale (W : world) (e : string)
    (events : list payload) (st : state) :
  (forall c, features_get_item_ok W c = true) ->
  Forall scores_on_scale events ->
  sound_snapshot (features_table st !! e) ->
  wp (process_events W events)
     (fun st' r =>
        (exists rs, r = Ok rs /\ length rs = length events) /\
        sound_snapshot (features_table st' !! e)) st.
Proof.
  intros Hread Hgood Hsound.
  apply (process_events_keeps W e scores_on_scale sound_snapshot); try assumption.
  intros ev st0 st1 fr Hev [Hc _ _] Heq (f0 & a0 & k0 & Hf0 & Ha0 & Hs0 & Hk0 & Hpos).
  destruct (computed_average _ _ _ _ Hc) as (a & Hcalc & Ha).
  pose proof (computed_count _ _ _ _ Hc) as Hcount.
  unfold snapshot_read in Hcalc, Hcount. rewrite Hread, Heq, Hf0 in Hcalc, Hcount.
  rewrite (calculate_service_count_existing ev f0 k0 Hk0) in Hcount.
  assert (Hscale : on_scale a).
  { eapply (calculate_satisfaction_avg_on_scale ev (Some f0) a); try exact Hcalc.
    - exact Hev.
    - intros f1 a1 Hf1 Ha1. injection Hf1 as <-. rewrite Ha0 in Ha1.
      injection Ha1 as <-. exact Hs0.
    - intros f1 k1 Hf1 Hk1. injection Hf1 as <-. rewrite Hk0 in Hk1.
      injection Hk1 as <-. exact Hpos. }
  exists fr, a, (k0 + 1)%Z. split; [reflexivity|]. split; [exact Ha|].
  split; [exact Hscale|]. split; [exact Hcount|]. lia.
Qed.

Lemma seven_events_on_scale : Forall scores_on_scale seven_events.
Proof.
  unfold seven_events, seven_scores. cbn [map].
  repeat (apply Forall_cons_2;
          [intros s Hs; cbn in Hs; injection Hs as <-; split; discriminate|]).
  apply Forall_nil_2.
Qed.

Lemma stored_average_stays_on_scale_witness :
  wp (process_events friendly_world seven_events)
     (fun st' r =>
        (exists rs, r = Ok rs /\ length rs = length seven_events) /\
        sound_snapshot (features_table st' !! "a@b.com"))
     (state_with (snapshot_of "a@b.com" 4 5)).
Proof.
  apply (stored_average_stays_on_scale friendly_world "a@b.com" seven_events).
  - intros c. reflexivity.
  - apply seven_events_on_scale.
  - exists (snapshot_of "a@b.com" 4 5), 4%Q, 5%Z.
    repeat split; try reflexivity; try discriminate; try lia.
Defined.

(** X5.  When the read of the feature store raises, the enricher carries on
    as for a new customer and the write replaces whatever was stored: the
    average is the event's score (3.5 without one), the count is the one for
    a first event, and first_seen is the time of this run. *)
Theorem failed_read_restarts_the_customer (W : world) (ev : payload) (e : string)
    (st : state) :
  is_Some (ssm_get_parameter W "/referral-system/customer-features-table-name") ->
  (forall f, features_put_item_ok W f = true) ->
  features_get_item_ok W e = false ->
  email (get_customer ev) = Some e ->
  Py.truthy_str e = true ->
  wp (FeatureEnricher.lambda_handler W ev)
     (fun st' r =>
        exists fr,
          r = Ok (Success fr) /\
          features_table st' !! e = Some fr /\
          satisfaction_avg fr = Some (default (7 # 2)%Q (current_score_of ev)) /\
          service_count fr = Some (calculate_service_count ev None) /\
          first_seen fr = Some (utcnow_iso W (S (ticks st)))) st.
Proof.
  intros Hname Hput Hread Hmail Ht.
  wp_use (lambda_handler_effect W ev st).
  destruct H as (_ & _ & resp & -> & Hresp & Hclause).
  specialize (Hclause Hname e Hmail Ht).
  unfold snapshot_read in Hclause. rewrite Hread in Hclause.
  assert (Hcalc : calculate_satisfaction_avg ev None
                  = Ok (default (7 # 2)%Q (current_score_of ev))).
  { unfold calculate_satisfaction_avg. destruct (current_score_of ev); reflexivity. }
  rewrite Hcalc in Hclause.
  destruct (Hclause Hput) as [fr ->].
  destruct Hresp as [Hc _ Hst].
  assert (Heq : customerEmail fr = e).
  { pose proof (computed_email _ _ _ _ Hc) as H1. congruence. }
  exists fr. split; [reflexivity|].
  pose proof (computed_count _ _ _ _ Hc) as Hcount.
  pose proof (computed_first_seen _ _ _ _ Hc) as Hfs.
  destruct (computed_average _ _ _ _ Hc) as (a1 & Hcalc1 & Ha1).
  unfold snapshot_read in Hcount, Hfs, Hcalc1. rewrite Heq, Hread in Hcount, Hfs, Hcalc1.
  rewrite Hcalc in Hcalc1. injection Hcalc1 as <-.
  repeat split; try assumption.
  rewrite Hst, Heq. apply lookup_insert_eq.
Qed.

Lemma failed_read_restarts_the_customer_witness :
  wp (FeatureEnricher.lambda_handler unreadable_world
        (event_of (Some "a@b.com") (Some 5%Q) None))
     (fun st' r =>
        exists fr,
          r = Ok (Success fr) /\
          features_table st' !! "a@b.com" = Some fr /\
          satisfaction_avg fr = Some 5%Q /\
          service_count fr = Some 1%Z /\
          first_seen fr = Some "2025-12-12T00:00:01")
     (state_with (snapshot_of "a@b.com" 4 5)).
Proof.
  apply (failed_read_restarts_the_customer unreadable_world
           (event_of (Some "a@b.com") (Some 5%Q) None) "a@b.com"
           (state_with (snapshot_of "a@b.com" 4 5))).
  - eexists. reflexivity.
  - intros f. reflexivity.
  - reflexivity.
  - reflexivity.
  - reflexivity.
Defined.

(** X6.  A stored service count of -1 makes the running average divide by
    zero: every scored event of that customer is answered with the
    ZeroDivisionError failure and the feature table stays as it is. *)
Theorem negative_count_blocks_scored_events (W : world) (ev : payload)
    (e : string) (f : features) (a s : Q) (st : state) :
  is_Some (ssm_get_parameter W "/referral-system/customer-features-table-name") ->
  features_get_item_ok W e = true ->
  email (get_customer ev) = Some e ->
  Py.truthy_str e = true ->
  current_score_of ev = Some s ->
  features_table st !! e = Some f ->
  satisfaction_avg f = Some a ->
  service_count f = Some (-1)%Z ->
  wp (FeatureEnricher.lambda_handler W ev)
     (fun st' r =>
        r = Ok (Failure ZeroDivisionError) /\
        features_table st' = features_table st) st.
Proof.
  intros Hname Hread Hmail Ht Hs Hf Ha Hk.
  wp_use (lambda_handler_effect W ev st).
  destruct H as (_ & _ & resp & -> & Hresp & Hclause).
  specialize (Hclause Hname e Hmail Ht).
  unfold snapshot_read in Hclause. rewrite Hread, Hf in Hclause.
  unfold calculate_satisfaction_avg in Hclause. rewrite Hs, Ha, Hk in Hclause.
  cbv zeta in Hclause. change ((-1 + 1 =? 0)%Z) with true in Hclause.
  cbv iota in Hclause. subst resp. split; [reflexivity | exact Hresp].
Qed.

Lemma negative_count_blocks_scored_events_witness :
  exists f,
    features_table
      (final_state (FeatureEnricher.lambda_handler friendly_world
                      (event_of (Some "a@b.com") (Some 5%Q) (Some (-1)%Z))
                      initial_state)) !! "a@b.com" = Some f /\
    service_count f = Some (-1)%Z /\
    outcome (FeatureEnricher.lambda_handler friendly_world
               (event_of (Some "a@b.com") (Some 4%Q) None)
               (state_with f))
    = Ok (Failure ZeroDivisionError).
Proof.
  eexists. split; [vm_compute; reflexivity|]. split; [reflexivity|].
  match goal with
  | |- outcome (FeatureEnricher.lambda_handler ?W ?ev ?st) = _ =>
      exact (proj1 (negative_count_blocks_scored_events W ev "a@b.com" _ 5 4 st
                      ltac:(eexists; reflexivity) eq_refl eq_refl eq_refl eq_refl
                      eq_refl eq_refl eq_refl))
  end.
Defined.

(** X7.  With the store available, an event without a satisfaction score for
    a customer whose snapshot has an average and a count is stored with the
    same average but a count one higher (and the first_seen of the
    snapshot): it counts as a service without contributing a score. *)
Theorem unscored_event_counts_without_a_score (W : world) (ev : payload)
    (e : string) (f : features) (a : Q) (k : Z) (st : state) :
  store_available W ->
  email (get_customer ev) = Some e ->
  Py.truthy_str e = true ->
  current_score_of ev = None ->
  features_table st !! e = Some f ->
  satisfaction_avg f = Some a ->
  service_count f = Some k ->
  wp (FeatureEnricher.lambda_handler W ev)
     (fun st' r =>
        exists fr,
          r = Ok (FeatureEnricher.Success fr) /\
          features_table st' !! e = Some fr /\
          satisfaction_avg fr = Some a /\
          service_count fr = Some (k + 1)%Z /\
          first_seen fr = Some (default (utcnow_iso W (ticks st)) (first_seen f))) st.
Proof.
  intros [Hname Hread Hput] Hmail Ht Hs Hf Ha Hk.
  wp_use (lambda_handler_effect W ev st).
  destruct H as (_ & _ & resp & -> & Hresp & Hclause).
  specialize (Hclause Hname e Hmail Ht).
  unfold snapshot_read in Hclause. rewrite Hread, Hf in Hclause.
  assert (Hcalc : FeatureEnricher.calculate_satisfaction_avg ev (Some f) = Ok a).
  { unfold FeatureEnricher.calculate_satisfaction_avg. rewrite Hs, Ha. reflexivity. }
  rewrite Hcalc in Hclause.
  destruct (Hclause Hput) as [fr ->].
  destruct Hresp as [Hc _ Hst].
  assert (Heq : customerEmail fr = e).
  { pose proof (computed_email _ _ _ _ Hc) as H1. congruence. }
  exists fr. split; [reflexivity|].
  pose proof (computed_count _ _ _ _ Hc) as Hcount.
  pose proof (computed_first_seen _ _ _ _ Hc) as Hfs.
  destruct (computed_average _ _ _ _ Hc) as (a1 & Hcalc1 & Ha1).
  unfold snapshot_read in Hcount, Hfs, Hcalc1.
  rewrite Heq, Hread, Hf in Hcount, Hfs, Hcalc1.
  rewrite Hcalc in Hcalc1. injection Hcalc1 as <-.
  rewrite (calculate_service_count_existing ev f k Hk) in Hcount.
  repeat split; try assumption.
  rewrite Hst, Heq. apply lookup_insert_eq.
Qed.

Lemma unscored_event_counts_without_a_score_witness :
  wp (FeatureEnricher.lambda_handler friendly_world (event_of (Some "a@b.com") None None))
     (fun st' r =>
        exists fr,
          r = Ok (FeatureEnricher.Success fr) /\
          features_table st' !! "a@b.com" = Some fr /\
          satisfaction_avg fr = Some 4%Q /\
          service_count fr = Some (5 + 1)%Z /\
          first_seen fr = Some "2025-01-01T00:00:00")
     (state_with (snapshot_of "a@b.com" 4 5)).
Proof.
  apply (unscored_event_counts_without_a_score friendly_world
           (event_of (Some "a@b.com") None None) "a@b.com"
           (snapshot_of "a@b.com" 4 5) 4 5 (state_with (snapshot_of "a@b.com" 4 5))).
  - apply friendly_store_available.
  - reflexivity.
  - reflexivity.
  - reflexivity.
  - reflexivity.
  - reflexivity.
  - reflexivity.
Defined.

(* ===================================================================== *)
(** ** Properties of the webhook handler *)
(* ===================================================================== *)

Lemma queue_url_name (environment : string) :
  WebhookHandler.env_specific_name environment "/referral-system/sqs-queue-url"
  = "/referral-system/" ++ environment ++ "/sqs-queue-url".
Proof.
  unfold WebhookHandler.env_specific_name, WebhookHandler.replace.
  change (String.prefix "/referral-system/" "/referral-system/sqs-queue-url") with true.
  cbv iota.
  assert (Hsplit : Py.split "/referral-system/" "/referral-system/sqs-queue-url"
                   = [EmptyString; "sqs-queue-url"]) by (vm_compute; reflexivity).
  rewrite Hsplit. unfold WebhookHandler.join. cbn [fold_left].
  change (EmptyString ++ ?x) with x.
  rewrite !append_assoc. reflexivity.
Qed.

(** X30.  The webhook handler's [get_parameter] looks a parameter up under
    its environment-specific name first (for the queue URL, the name with
    the environment inserted after the system prefix) and returns that value
    when it is cached or found.  It turns to the plain name only when the
    specific one is not found; any other failure of SSM on the specific name
    is raised at once, and when neither name is found the function raises
    ValueError. *)
Theorem environment_parameter_takes_precedence (C : WebhookHandler.collaborators)
    (parameter_name : string) (s : WebhookHandler.ingress_state) :
  let specific :=
    WebhookHandler.env_specific_name (WebhookHandler.ENVIRONMENT C) parameter_name in
  let run := WebhookHandler.get_parameter C parameter_name s in
  WebhookHandler.env_specific_name (WebhookHandler.ENVIRONMENT C)
    "/referral-system/sqs-queue-url"
  = "/referral-system/" ++ WebhookHandler.ENVIRONMENT C ++ "/sqs-queue-url" /\
  match WebhookHandler.cached s !! specific with
  | Some v => run = (s, Ok v)
  | None =>
      match WebhookHandler.ssm_parameter C specific with
      | WebhookHandler.Found v =>
          snd run = Ok v /\
          WebhookHandler.cached (fst run)
          = <[specific := v]> (WebhookHandler.cached s)
      | WebhookHandler.OtherError => run = (s, Raise (ClientError "ssm"))
      | WebhookHandler.ParameterNotFound =>
          match WebhookHandler.cached s !! parameter_name with
          | Some v => run = (s, Ok v)
          | None =>
              match WebhookHandler.ssm_parameter C parameter_name with
              | WebhookHandler.Found v =>
                  snd run = Ok v /\
                  WebhookHandler.cached (fst run)
                  = <[parameter_name := v]> (WebhookHandler.cached s)
              | WebhookHandler.OtherError => run = (s, Raise (ClientError "ssm"))
              | WebhookHandler.ParameterNotFound =>
                  exists message, run = (s, Raise (ValueError message))
              end
          end
      end
  end.
Proof.
  intros specific run. split; [apply queue_url_name|].
  unfold run, WebhookHandler.get_parameter. fold specific.
  cbn [WebhookHandler.first_found].
  unfold WebhookHandler.bindH, WebhookHandler.try_name.
  destruct (WebhookHandler.cached s !! specific) as [v|] eqn:Hc; [reflexivity|].
  destruct (WebhookHandler.ssm_parameter C specific) as [v| |] eqn:Hs.
  - split; reflexivity.
  - destruct (WebhookHandler.cached s !! parameter_name) as [v|] eqn:Hc2;
      [reflexivity|].
    destruct (WebhookHandler.ssm_parameter C parameter_name) as [v| |] eqn:Hs2.
    + split; reflexivity.
    + eexists. reflexivity.
    + reflexivity.
  - reflexivity.
Qed.

Lemma validate_webhook_payload_cases (payload : json) :
  match WebhookHandler.validate_webhook_payload payload with
  | Ok (true, _) =>
      exists members customer,
        payload = JObj members /\ well_formed payload = true /\
        WebhookHandler.customer_of members = Ok customer
  | Ok (false, _) => well_formed payload = false
  | Raise e =>
      e = AttributeError /\
      exists members,
        payload = JObj members /\ well_formed payload = true /\
        WebhookHandler.customer_of members = Raise AttributeError
  end.
Proof.
  unfold WebhookHandler.validate_webhook_payload, well_formed.
  destruct payload as [| | | | |members]; try reflexivity.
  destruct (Json.truthy (JObj members)) eqn:Ht; [|reflexivity].
  unfold and_then.
  destruct (WebhookHandler.customer_of members) as [customer|e] eqn:Hc.
  - eauto.
  - assert (e = AttributeError) as ->.
    { unfold WebhookHandler.customer_of in Hc.
      destruct (Json.get members "customer" (JObj ∅)); congruence. }
    eauto.
Qed.

Lemma get_parameter_keeps_queue (C : WebhookHandler.collaborators)
    (parameter_name : string) (s : WebhookHandler.ingress_state) :
  WebhookHandler.queue (fst (WebhookHandler.get_parameter C parameter_name s))
  = WebhookHandler.queue s /\
  WebhookHandler.clock (fst (WebhookHandler.get_parameter C parameter_name s))
  = WebhookHandler.clock s /\
  snd (WebhookHandler.get_parameter C parameter_name s) <> Raise JSONDecodeError.
Proof.
  unfold WebhookHandler.get_parameter. cbn [WebhookHandler.first_found].
  unfold WebhookHandler.bindH, WebhookHandler.try_name.
  destruct (WebhookHandler.cached s !! _) as [v|]; [repeat split; discriminate|].
  destruct (WebhookHandler.ssm_parameter C _) as [v| |];
    try (repeat split; discriminate).
  destruct (WebhookHandler.cached s !! parameter_name) as [v|];
    [repeat split; discriminate|].
  destruct (WebhookHandler.ssm_parameter C parameter_name) as [v| |];
    repeat split; discriminate.
Qed.

(** X27.  Every answer of the webhook handler has its reason.  It answers
    400 only when the body does not parse or the payload is not a non-empty
    object, and then nothing has changed; it answers 500 only for a non-
    empty object, with nothing queued; and when it answers 200 it has queued
    exactly one message, the one SQS acknowledged with the returned id,
    which carries the payload and the customer identifier of the answer. *)
Theorem webhook_outcomes (L : library) (C : WebhookHandler.collaborators)
    (event : gmap string json) (s : WebhookHandler.ingress_state) :
  let run := WebhookHandler.lambda_handler L C event s in
  match snd run with
  | WebhookHandler.BadRequest _ _ =>
      fst run = s /\
      (WebhookHandler.body_of L event = Raise JSONDecodeError \/
       exists body, WebhookHandler.body_of L event = Ok body /\
                    well_formed body = false)
  | WebhookHandler.InternalError =>
      WebhookHandler.queue (fst run) = WebhookHandler.queue s /\
      exists payload,
        WebhookHandler.body_of L event = Ok (JObj payload) /\
        well_formed (JObj payload) = true
  | WebhookHandler.Accepted message_id customer_identifier _ =>
      exists payload customer queue_url,
        WebhookHandler.body_of L event = Ok (JObj payload) /\
        well_formed (JObj payload) = true /\
        WebhookHandler.customer_of payload = Ok customer /\
        customer_identifier = WebhookHandler.identifier customer /\
        let message := message_for C queue_url payload customer
                         (WebhookHandler.clock s) in
        WebhookHandler.send_message C message = Some message_id /\
        WebhookHandler.queue (fst run) = (WebhookHandler.queue s ++ [message])%list
  end.
Proof.
  cbv zeta.
  destruct (WebhookHandler.lambda_handler L C event s) as [s' answer] eqn:Hrun.
  cbn [fst snd]. unfold WebhookHandler.lambda_handler in Hrun.
  unfold WebhookHandler.bindH at 1 in Hrun. unfold WebhookHandler.liftH at 1 in Hrun.
  destruct (WebhookHandler.body_of L event) as [body|e] eqn:Hbody.
  2: { assert (e = JSONDecodeError) as ->.
       { unfold WebhookHandler.body_of in Hbody.
         destruct (event !! "body") as [[| | |text| |]|]; try discriminate.
         destruct (json_loads L text); congruence. }
       injection Hrun as <- <-. auto. }
  unfold WebhookHandler.bindH at 1 in Hrun. unfold WebhookHandler.liftH at 1 in Hrun.
  pose proof (validate_webhook_payload_cases body) as Hv.
  destruct (WebhookHandler.validate_webhook_payload body) as [[[|] message]|e].
  - destruct Hv as (payload & customer & -> & Hwf & Hc).
    cbn [fst snd negb] in Hrun.
    unfold WebhookHandler.bindH at 1 in Hrun.
    pose proof (get_parameter_keeps_queue C "/referral-system/sqs-queue-url" s)
      as (Hq & Hk & Hne).
    destruct (WebhookHandler.get_parameter C "/referral-system/sqs-queue-url" s)
      as [s1 [queue_url|e]].
    2: { cbn [fst snd] in Hq, Hne.
         destruct e; try (injection Hrun as <- <-; (split; [exact Hq|]); eauto; fail).
         congruence. }
    cbn [fst] in Hq, Hk.
    unfold WebhookHandler.send_to_sqs, WebhookHandler.bindH, WebhookHandler.now,
      WebhookHandler.liftH, WebhookHandler.retH in Hrun.
    rewrite Hc in Hrun.
    cbn [WebhookHandler.cached WebhookHandler.queue WebhookHandler.clock] in Hrun.
    fold (message_for C queue_url payload customer (WebhookHandler.clock s1)) in Hrun.
    rewrite Hk, Hq in Hrun.
    destruct (WebhookHandler.send_message C
                (message_for C queue_url payload customer (WebhookHandler.clock s)))
      as [message_id|] eqn:Hsend.
    + injection Hrun as <- <-.
      exists payload, customer, queue_url. repeat split; assumption.
    + injection Hrun as <- <-. split; [reflexivity|]. eauto.
  - cbn [fst snd negb] in Hrun. unfold WebhookHandler.retH in Hrun.
    injection Hrun as <- <-. eauto.
  - destruct Hv as (-> & payload & -> & Hwf & _). injection Hrun as <- <-. eauto.
Qed.

(** X28.  A body that does not parse is answered 400 Invalid JSON, and a
    payload that is not a non-empty object 400 Invalid payload, without any
    effect; a non-empty object whose customer is not an object is answered
    500, not 400, also without any effect. *)
Theorem requests_are_screened (L : library) (C : WebhookHandler.collaborators)
    (event : gmap string json) (s : WebhookHandler.ingress_state) :
  (WebhookHandler.body_of L event = Raise JSONDecodeError ->
   WebhookHandler.lambda_handler L C event s
   = (s, WebhookHandler.BadRequest "Invalid JSON" (str_exn L JSONDecodeError))) /\
  (forall body,
     WebhookHandler.body_of L event = Ok body ->
     well_formed body = false ->
     WebhookHandler.lambda_handler L C event s
     = (s, WebhookHandler.BadRequest "Invalid payload"
             "Payload must be a non-empty JSON object")) /\
  (forall payload,
     WebhookHandler.body_of L event = Ok (JObj payload) ->
     well_formed (JObj payload) = true ->
     WebhookHandler.customer_of payload = Raise AttributeError ->
     WebhookHandler.lambda_handler L C event s = (s, WebhookHandler.InternalError)).
Proof.
  unfold WebhookHandler.lambda_handler. repeat split.
  - intros Hbody. unfold WebhookHandler.bindH at 1. unfold WebhookHandler.liftH at 1.
    rewrite Hbody. reflexivity.
  - intros body Hbody Hwf.
    unfold WebhookHandler.bindH at 1. unfold WebhookHandler.liftH at 1. rewrite Hbody.
    unfold WebhookHandler.bindH at 1. unfold WebhookHandler.liftH at 1.
    assert (Hv : WebhookHandler.validate_webhook_payload body
                 = Ok (false, "Payload must be a non-empty JSON object")).
    { unfold WebhookHandler.validate_webhook_payload, well_formed in *.
      destruct body; try reflexivity. rewrite Hwf. reflexivity. }
    rewrite Hv. reflexivity.
  - intros payload Hbody Hwf Hc.
    unfold WebhookHandler.bindH at 1. unfold WebhookHandler.liftH at 1. rewrite Hbody.
    unfold WebhookHandler.bindH at 1. unfold WebhookHandler.liftH at 1.
    assert (Hv : WebhookHandler.validate_webhook_payload (JObj payload)
                 = Raise AttributeError).
    { unfold WebhookHandler.validate_webhook_payload, well_formed in *.
      rewrite Hwf, Hc. reflexivity. }
    rewrite Hv. reflexivity.
Qed.

(** X29.  A non-empty object whose customer is an object or absent is
    accepted whenever the queue URL resolves and SQS takes the message,
    whether or not the customer has an email or an id: the handler answers
    200 and has queued one message whose body holds the payload under
    webhook_payload and names the webhook handler as its source; without
    email and id the customer identifier is unknown. *)
Theorem events_without_identity_are_accepted (L : library)
    (C : WebhookHandler.collaborators) (event payload customer : gmap string json)
    (s s1 : WebhookHandler.ingress_state) (queue_url message_id : string) :
  let message := message_for C queue_url payload customer (WebhookHandler.clock s) in
  WebhookHandler.body_of L event = Ok (JObj payload) ->
  well_formed (JObj payload) = true ->
  WebhookHandler.customer_of payload = Ok customer ->
  WebhookHandler.get_parameter C "/referral-system/sqs-queue-url" s
  = (s1, Ok queue_url) ->
  WebhookHandler.send_message C message = Some message_id ->
  exists s2 timestamp,
    WebhookHandler.lambda_handler L C event s
    = (s2, WebhookHandler.Accepted message_id (WebhookHandler.identifier customer)
             timestamp) /\
    WebhookHandler.queue s2 = (WebhookHandler.queue s ++ [message])%list /\
    WebhookHandler.MessageBody message !! "webhook_payload" = Some (JObj payload) /\
    WebhookHandler.MessageBody message !! "source" = Some (JStr "webhook_handler") /\
    (Json.truthy (Json.get customer "email" JNull) = false ->
     Json.truthy (Json.get customer "id" JNull) = false ->
     WebhookHandler.identifier customer = JStr "unknown").
Proof.
  intros message Hbody Hwf Hc Hparam Hsend.
  pose proof (get_parameter_keeps_queue C "/referral-system/sqs-queue-url" s)
    as (Hq & Hk & _).
  rewrite Hparam in Hq, Hk. cbn [fst] in Hq, Hk.
  assert (Hv : WebhookHandler.validate_webhook_payload (JObj payload)
               = Ok (true, EmptyString)).
  { unfold WebhookHandler.validate_webhook_payload, well_formed in *.
    rewrite Hwf, Hc. reflexivity. }
  eexists _, _. split; [|split; [|split; [reflexivity|split; [reflexivity|]]]].
  - unfold WebhookHandler.lambda_handler.
    unfold WebhookHandler.bindH at 1. unfold WebhookHandler.liftH at 1. rewrite Hbody.
    unfold WebhookHandler.bindH at 1. unfold WebhookHandler.liftH at 1. rewrite Hv.
    cbn [fst snd negb].
    unfold WebhookHandler.bindH at 1. rewrite Hparam.
    unfold WebhookHandler.send_to_sqs, WebhookHandler.bindH, WebhookHandler.now,
      WebhookHandler.liftH, WebhookHandler.retH.
    rewrite Hc.
    cbn [WebhookHandler.cached WebhookHandler.queue WebhookHandler.clock].
    fold (message_for C queue_url payload customer (WebhookHandler.clock s1)).
    rewrite Hk. fold message. rewrite Hsend. reflexivity.
  - cbn [WebhookHandler.queue]. rewrite Hq. reflexivity.
  - intros He Hi. unfold WebhookHandler.identifier, WebhookHandler.or_.
    rewrite He, Hi. reflexivity.
Qed.

Lemma requests_are_screened_witness :
  WebhookHandler.lambda_handler sample_library sample_collaborators
    (text_request "not json") fresh
  = (fresh, WebhookHandler.BadRequest "Invalid JSON"
              (str_exn sample_library JSONDecodeError)) /\
  WebhookHandler.lambda_handler sample_library sample_collaborators
    (<["body" := JArr []]> ∅) fresh
  = (fresh, WebhookHandler.BadRequest "Invalid payload"
              "Payload must be a non-empty JSON object") /\
  WebhookHandler.lambda_handler sample_library sample_collaborators
    (<["customer" := JStr "Ann"]> ∅) fresh
  = (fresh, WebhookHandler.InternalError).
Proof.
  split; [|split].
  - apply (proj1 (requests_are_screened sample_library sample_collaborators
                    (text_request "not json") fresh)).
    reflexivity.
  - apply (proj1 (proj2 (requests_are_screened sample_library sample_collaborators
                           (<["body" := JArr []]> ∅) fresh)) (JArr []));
      reflexivity.
  - apply (proj2 (proj2 (requests_are_screened sample_library sample_collaborators
                           (<["customer" := JStr "Ann"]> ∅) fresh))
             (<["customer" := JStr "Ann"]> ∅)).
    + reflexivity.
    + vm_compute. reflexivity.
    + reflexivity.
Defined.

Lemma events_without_identity_are_accepted_witness :
  exists s2 timestamp,
    WebhookHandler.lambda_handler sample_library sample_collaborators
      anonymous_request fresh
    = (s2, WebhookHandler.Accepted "m-1" (JStr "unknown") timestamp) /\
    length (WebhookHandler.queue s2) = 1%nat.
Proof.
  destruct (events_without_identity_are_accepted sample_library sample_collaborators
              anonymous_request anonymous_request (<["first_name" := JStr "Ann"]> ∅)
              fresh
              {| WebhookHandler.cached :=
                   <["/referral-system/sqs-queue-url" := "https://sqs.example/queue"]> ∅;
                 WebhookHandler.queue := []; WebhookHandler.clock := 0 |}
              "https://sqs.example/queue" "m-1")
    as (s2 & timestamp & Hrun & Hqueue & _ & _ & Hunknown).
  - reflexivity.
  - vm_compute. reflexivity.
  - reflexivity.
  - vm_compute. reflexivity.
  - reflexivity.
  - exists s2, timestamp. rewrite Hrun, Hqueue. split; [|reflexivity].
    rewrite (Hunknown eq_refl eq_refl). reflexivity.
Defined.

(* ===================================================================== *)
(** ** Further properties of the orchestrator *)
(* ===================================================================== *)

Lemma get_parameter_result (W : world) (k : string) (st : state) :
  wp (get_parameter W k)
     (fun st' r =>
        same_but_cache st st' /\
        r = match lookup_parameter W st k with
            | Some v => Ok v
            | None => Raise (ClientError "ssm")
            end /\
        match r with
        | Ok v => parameter_cache st' !! k = Some v
        | Raise _ => st' = st
        end) st.
Proof.
  unfold get_parameter, lookup_parameter. wp_steps.
  destruct (parameter_cache st !! k) as [c|] eqn:Hc.
  - wp_steps. split; [apply same_but_cache_refl|]. auto.
  - destruct (ssm_get_parameter W k) as [v|] eqn:Hv; wp_steps.
    + split; [repeat split|]. split; [reflexivity|]. cbn. apply lookup_insert_eq.
    + split; [apply same_but_cache_refl|]. auto.
Qed.

(** X8.  A parameter that [get_parameter] has returned is served from the
    cache afterwards, whatever SSM has become, without any change of state.
    A failed fetch leaves the state as it was, with nothing cached. *)
Theorem get_parameter_is_memoised (W W' : world) (k : string) (st : state) :
  wp (get_parameter W k)
     (fun st' r =>
        match r with
        | Ok v => get_parameter W' k st' = (st', Ok v)
        | Raise _ => st' = st /\ parameter_cache st !! k = None
        end) st.
Proof.
  wp_use (get_parameter_result W k st).
  destruct H as (_ & Hr & Hc). destruct r as [v|e].
  - unfold get_parameter, bind, gets, ret. rewrite Hc. reflexivity.
  - split; [exact Hc|]. unfold lookup_parameter in Hr.
    destruct (parameter_cache st !! k); [discriminate | reflexivity].
Qed.

(** X9.  [get_customer_features] never raises and changes nothing but the
    parameter cache.  It returns nothing when the email is empty, the table
    name cannot be found, the read fails or the customer is unknown;
    otherwise it returns the stored item with 0, 0, unknown and the empty
    dictionary for missing attributes. *)
Theorem customer_features_lookup_never_raises (W : world) (e : string) (st : state) :
  wp (get_customer_features W e)
     (fun st' r =>
        same_but_cache st st' /\
        exists found, r = Ok found /\
          match found with
          | Some cf =>
              Py.truthy_str e = true /\
              features_get_item_ok W e = true /\
              is_Some (lookup_parameter W st
                         "/referral-system/customer-features-table-name") /\
              exists item, features_table st !! e = Some item /\ cf = features_view item
          | None =>
              Py.truthy_str e = false \/
              features_get_item_ok W e = false \/
              lookup_parameter W st "/referral-system/customer-features-table-name"
              = None \/
              features_table st !! e = None
          end) st.
Proof.
  unfold get_customer_features.
  destruct (Py.truthy_str e) eqn:Ht; cbn [negb]; wp_steps.
  2: { split; [apply same_but_cache_refl|]. exists None. auto. }
  wp_use (get_parameter_result W "/referral-system/customer-features-table-name" st).
  destruct H as (S1 & Hr & _).
  destruct (lookup_parameter W st "/referral-system/customer-features-table-name")
    as [tn|] eqn:Hl; subst r; wp_steps.
  2: { split; [exact S1|]. exists None. auto. }
  unfold get_item.
  destruct (features_get_item_ok W e) eqn:Hread; wp_steps.
  2: { split; [exact S1|]. exists None. auto. }
  destruct S1 as (F1 & S1').
  destruct (features_table st' !! e) as [item|] eqn:Hitem; wp_steps.
  - split; [split; assumption|]. eexists. split; [reflexivity|].
    repeat split; eauto. exists item. rewrite <- F1. auto.
  - split; [split; assumption|]. exists None. split; [reflexivity|].
    right. right. right. rewrite <- F1. exact Hitem.
Qed.

(** X10.  What the enricher stores is what the orchestrator reads: after a
    successful run of the enricher's handler, with a readable store,
    [get_customer_features] for that customer returns the average, count,
    tier and property features the enricher computed from the event. *)
Theorem enriched_features_are_read_back (W : world) (ev : payload) (st : state) :
  is_Some (ssm_get_parameter W "/referral-system/customer-features-table-name") ->
  (forall c, features_get_item_ok W c = true) ->
  wp (FeatureEnricher.lambda_handler W ev)
     (fun st' r =>
        match r with
        | Ok (FeatureEnricher.Success fr) =>
            exists a c t,
              FeatureEnricher.calculate_satisfaction_avg ev (features_table st !! customerEmail fr)
              = Ok a /\
              c = FeatureEnricher.calculate_service_count ev
                    (features_table st !! customerEmail fr) /\
              FeatureEnricher.get_lifetime_value ev (features_table st !! customerEmail fr)
              = Ok t /\
              outcome (get_customer_features W (customerEmail fr) st')
              = Ok (Some {| cf_satisfaction_avg := a;
                            cf_service_count := c;
                            cf_lifetime_value := t;
                            cf_property_features :=
                              FeatureEnricher.extract_property_features ev |})
        | _ => True
        end) st.
Proof.
  intros Hname Hread.
  wp_use (lambda_handler_effect W ev st).
  destruct H as (_ & _ & resp & -> & Hresp & _).
  destruct resp as [fr|ex]; [|exact I].
  destruct Hresp as [[Hmail Ht (a & Ha & Hsa) Hc (t & Htier & Hlv) Hp _] _ Hst].
  unfold snapshot_read in *. rewrite Hread in *.
  exists a, (FeatureEnricher.calculate_service_count ev
               (features_table st !! customerEmail fr)), t.
  repeat split; try assumption.
  pose proof (customer_features_lookup_never_raises W (customerEmail fr) st') as Hw.
  unfold wp in Hw. destruct Hw as (_ & found & Hfound & Hcase).
  rewrite Hfound. f_equal.
  assert (Hlook : features_table st' !! customerEmail fr = Some fr).
  { rewrite Hst. apply lookup_insert_eq. }
  destruct found as [cf|].
  - destruct Hcase as (_ & _ & _ & item & Hitem & ->).
    rewrite Hlook in Hitem. injection Hitem as <-.
    unfold features_view. rewrite Hsa, Hc, Hlv, Hp. reflexivity.
  - exfalso. destruct Hcase as [H|[H|[H|H]]].
    + congruence.
    + pose proof (Hread (customerEmail fr)). congruence.
    + unfold lookup_parameter in H. destruct Hname as [v Hv].
      destruct (parameter_cache st' !! _); [discriminate | congruence].
    + congruence.
Qed.

Lemma enriched_features_are_read_back_witness :
  exists fr,
    outcome (FeatureEnricher.lambda_handler friendly_world
               (event_of (Some "a@b.com") (Some 5%Q) None) initial_state)
    = Ok (FeatureEnricher.Success fr) /\
    outcome (get_customer_features friendly_world "a@b.com"
               (final_state (FeatureEnricher.lambda_handler friendly_world
                               (event_of (Some "a@b.com") (Some 5%Q) None)
                               initial_state)))
    = Ok (Some {| cf_satisfaction_avg := 5; cf_service_count := 1;
                  cf_lifetime_value := "medium"; cf_property_features := ∅ |}).
Proof.
  pose proof (enriched_features_are_read_back friendly_world
                (event_of (Some "a@b.com") (Some 5%Q) None) initial_state
                ltac:(eexists; reflexivity) (fun _ => eq_refl)) as H.
  unfold wp in H.
  destruct (outcome (FeatureEnricher.lambda_handler friendly_world
                       (event_of (Some "a@b.com") (Some 5%Q) None) initial_state))
    as [[fr|ex]|ex] eqn:Hout; try (vm_compute in Hout; discriminate Hout).
  exists fr. split; [reflexivity|].
  destruct H as (a & c & t & Ha & Hc & Ht & Hread).
  assert (Hfr : customerEmail fr = "a@b.com").
  { vm_compute in Hout. injection Hout as <-. reflexivity. }
  rewrite Hfr in *. cbn in Ha, Hc, Ht.
  injection Ha as <-. subst c. injection Ht as <-. exact Hread.
Defined.

Lemma cooperative_configured (W : world) : cooperative W -> configured W.
Proof. intros [? ? ? ? _ _ _]. split; assumption. Qed.

Lemma generate_and_validate_rule (L : library) (W : world) (max_retries : nat)
    (p : payload) (st : state)
    (Post : state -> result (string * agent_config * loop_state) -> Prop) :
  (forall st1 e, same_but_cache st st1 -> ~ configured W -> Post st1 (Raise e)) ->
  (forall st1 table agent guidelines features,
     same_but_cache st st1 ->
     wp (while_loop L W (S max_retries) max_retries (model_id agent)
           (format_customer_data L p) guidelines features loop_start)
        (fun st' r =>
           match r with
           | Ok ls => Post st' (Ok (table, agent, ls))
           | Raise e => Post st' (Raise e)
           end) st1) ->
  wp (generate_and_validate L W max_retries p) Post st.
Proof.
  intros Hconf Hloop.
  unfold generate_and_validate. wp_step.
  wp_use (get_parameter_frame W "/referral-system/s3-bucket-name" st).
  destruct H as [S1 Hok1].
  destruct r as [bucket|e].
  2: { apply Hconf; [exact S1|]. intros HW.
       destruct (Hok1 (configured_bucket W HW)) as [? ?]. discriminate. }
  wp_step.
  wp_use (get_parameter_frame W "/referral-system/dynamodb-table-name" st').
  destruct H as [S2 Hok2].
  pose proof (same_but_cache_trans _ _ _ S1 S2) as S12.
  destruct r as [table|e].
  2: { apply Hconf; [exact S12|]. intros HW.
       destruct (Hok2 (configured_table W HW)) as [? ?]. discriminate. }
  wp_step.
  wp_use (get_active_agent_frame W "upsell-generator" st'0).
  destruct H as [S3 Hok3].
  pose proof (same_but_cache_trans _ _ _ S12 S3) as S13.
  destruct r as [agent|e].
  2: { apply Hconf; [exact S13|]. intros HW.
       destruct (Hok3 (configured_model W HW)) as [? ?]. discriminate. }
  wp_step. unfold get_brand_guidelines.
  destruct (s3_guidelines W bucket) as [guidelines|] eqn:Hg; wp_step.
  2: { apply Hconf; [exact S13|]. intros HW.
       destruct (configured_guidelines W HW bucket) as [? ?]. congruence. }
  wp_step.
  wp_use (get_customer_features_frame W
            (Py.or_else (email (get_customer p)) "unknown@example.com") st'1).
  destruct H as [S4 [features ->]].
  pose proof (same_but_cache_trans _ _ _ S13 S4) as S14.
  wp_step.
  wp_use (Hloop st'2 table agent guidelines features S14).
  destruct r as [ls|e]; wp_steps; exact H.
Qed.

Lemma generation_counted (st st' : state) (request judge_req : converse_request) :
  bedrock_log st' = (bedrock_log st ++ [request; judge_req])%list ->
  maxTokens request = 1000%Z ->
  maxTokens judge_req = 500%Z ->
  generation_attempts st' = S (generation_attempts st).
Proof.
  intros Hlog Hgen Hmax.
  unfold generation_attempts. rewrite Hlog, filter_app, length_app.
  rewrite filter_cons_True by (unfold is_generation; rewrite Hgen; reflexivity).
  rewrite filter_cons_False.
  - rewrite filter_nil. cbn [length]. lia.
  - unfold is_generation. rewrite Hmax. discriminate.
Qed.

Lemma looped_step (L : library) (W : world) (max_retries : nat)
    (model_id customer_data_str brand_guidelines : string)
    (features : option customer_features)
    (st0 st st' : state) (ls ls' : loop_state) :
  looped L W max_retries st0 st ls ->
  retry_count ls <= max_retries ->
  approved ls = false ->
  messages_table st' = messages_table st ->
  attempted L W ls ls' st st'
    (generator_request L model_id customer_data_str brand_guidelines
       (retry_count ls) (previous_feedback ls) features) ->
  looped L W max_retries st0 st' ls' /\
  (approved ls' = true \/ retry_count ls' = S (retry_count ls)).
Proof.
  intros [HM HB HA HR] Hle Hfalse HM'
    (g & v & st1 & jreq & Hlog & Hmax & Hv & Hg & Hj & Hc & Hcase).
  pose proof (generation_counted st st' _ jreq Hlog eq_refl Hmax) as Hcount.
  destruct Hcase as [(Ht & Ha & Hr & Hp) | (Ht & Ha & Hr & Hp)].
  - split; [|left; exact Ha]. split.
    + congruence.
    + lia.
    + rewrite Hcount, HA, Ha, Hr, Hfalse. lia.
    + right. exists g, v, st1, jreq. repeat split; try assumption. congruence.
  - split; [|right; exact Hr]. split.
    + congruence.
    + lia.
    + rewrite Hcount, HA, Ha, Hr, Hfalse. lia.
    + right. exists g, v, st1, jreq. repeat split; try assumption. congruence.
Qed.

Lemma looped_start (L : library) (W : world) (max_retries : nat) (st : state) :
  looped L W max_retries st st loop_start.
Proof.
  split; try reflexivity.
  - cbn. lia.
  - cbn. lia.
  - left. reflexivity.
Qed.

(** The loop keeps any property [J] of its variables that one pass keeps. *)
Lemma while_loop_keeps (L : library) (W : world) (max_retries : nat)
    (model_id customer_data_str brand_guidelines : string)
    (features : option customer_features) (J : loop_state -> Prop) (st0 : state) :
  J loop_start ->
  (forall ls ls' st st',
     J ls -> retry_count ls <= max_retries -> approved ls = false ->
     attempted L W ls ls' st st'
       (generator_request L model_id customer_data_str brand_guidelines
          (retry_count ls) (previous_feedback ls) features) ->
     J ls') ->
  wp (while_loop L W (S max_retries) max_retries model_id customer_data_str
        brand_guidelines features loop_start)
     (fun st' r =>
        match r with
        | Ok ls' =>
            (looped L W max_retries st0 st' ls' /\ J ls') /\
            (approved ls' = true \/ max_retries < retry_count ls')
        | Raise e => messages_table st' = messages_table st0 /\ ~ cooperative W
        end) st0.
Proof.
  intros Hstart Hkeep.
  apply (while_loop_rule L W max_retries model_id customer_data_str brand_guidelines
           features (fun st ls => looped L W max_retries st0 st ls /\ J ls)
           (fun st' e => messages_table st' = messages_table st0 /\ ~ cooperative W)).
  - intros ls st [Hl HJ] Hle Hfalse.
    wp_use (attempt_spec L W model_id customer_data_str brand_guidelines features ls st).
    destruct H as [HM' H].
    destruct r as [[fl ls']|e].
    2: { destruct H as [Hfail _].
         split; [rewrite HM'; apply Hl|]. intros HW. apply Hfail.
         apply cooperative_generator_succeeds. exact HW. }
    destruct H as (-> & Hatt).
    split; [reflexivity|].
    destruct (looped_step L W max_retries model_id customer_data_str brand_guidelines
                features st0 st st' ls ls' Hl Hle Hfalse HM' Hatt) as [Hl' Hprog].
    split; [|exact Hprog]. split; [exact Hl'|]. eapply Hkeep; eassumption.
  - split; [apply looped_start | exact Hstart].
  - right. cbn. lia.
Qed.

(** [process_message] around any account of its retry loop that establishes
    [J] of the loop variables. *)
Lemma process_message_after (L : library) (W : world) (body : message_body)
    (st : state) (J : loop_state -> Prop) :
  (forall p st1 model_id brand_guidelines features,
     webhook_payload body = Some p ->
     same_but_cache st st1 ->
     wp (while_loop L W (S MAX_RETRIES) MAX_RETRIES model_id
           (format_customer_data L p) brand_guidelines features loop_start)
        (fun st' r =>
           match r with
           | Ok ls =>
               (looped L W MAX_RETRIES st1 st' ls /\ J ls) /\
               (approved ls = true \/ MAX_RETRIES < retry_count ls)
           | Raise e => messages_table st' = messages_table st1 /\ ~ cooperative W
           end) st1) ->
  wp (process_message L W body)
     (fun st' r =>
        (messages_table st' = messages_table st /\
         (exists e, r = Raise e) /\
         ~ (cooperative W /\ is_Some (webhook_payload body)))
        \/
        (exists p rec ls,
           webhook_payload body = Some p /\ decided L W p st st' rec ls /\
           J ls /\ reported W p rec ls st' r))
     st.
Proof.
  intros Hloop.
  unfold process_message.
  destruct (webhook_payload body) as [p|] eqn:Hp.
  2: { wp_step. left. split; [reflexivity|]. split; [eauto|].
       intros [_ [? ?]]. discriminate. }
  wp_step.
  eapply wp_mono.
  { apply (generate_and_validate_rule L W MAX_RETRIES p st
             (fun st' r =>
                match r with
                | Ok (_, _, ls) =>
                    (looped L W MAX_RETRIES st st' ls /\ J ls) /\
                    (approved ls = true \/ MAX_RETRIES < retry_count ls)
                | Raise e => messages_table st' = messages_table st /\ ~ cooperative W
                end)).
    - intros st1 e S1 Hno. split; [apply S1|]. intros HW. apply Hno.
      apply cooperative_configured. exact HW.
    - intros st1 table agent guidelines features S1.
      wp_use (Hloop p st1 (model_id agent) guidelines features eq_refl S1).
      destruct r as [ls|e].
      + destruct H as [[Hl HJ] Hexit]. split; [|exact Hexit]. split; [|exact HJ].
        eapply looped_rebase; eassumption.
      + destruct H as [HM HW]. split; [|exact HW].
        destruct S1 as (_ & M & _). congruence. }
  cbn beta. intros st' r H.
  destruct r as [[[table agent] ls]|e].
  2: { left. destruct H as [HM HW]. split; [exact HM|]. split; [eauto|].
       intros [HW' _]. auto. }
  destruct H as [[Hl HJ] Hexit].
  destruct (looped_ran _ _ _ _ _ _ Hl Hexit)
    as (g & v & st1 & jreq & Hg & Hv & Hcontent & Hmax & Hjv & Happ).
  assert (Hreason : v !! "reason" = None).
  { rewrite Hjv. apply judge_verdict_shape. }
  wp_step.
  wp_use (generate_email_subject_frame W
            (default "Valued Customer" (first_name (get_customer p))) st').
  destruct H as ([subject ->] & M1 & B1).
  wp_steps. rewrite Hg, Hv. wp_steps.
  unfold store_in_dynamodb. wp_step.
  match goal with
  | |- context [messages_put_item_ok W ?r] =>
      set (rec := r); destruct (messages_put_item_ok W rec) eqn:Hput
  end.
  2: { wp_steps. left. split.
       - cbn. rewrite M1. apply Hl.
       - split; [eauto|].
         intros [HW _]. rewrite (store_accepts W HW) in Hput. discriminate. }
  wp_steps.
  assert (Hdec : forall stf,
            messages_table stf = <[messageId rec := rec]> (messages_table st'0) ->
            bedrock_log stf = bedrock_log st'0 ->
            decided L W p st stf rec ls).
  { intros stf HMf HBf.
    destruct Hl as [HM HB HA HR].
    split.
    - rewrite HMf, M1, HM. reflexivity.
    - reflexivity.
    - reflexivity.
    - unfold rec. cbn. unfold Json.get. rewrite Hreason. reflexivity.
    - reflexivity.
    - reflexivity.
    - reflexivity.
    - exists v, st1, jreq. repeat split; assumption.
    - unfold generation_attempts in *. rewrite HBf, B1. exact HA.
    - exact HB.
    - exact Hexit. }
  unfold put_metric_data. wp_steps.
  fold (delivery_metrics (retry_count ls)).
  match goal with
  | |- context [cloudwatch_put_ok W ?n ?d] => destruct (cloudwatch_put_ok W n d) eqn:Hcw
  end.
  - wp_steps.
    destruct (email (get_customer p)) as [e|] eqn:He; wp_steps;
      right; exists p, rec, ls; (split; [reflexivity|]);
      (split; [apply Hdec; reflexivity|]); (split; [exact HJ|]);
      (split; [exact Hput|]).
    + cbn. repeat split; try reflexivity; try exact He. apply last_snoc.
    + right. repeat split; try exact He. cbn. apply last_snoc.
  - wp_steps. right. exists p, rec, ls. split; [reflexivity|].
    split; [apply Hdec; reflexivity|]. split; [exact HJ|]. split; [exact Hput|].
    left. split; [reflexivity|]. eauto.
Qed.

Lemma process_message_run (L : library) (W : world) (body : message_body)
    (st : state) (J : loop_state -> Prop) :
  J loop_start ->
  (forall model_id customer_data_str brand_guidelines features ls ls' st1 st2,
     J ls -> retry_count ls <= MAX_RETRIES -> approved ls = false ->
     attempted L W ls ls' st1 st2
       (generator_request L model_id customer_data_str brand_guidelines
          (retry_count ls) (previous_feedback ls) features) ->
     J ls') ->
  wp (process_message L W body)
     (fun st' r =>
        (messages_table st' = messages_table st /\
         (exists e, r = Raise e) /\
         ~ (cooperative W /\ is_Some (webhook_payload body)))
        \/
        (exists p rec ls,
           webhook_payload body = Some p /\ decided L W p st st' rec ls /\
           J ls /\ reported W p rec ls st' r))
     st.
Proof.
  intros Hstart Hkeep. apply process_message_after.
  intros p st1 model_id brand_guidelines features _ _.
  apply (while_loop_keeps L W MAX_RETRIES model_id (format_customer_data L p)
           brand_guidelines features J st1 Hstart
           (Hkeep model_id (format_customer_data L p) brand_guidelines features)).
Qed.

Lemma sample_world_configured g j m s : configured (sample_world g j m s).
Proof.
  split; try (eexists; reflexivity); intros b; eexists; reflexivity.
Qed.

Lemma sample_world_cooperative (text : string) j :
  cooperative (sample_world (Some text) j (fun d => (length d =? 1)%nat) true).
Proof.
  split.
  - eexists. reflexivity.
  - eexists. reflexivity.
  - eexists. reflexivity.
  - intros b. eexists. reflexivity.
  - intros n r Hr. cbn. rewrite Hr. eexists. reflexivity.
  - intros n t. reflexivity.
  - intros r. reflexivity.
Qed.

Lemma approved_key_of_verdict (L : library) (W : world) (st : state)
    (request : converse_request) (d : json) :
  Json.get (judge_verdict L W st request) "approved" d
  = Json.get (judge_verdict L W st request) "approved" JNull.
Proof.
  destruct (judge_verdict_shape L W st request) as (_ & [a Ha] & _).
  unfold Json.get. rewrite Ha. reflexivity.
Qed.

Lemma approved_in_time_kept (L : library) (W : world)
    (model_id customer_data_str brand_guidelines : string)
    (features : option customer_features) (ls ls' : loop_state) (st1 st2 : state) :
  approved_in_time ls -> retry_count ls <= MAX_RETRIES -> approved ls = false ->
  attempted L W ls ls' st1 st2
    (generator_request L model_id customer_data_str brand_guidelines
       (retry_count ls) (previous_feedback ls) features) ->
  approved_in_time ls'.
Proof.
  intros _ Hle Hfalse (g & v & st & jreq & _ & _ & _ & _ & _ & _ & Hcase) Ha.
  destruct Hcase as [(_ & _ & Hr & _) | (_ & Ha' & _)]; [lia | congruence].
Qed.

(** X11.  In a world whose collaborators answer, the record
    [process_message] writes is consistent with the run.  Either its status
    is approved, the recorded verdict is an approval, the retry count is at
    most MAX_RETRIES and one more generation than that was made; or its
    status is rejected, the recorded verdict is not an approval, the retry
    count is MAX_RETRIES + 1 and exactly that many generations were made. *)
Theorem decision_record_is_consistent (L : library) (W : world)
    (body : message_body) (p : payload) (st : state) :
  cooperative W ->
  webhook_payload body = Some p ->
  wp (process_message L W body)
     (fun st' _ =>
        exists rec,
          messages_table st' !! messageId rec = Some rec /\
          customerData rec = p /\
          ((status rec = "approved" /\
            Json.truthy (judgeApproved rec) = true /\
            retryCount rec <= MAX_RETRIES /\
            generation_attempts st' = (generation_attempts st + retryCount rec + 1)%nat)
           \/
           (status rec = "rejected" /\
            Json.truthy (judgeApproved rec) = false /\
            retryCount rec = S MAX_RETRIES /\
            generation_attempts st' = (generation_attempts st + S MAX_RETRIES)%nat)))
     st.
Proof.
  intros HW Hp.
  wp_use (process_message_run L W body st approved_in_time
            ltac:(intros H; discriminate H) (approved_in_time_kept L W)).
  destruct H as [(_ & _ & Hno) | (p' & rec & ls & Hp' & Hd & HJ & _)].
  { exfalso. apply Hno. split; [exact HW|]. rewrite Hp. eauto. }
  rewrite Hp in Hp'. injection Hp' as <-.
  exists rec. split; [eapply decided_persisted; exact Hd|].
  destruct Hd as [_ Hstatus Hretries _ _ _ Hpayload Hv Hatt Hbound Hexit].
  split; [exact Hpayload|].
  destruct Hv as (v & st1 & jreq & _ & Hmax & -> & Happ & HjA & _).
  rewrite approved_key_of_verdict in HjA. rewrite HjA, <- Happ, Hretries, Hatt, Hstatus.
  destruct (approved ls) eqn:Ha.
  - left. repeat split. apply HJ. exact Ha.
  - right. destruct Hexit as [Hexit|Hexit]; [discriminate|].
    assert (Hr : retry_count ls = S MAX_RETRIES) by lia.
    rewrite Hr. repeat split. lia.
Qed.

Lemma decision_record_is_consistent_witness :
  wp (process_message sample_library
        (world_with (Some (fenced brand_text)) (Some []) true)
        (sample_body (event_of (Some "a@b.com") (Some 5%Q) None)))
     (fun st' _ =>
        exists rec,
          messages_table st' !! messageId rec = Some rec /\
          customerData rec = event_of (Some "a@b.com") (Some 5%Q) None /\
          ((status rec = "approved" /\
            Json.truthy (judgeApproved rec) = true /\
            retryCount rec <= MAX_RETRIES /\
            generation_attempts st'
            = (generation_attempts initial_state + retryCount rec + 1)%nat)
           \/
           (status rec = "rejected" /\
            Json.truthy (judgeApproved rec) = false /\
            retryCount rec = S MAX_RETRIES /\
            generation_attempts st'
            = (generation_attempts initial_state + S MAX_RETRIES)%nat)))
     initial_state.
Proof.
  apply decision_record_is_consistent.
  - apply world_with_cooperative.
  - reflexivity.
Defined.

Lemma judge_verdict_approves (L : library) (W : world) (st : state)
    (request : converse_request) :
  judge_always_approves L W ->
  maxTokens request = 500%Z ->
  Json.truthy (Json.get (judge_verdict L W st request) "approved" JNull) = true.
Proof.
  intros Happ Hmax. unfold judge_verdict.
  destruct (Happ (length (bedrock_log st)) request Hmax)
    as (text & judgment & -> & -> & Htrue & Hmetric).
  rewrite Hmetric. unfold Json.get at 1.
  rewrite (proj1 (proj2 (verdict_of_shape judgment _))). exact Htrue.
Qed.

(** X12.  When the judge approves every email, [process_message] generates
    once and writes an approved record with retry count 0. *)
Theorem first_approval_ends_the_loop (L : library) (W : world)
    (body : message_body) (p : payload) (st : state) :
  cooperative W ->
  judge_always_approves L W ->
  webhook_payload body = Some p ->
  wp (process_message L W body)
     (fun st' _ =>
        generation_attempts st' = S (generation_attempts st) /\
        exists rec,
          messages_table st' !! messageId rec = Some rec /\
          customerData rec = p /\
          status rec = "approved" /\
          Json.truthy (judgeApproved rec) = true /\
          retryCount rec = 0%nat)
     st.
Proof.
  intros HW Happroves Hp.
  wp_use (process_message_run L W body st (fun ls => retry_count ls = 0%nat) eq_refl).
  { intros model_id customer_data_str brand_guidelines features ls ls' st1 st2
      HJ _ _ (g & v & st0 & jreq & _ & Hmax & -> & _ & _ & _ & Hcase).
    rewrite (judge_verdict_approves L W st0 jreq Happroves Hmax) in Hcase.
    destruct Hcase as [(_ & _ & Hr & _) | (Hf & _)]; [congruence | discriminate]. }
  destruct H as [(_ & _ & Hno) | (p' & rec & ls & Hp' & Hd & HJ & _)].
  { exfalso. apply Hno. split; [exact HW|]. rewrite Hp. eauto. }
  rewrite Hp in Hp'. injection Hp' as <-.
  pose proof (decided_persisted _ _ _ _ _ _ _ Hd) as Hstored.
  destruct Hd as [_ Hstatus Hretries _ _ _ Hpayload Hv Hatt Hbound Hexit].
  destruct Hv as (v & st1 & jreq & _ & Hmax & -> & Happ & HjA & _).
  rewrite approved_key_of_verdict in HjA.
  pose proof (judge_verdict_approves L W st1 jreq Happroves Hmax) as Htrue.
  rewrite Htrue in Happ.
  split; [rewrite Hatt, Happ, HJ; lia|].
  exists rec. split; [exact Hstored|]. split; [exact Hpayload|].
  split; [rewrite Hstatus, Happ; reflexivity|].
  split; [rewrite HjA; exact Htrue|].
  rewrite Hretries. exact HJ.
Qed.

Lemma parse_approval_text :
  parse_judgment approving_library (fenced approval_text) = Ok approval_judgment.
Proof. vm_compute. reflexivity. Qed.

Lemma approvals_always :
  judge_always_approves approving_library
    (sample_world (Some " Hello there ") (fun _ => Some (fenced approval_text))
       (fun _ => true) true).
Proof.
  intros n r Hmax. exists (fenced approval_text), approval_judgment.
  split; [cbn; rewrite Hmax; reflexivity|].
  split; [apply parse_approval_text|]. split; reflexivity.
Qed.

Lemma sample_world_all_metrics (text : string) j :
  cooperative (sample_world (Some text) j (fun _ => true) true).
Proof.
  split.
  - eexists. reflexivity.
  - eexists. reflexivity.
  - eexists. reflexivity.
  - intros b. eexists. reflexivity.
  - intros n r Hr. cbn. rewrite Hr. eexists. reflexivity.
  - intros n t. reflexivity.
  - intros r. reflexivity.
Qed.

Lemma first_approval_ends_the_loop_witness :
  wp (process_message approving_library
        (sample_world (Some " Hello there ") (fun _ => Some (fenced approval_text))
           (fun _ => true) true)
        (sample_body (event_of (Some "a@b.com") (Some 5%Q) None)))
     (fun st' _ =>
        generation_attempts st' = S (generation_attempts initial_state) /\
        exists rec,
          messages_table st' !! messageId rec = Some rec /\
          customerData rec = event_of (Some "a@b.com") (Some 5%Q) None /\
          status rec = "approved" /\
          Json.truthy (judgeApproved rec) = true /\
          retryCount rec = 0%nat)
     initial_state.
Proof.
  apply first_approval_ends_the_loop.
  - apply sample_world_all_metrics.
  - apply approvals_always.
  - reflexivity.
Defined.

Lemma judge_verdict_without_metrics (L : library) (W : world) (st : state)
    (request : converse_request) :
  judge_metrics_refused W ->
  exists what, judge_verdict L W st request = failed_verdict what.
Proof.
  intros Hrefused. unfold judge_verdict.
  destruct (bedrock_converse W _ request) as [text|]; [|eauto].
  destruct (parse_judgment L text) as [judgment|e]; [|eauto].
  rewrite Hrefused. eauto.
Qed.

(** X13.  When CloudWatch refuses the judge's metrics, [call_bedrock_judge]
    publishes nothing and returns the failure verdict whatever the judge
    answered; [process_message] then uses all its attempts and writes a
    rejected record with judge score 0. *)
Theorem unpublished_judgment_is_a_rejection (L : library) (W : world)
    (model_id generated_email brand_guidelines customer_data_str : string)
    (body : message_body) (p : payload) (st : state) :
  judge_metrics_refused W ->
  wp (call_bedrock_judge L W model_id generated_email brand_guidelines
        customer_data_str)
     (fun st' r =>
        metrics_log st' = metrics_log st /\
        exists v, r = Ok v /\
          v !! "approved" = Some (JBool false) /\
          v !! "score" = Some (JNum 0) /\
          v !! "issues" = Some (JArr [JStr "Judge evaluation failed"]))
     st /\
  (cooperative W ->
   webhook_payload body = Some p ->
   wp (process_message L W body)
      (fun st' _ =>
         generation_attempts st' = (generation_attempts st + S MAX_RETRIES)%nat /\
         exists rec,
           messages_table st' !! messageId rec = Some rec /\
           customerData rec = p /\
           status rec = "rejected" /\
           retryCount rec = S MAX_RETRIES /\
           judgeApproved rec = JBool false /\
           llmJudgeScore rec = JNum 0 /\
           judgeIssues rec = JArr [JStr "Judge evaluation failed"])
      st).
Proof.
  intros Hrefused. split.
  - unfold call_bedrock_judge. wp_steps.
    unfold converse. wp_steps. cbn [bedrock_log with_ticks].
    destruct (bedrock_converse W (length (bedrock_log st)) _) as [text|]; wp_steps.
    2: { split; [reflexivity|]. eexists. split; [reflexivity|]. repeat split. }
    destruct (parse_judgment L text) as [judgment|e]; wp_steps.
    2: { split; [reflexivity|]. eexists. split; [reflexivity|]. repeat split. }
    unfold put_metric_data. wp_steps. rewrite Hrefused. wp_steps.
    split; [reflexivity|]. eexists. split; [reflexivity|]. repeat split.
  - intros HW Hp.
    wp_use (process_message_cooperative L W body p st HW Hp).
    destruct H as (rec & ls & Hd).
    pose proof (decided_persisted _ _ _ _ _ _ _ Hd) as Hstored.
    destruct Hd as [_ Hstatus Hretries _ _ _ Hpayload Hv Hatt Hbound Hexit].
    destruct Hv as (v & st1 & jreq & _ & Hmax & -> & Happ & HjA & HjS & HjI & _).
    destruct (judge_verdict_without_metrics L W st1 jreq Hrefused) as [what Hw].
    rewrite Hw in *.
    change (Json.truthy _) with false in Happ. rewrite Happ in *.
    destruct Hexit as [Hexit|Hexit]; [discriminate|].
    assert (Hr : retry_count ls = S MAX_RETRIES) by lia.
    split; [rewrite Hatt, Hr; lia|].
    exists rec. rewrite Hretries, Hr. repeat split; assumption.
Qed.

Lemma unpublished_judgment_is_a_rejection_witness :
  let W := sample_world (Some " Hello there ") (fun _ => Some (fenced approval_text))
             (fun d => (length d =? 1)%nat) true in
  parse_judgment approving_library (fenced approval_text) = Ok approval_judgment /\
  (exists v,
     outcome (call_bedrock_judge approving_library W "m" "text" "guidelines" "{}"
                initial_state) = Ok v /\
     v !! "approved" = Some (JBool false)) /\
  exists rec,
    messages_table
      (final_state (process_message approving_library W
                      (sample_body (event_of (Some "a@b.com") (Some 5%Q) None))
                      initial_state))
      !! messageId rec = Some rec /\
    status rec = "rejected" /\
    retryCount rec = 3%nat.
Proof.
  intros W.
  destruct (unpublished_judgment_is_a_rejection approving_library W
              "m" "text" "guidelines" "{}"
              (sample_body (event_of (Some "a@b.com") (Some 5%Q) None))
              (event_of (Some "a@b.com") (Some 5%Q) None) initial_state
              (fun _ _ => eq_refl))
    as [Hjudge Hpipeline].
  split; [apply parse_approval_text|]. split.
  - destruct Hjudge as (_ & v & Hv & Ha & _). exists v. auto.
  - destruct (Hpipeline (sample_world_cooperative _ _) eq_refl)
      as (_ & rec & Hstored & _ & Hstatus & Hretry & _).
    exists rec. auto.
Defined.

(** X14.  A result of [process_message] always describes a record that the
    messages table accepted and holds: same message id, retry count and
    decision, the payload of the message, and the delivery metrics published
    last.  When the function raises and the table refuses every write,
    nothing has been stored. *)
Theorem only_stored_decisions_are_reported (L : library) (W : world)
    (body : message_body) (st : state) :
  wp (process_message L W body)
     (fun st' r =>
        match r with
        | Ok res =>
            exists p rec,
              webhook_payload body = Some p /\
              messages_table st' !! res_message_id res = Some rec /\
              messages_put_item_ok W rec = true /\
              messageId rec = res_message_id res /\
              customerData rec = p /\
              email (get_customer p) = Some (res_customer_email res) /\
              retryCount rec = res_retry_count res /\
              status rec = (if res_approved res then "approved" else "rejected") /\
              last (metrics_log st') = Some (delivery_metrics (res_retry_count res))
        | Raise e =>
            (forall rec, messages_put_item_ok W rec = false) ->
            messages_table st' = messages_table st
        end)
     st.
Proof.
  wp_use (process_message_run L W body st (fun _ => True) I
            ltac:(intros; exact I)).
  destruct H as [(HM & [e ->] & Hno) | (p & rec & ls & Hp & Hd & _ & Hput & Hr)].
  - intros _. exact HM.
  - pose proof (decided_persisted _ _ _ _ _ _ _ Hd) as Hstored.
    destruct Hd as [_ Hstatus Hretries _ _ _ Hpayload _ _ _ _].
    destruct r as [res|e].
    + destruct Hr as (He & Hid & Ha & Hrc & Hm).
      exists p, rec. rewrite Hid, Ha, Hrc. repeat split; assumption.
    + intros Hall. rewrite Hall in Hput. discriminate.
Qed.

(** X15.  For a customer without the email key, in a world whose
    collaborators answer, [process_message] generates, writes the record
    under the id or the default identity, publishes the delivery metrics,
    and only then raises KeyError for the missing key. *)
Theorem missing_email_key_fails_after_the_write (L : library) (W : world)
    (body : message_body) (p : payload) (st : state) :
  cooperative W ->
  (forall n k, cloudwatch_put_ok W n (delivery_metrics k) = true) ->
  webhook_payload body = Some p ->
  email (get_customer p) = None ->
  wp (process_message L W body)
     (fun st' r =>
        r = Raise (KeyError "email") /\
        generation_attempts st < generation_attempts st' /\
        exists rec,
          messages_table st' !! messageId rec = Some rec /\
          customerData rec = p /\
          r_customerEmail rec
          = Py.or_else (id (get_customer p)) "unknown@example.com" /\
          last (metrics_log st') = Some (delivery_metrics (retryCount rec)))
     st.
Proof.
  intros HW Hmetrics Hp Hmail.
  wp_use (process_message_run L W body st (fun _ => True) I
            ltac:(intros; exact I)).
  destruct H as [(_ & _ & Hno) | (p' & rec & ls & Hp' & Hd & _ & Hput & Hr)].
  { exfalso. apply Hno. split; [exact HW|]. rewrite Hp. eauto. }
  rewrite Hp in Hp'. injection Hp' as <-.
  pose proof (decided_persisted _ _ _ _ _ _ _ Hd) as Hstored.
  destruct Hd as [_ _ Hretries _ Hident _ Hpayload _ Hatt _ Hexit].
  destruct r as [res|e].
  { destruct Hr as (He & _). congruence. }
  destruct Hr as [(_ & n & Hn) | (-> & _ & Hm)].
  { rewrite Hmetrics in Hn. discriminate. }
  split; [reflexivity|]. split.
  { rewrite Hatt. destruct Hexit as [-> | Hgt]; [lia|].
    unfold MAX_RETRIES in Hgt. lia. }
  exists rec. rewrite Hretries. repeat split; try assumption.
  rewrite Hident. unfold recorded_identity. rewrite Hmail. reflexivity.
Qed.

Lemma missing_email_key_fails_after_the_write_witness :
  wp (process_message sample_library
        (world_with (Some (fenced brand_text)) (Some []) true)
        (sample_body anonymous_event))
     (fun st' r =>
        r = Raise (KeyError "email") /\
        generation_attempts initial_state < generation_attempts st' /\
        exists rec,
          messages_table st' !! messageId rec = Some rec /\
          customerData rec = anonymous_event /\
          r_customerEmail rec
          = Py.or_else (id (get_customer anonymous_event)) "unknown@example.com" /\
          last (metrics_log st') = Some (delivery_metrics (retryCount rec)))
     initial_state.
Proof.
  apply missing_email_key_fails_after_the_write.
  - apply world_with_cooperative.
  - intros n k. reflexivity.
  - reflexivity.
  - reflexivity.
Defined.

Lemma rstrip_rstrip (s : string) : Py.rstrip (Py.rstrip s) = Py.rstrip s.
Proof.
  induction s as [|c r IH]; [reflexivity|].
  cbn [Py.rstrip].
  destruct (Py.rstrip r) as [|d r'] eqn:Hr.
  - destruct (Py.is_space c) eqn:Hc; [reflexivity|].
    cbn [Py.rstrip]. rewrite Hc. reflexivity.
  - change (Py.rstrip (String c (String d r'))) with
      (match Py.rstrip (String d r') with
       | EmptyString => if Py.is_space c then EmptyString else String c EmptyString
       | r'' => String c r''
       end).
    rewrite IH. reflexivity.
Qed.

Lemma lstrip_head (s : string) :
  match Py.lstrip s with
  | EmptyString => True
  | String c _ => Py.is_space c = false
  end.
Proof.
  induction s as [|c r IH]; [exact I|].
  cbn [Py.lstrip]. destruct (Py.is_space c) eqn:Hc; [exact IH | exact Hc].
Qed.

Lemma rstrip_head (c : ascii) (r : string) :
  Py.is_space c = false -> exists r', Py.rstrip (String c r) = String c r'.
Proof.
  intros Hc. cbn [Py.rstrip]. destruct (Py.rstrip r); [rewrite Hc|]; eauto.
Qed.

Lemma strip_strip (s : string) : Py.strip (Py.strip s) = Py.strip s.
Proof.
  unfold Py.strip.
  pose proof (lstrip_head s) as Hh.
  destruct (Py.lstrip s) as [|c r]; [reflexivity|].
  destruct (rstrip_head c r Hh) as [r' Hr'].
  assert (Hl : Py.lstrip (Py.rstrip (String c r)) = Py.rstrip (String c r)).
  { rewrite Hr'. cbn [Py.lstrip]. rewrite Hh. reflexivity. }
  rewrite Hl. apply rstrip_rstrip.
Qed.

Lemma call_bedrock_generator_result (L : library) (W : world)
    (model_id customer_data_str brand_guidelines : string) (retry_count : nat)
    (previous_feedback : json) (features : option customer_features) (st : state) :
  let request := generator_request L model_id customer_data_str brand_guidelines
                   retry_count previous_feedback features in
  let t := converse_seconds W (length (bedrock_log st)) in
  let timing := [ {| MetricName := "GenerationTime"; Value := JNum t |} ] in
  wp (call_bedrock_generator L W model_id customer_data_str brand_guidelines
        retry_count previous_feedback features)
     (fun st' r =>
        messages_table st' = messages_table st /\
        bedrock_log st' = (bedrock_log st ++ [request])%list /\
        match bedrock_converse W (length (bedrock_log st)) request with
        | None => r = Raise (ClientError "bedrock") /\ metrics_log st' = metrics_log st
        | Some text =>
            if cloudwatch_put_ok W (length (metrics_log st)) timing
            then r = Ok {| email_content := Py.strip text; generation_time := t;
                           g_model_id := model_id; g_retry_count := retry_count |} /\
                 metrics_log st' = (metrics_log st ++ [timing])%list
            else r = Raise (ClientError "cloudwatch") /\
                 metrics_log st' = metrics_log st
        end)
     st.
Proof.
  intros request t timing. unfold call_bedrock_generator. fold request.
  wp_step. wp_step. unfold converse. wp_steps.
  destruct (bedrock_converse W (length (bedrock_log st)) request) as [text|] eqn:Hc;
    wp_steps.
  - unfold put_metric_data. wp_steps. cbn [metrics_log with_bedrock_log].
    fold t. fold timing.
    destruct (cloudwatch_put_ok W (length (metrics_log st)) timing) eqn:Hm; wp_steps;
      repeat split.
  - repeat split.
Qed.

(** X16.  [call_bedrock_generator] sends exactly one request, for 1000
    tokens at temperature 0.7 on the first attempt and 0.8 on a retry.  The
    content it returns is the stripped answer, so stripping it again changes
    nothing, and the generation time is published; when the call or the
    publication fails the error is raised and no metric is recorded. *)
Theorem generation_is_logged_and_stripped (L : library) (W : world)
    (model_id customer_data_str brand_guidelines : string) (retry_count : nat)
    (previous_feedback : json) (features : option customer_features) (st : state) :
  wp (call_bedrock_generator L W model_id customer_data_str brand_guidelines
        retry_count previous_feedback features)
     (fun st' r =>
        (exists request,
           bedrock_log st' = (bedrock_log st ++ [request])%list /\
           modelId request = model_id /\
           maxTokens request = 1000%Z /\
           temperature request = (if (retry_count =? 0)%nat then 7 # 10 else 8 # 10)) /\
        match r with
        | Ok g =>
            (exists text, email_content g = Py.strip text) /\
            Py.strip (email_content g) = email_content g /\
            g_model_id g = model_id /\
            g_retry_count g = retry_count /\
            metrics_log st'
            = (metrics_log st ++
               [[ {| MetricName := "GenerationTime";
                     Value := JNum (generation_time g) |} ]])%list
        | Raise _ => metrics_log st' = metrics_log st
        end)
     st.
Proof.
  wp_use (call_bedrock_generator_result L W model_id customer_data_str brand_guidelines
            retry_count previous_feedback features st).
  cbv zeta in H. destruct H as (_ & Hlog & Hcase).
  split.
  { eexists. split; [exact Hlog|]. repeat split. }
  destruct (bedrock_converse W _ _) as [text|].
  - destruct (cloudwatch_put_ok W _ _).
    + destruct Hcase as [-> Hm]. cbn [email_content g_model_id g_retry_count generation_time].
      split; [eauto|]. split; [apply strip_strip|]. repeat split. exact Hm.
    + destruct Hcase as [-> Hm]. exact Hm.
  - destruct Hcase as [-> Hm]. exact Hm.
Qed.

Lemma attempt_without_generator (L : library) (W : world)
    (model_id customer_data_str brand_guidelines : string)
    (features : option customer_features) (ls : loop_state) (st : state) :
  generator_down W ->
  wp (attempt L W model_id customer_data_str brand_guidelines features ls)
     (fun st' r =>
        r = Raise (ClientError "bedrock") /\
        messages_table st' = messages_table st /\
        metrics_log st' = metrics_log st /\
        generation_attempts st' = S (generation_attempts st) /\
        length (bedrock_log st') = S (length (bedrock_log st)))
     st.
Proof.
  intros Hdown. unfold attempt. wp_step.
  wp_use (call_bedrock_generator_result L W model_id customer_data_str brand_guidelines
            (retry_count ls) (previous_feedback ls) features st).
  cbv zeta in H. destruct H as (HM & Hlog & Hcase).
  rewrite Hdown in Hcase by reflexivity. destruct Hcase as [-> Hm].
  repeat split; try assumption.
  - unfold generation_attempts. rewrite Hlog, filter_app, length_app.
    rewrite filter_cons_True by reflexivity. rewrite filter_nil. cbn [length]. lia.
  - rewrite Hlog, length_app. cbn [length]. lia.
Qed.

(** X17.  When the generation call fails, [process_message] raises after a
    single attempt: the retry loop is for rejections only.  Nothing is
    stored and no metric is published. *)
Theorem generator_failure_is_not_retried (L : library) (W : world)
    (body : message_body) (p : payload) (st : state) :
  configured W ->
  generator_down W ->
  webhook_payload body = Some p ->
  wp (process_message L W body)
     (fun st' r =>
        (exists e, r = Raise e) /\
        messages_table st' = messages_table st /\
        metrics_log st' = metrics_log st /\
        generation_attempts st' = S (generation_attempts st) /\
        length (bedrock_log st') = S (length (bedrock_log st)))
     st.
Proof.
  intros HW Hdown Hp. unfold process_message. rewrite Hp. wp_step.
  eapply wp_mono.
  { apply (generate_and_validate_rule L W MAX_RETRIES p st
             (fun st' r =>
                (exists e, r = Raise e) /\
                messages_table st' = messages_table st /\
                metrics_log st' = metrics_log st /\
                generation_attempts st' = S (generation_attempts st) /\
                length (bedrock_log st') = S (length (bedrock_log st)))).
    - intros st1 e _ Hno. contradiction.
    - intros st1 table agent guidelines features (_ & M & B & Me & _).
      cbn [while_loop loop_start retry_count approved Nat.leb andb negb].
      wp_step.
      wp_use (attempt_without_generator L W (model_id agent) (format_customer_data L p)
                guidelines features loop_start st1 Hdown).
      destruct H as (-> & M' & Me' & Hg & Hl).
      unfold generation_attempts in *. rewrite B in *.
      split; [eauto|]. repeat split; congruence. }
  cbn beta. intros st' r ([e ->] & H). split; [eauto | exact H].
Qed.

Lemma generator_failure_is_not_retried_witness :
  wp (process_message sample_library
        (sample_world None (fun _ => Some (fenced brand_text)) (fun _ => true) true)
        (sample_body (event_of (Some "a@b.com") (Some 5%Q) None)))
     (fun st' r =>
        (exists e, r = Raise e) /\
        messages_table st' = messages_table initial_state /\
        metrics_log st' = metrics_log initial_state /\
        generation_attempts st' = S (generation_attempts initial_state) /\
        length (bedrock_log st') = S (length (bedrock_log initial_state)))
     initial_state.
Proof.
  apply (generator_failure_is_not_retried _ _ _
           (event_of (Some "a@b.com") (Some 5%Q) None)).
  - apply sample_world_configured.
  - intros n r Hr. cbn. rewrite Hr. reflexivity.
  - reflexivity.
Defined.




(** X19.  When the registry table name resolves and the query returns a
    record with its version and model, [get_active_agent] returns that
    record's configuration, with an empty config when the record has none;
    the legacy parameter and any further records are not consulted. *)
Theorem registry_record_takes_precedence (W : world) (agent_id : string)
    (st : state) (table : string) (agent : agent_item) (rest : list agent_item)
    (v m : string) :
  lookup_parameter W st "/referral-system/agent-registry-table-name" = Some table ->
  registry_query W agent_id = Some (agent :: rest) ->
  item_version agent = Some v ->
  bedrockModel agent = Some m ->
  wp (get_active_agent W agent_id)
     (fun st' r =>
        same_but_cache st st' /\
        r = Ok {| model_id := m; version := v;
                  promptTemplate := item_promptTemplate agent;
                  config := default ∅ (item_config agent) |})
     st.
Proof.
  intros Htable Hquery Hv Hm.
  pose proof (get_active_agent_frame W agent_id st) as [Hsame _].
  unfold wp. split; [exact Hsame|].
  rewrite get_active_agent_outcome. unfold registry_record.
  rewrite Htable, Hquery, Hv, Hm. reflexivity.
Qed.

(** X20.  A registry record that lacks its version or its model is not an
    error of [get_active_agent]: the function falls back to the legacy model
    id, and raises the SSM error only when that is unavailable too. *)
Theorem incomplete_registry_record_falls_back (W : world) (agent_id : string)
    (st : state) (agent : agent_item) (rest : list agent_item) :
  registry_query W agent_id = Some (agent :: rest) ->
  item_version agent = None \/ bedrockModel agent = None ->
  wp (get_active_agent W agent_id)
     (fun st' r =>
        same_but_cache st st' /\
        r = match lookup_parameter W st "/referral-system/bedrock-model-id" with
            | Some m => Ok (legacy_agent m)
            | None => Raise (ClientError "ssm")
            end)
     st.
Proof.
  intros Hquery Hmissing.
  pose proof (get_active_agent_frame W agent_id st) as [Hsame _].
  unfold wp. split; [exact Hsame|].
  rewrite get_active_agent_outcome.
  assert (Hrec : registry_record W st agent_id = None).
  { unfold registry_record. rewrite Hquery.
    destruct (lookup_parameter W st "/referral-system/agent-registry-table-name");
      [|reflexivity].
    destruct Hmissing as [-> | ->]; [reflexivity|].
    destruct (item_version agent); reflexivity. }
  rewrite Hrec. reflexivity.
Qed.

Lemma registry_record_takes_precedence_witness :
  wp (get_active_agent (world_with None (Some [registered_agent; incomplete_agent]) true)
        "upsell-generator")
     (fun st' r =>
        same_but_cache initial_state st' /\
        r = Ok {| model_id := "amazon.nova-pro-v1:0"; version := "3";
                  promptTemplate := Some "template-3"; config := ∅ |})
     initial_state.
Proof.
  apply (registry_record_takes_precedence
           (world_with None (Some [registered_agent; incomplete_agent]) true)
           "upsell-generator" initial_state
           "value-of-/referral-system/agent-registry-table-name"
           registered_agent [incomplete_agent] "3" "amazon.nova-pro-v1:0");
    reflexivity.
Defined.

Lemma incomplete_registry_record_falls_back_witness :
  wp (get_active_agent (world_with None (Some [incomplete_agent; registered_agent]) true)
        "upsell-generator")
     (fun st' r =>
        same_but_cache initial_state st' /\
        r = Ok (legacy_agent "value-of-/referral-system/bedrock-model-id"))
     initial_state.
Proof.
  apply (incomplete_registry_record_falls_back
           (world_with None (Some [incomplete_agent; registered_agent]) true)
           "upsell-generator" initial_state incomplete_agent [registered_agent]).
  - reflexivity.
  - right. reflexivity.
Defined.

(** *** Code fences in the answer of the judge *)

Lemma append_empty (s : string) : s ++ EmptyString = s.
Proof.
  induction s as [|c r IH]; [reflexivity|].
  change (String c (r ++ EmptyString) = String c r). rewrite IH. reflexivity.
Qed.

Lemma append_cons (a : string) (c : ascii) (r : string) :
  (a ++ String c EmptyString) ++ r = a ++ String c r.
Proof. rewrite append_assoc. reflexivity. Qed.

Lemma prefix_app (a b : string) : String.prefix a (a ++ b) = true.
Proof.
  induction a as [|c r IH]; [destruct b; reflexivity|].
  change (String.prefix (String c r) (String c (r ++ b)) = true).
  cbn [String.prefix]. destruct (ascii_dec c c) as [_|Hne]; [exact IH | congruence].
Qed.

Lemma prefix_mismatch (c d : ascii) (sep s : string) :
  Ascii.eqb d c = false -> String.prefix (String c sep) (String d s) = false.
Proof.
  intros Hne. cbn [String.prefix].
  destruct (ascii_dec c d) as [->|_]; [|reflexivity].
  rewrite Ascii.eqb_refl in Hne. discriminate.
Qed.

Lemma substring_full (s : string) : String.substring 0 (String.length s) s = s.
Proof.
  induction s as [|c r IH]; [reflexivity|].
  cbn [String.length String.substring]. rewrite IH. reflexivity.
Qed.

Lemma substring_after (a b : string) :
  String.substring (String.length a) (String.length (a ++ b) - String.length a) (a ++ b)
  = b.
Proof.
  induction a as [|c r IH].
  - change (EmptyString ++ b) with b. cbn [String.length].
    rewrite Nat.sub_0_r. apply substring_full.
  - change (String c r ++ b) with (String c (r ++ b)).
    cbn [String.length String.substring]. exact IH.
Qed.

Lemma contains_of_prefix (sub s : string) :
  String.prefix sub s = true -> Py.contains sub s = true.
Proof. intros H. destruct s; cbn [Py.contains]; rewrite H; reflexivity. Qed.

Lemma contains_skip (sub a s : string) :
  Py.contains sub s = true -> Py.contains sub (a ++ s) = true.
Proof.
  intros H. induction a as [|c r IH]; [exact H|].
  change (String c r ++ s) with (String c (r ++ s)).
  cbn [Py.contains]. rewrite IH. apply orb_true_r.
Qed.

Lemma contains_app (sub a b : string) : Py.contains sub (a ++ sub ++ b) = true.
Proof. apply contains_skip, contains_of_prefix, prefix_app. Qed.

Lemma contains_end (sub a : string) : Py.contains sub (a ++ sub) = true.
Proof.
  rewrite <- (append_empty sub) at 2. apply contains_app.
Qed.

Lemma contains_start (sub b : string) : Py.contains sub (sub ++ b) = true.
Proof. apply contains_of_prefix, prefix_app. Qed.

(** A text without backticks has no occurrence of a separator that starts
    with one: [split] returns it whole. *)
Lemma split_aux_plain (sep' : string) (s : string) :
  no_backtick s = true ->
  forall fuel acc, Py.split_aux fuel (String "`" sep') s acc = [acc ++ s].
Proof.
  induction s as [|c r IH]; intros Hs fuel acc.
  - destruct fuel; cbn [Py.split_aux]; rewrite ?append_empty; reflexivity.
  - cbn [no_backtick] in Hs. apply andb_prop in Hs as [Hc Hr].
    apply negb_true_iff in Hc.
    destruct fuel as [|fuel]; [reflexivity|].
    cbn [Py.split_aux]. rewrite (prefix_mismatch _ _ _ _ Hc).
    rewrite (IH Hr). rewrite append_cons. reflexivity.
Qed.

(** Up to the first occurrence of the separator after a text without
    backticks. *)
Lemma split_aux_head (sep' : string) (pre rest : string) :
  no_backtick pre = true ->
  forall fuel acc,
    String.length pre < fuel ->
    Py.split_aux fuel (String "`" sep') (pre ++ String "`" sep' ++ rest) acc
    = (acc ++ pre)
      :: Py.split_aux (fuel - S (String.length pre)) (String "`" sep') rest EmptyString.
Proof.
  induction pre as [|c r IH]; intros Hs fuel acc Hfuel.
  - destruct fuel as [|fuel]; [cbn in Hfuel; lia|].
    change (EmptyString ++ String "`" sep' ++ rest) with (String "`" sep' ++ rest).
    change (String "`" sep' ++ rest) with (String "`" (sep' ++ rest)) at 1.
    cbn [Py.split_aux].
    change (String "`" (sep' ++ rest)) with (String "`" sep' ++ rest).
    rewrite prefix_app, substring_after, append_empty.
    replace (S fuel - S (String.length EmptyString)) with fuel by (cbn; lia).
    reflexivity.
  - cbn [no_backtick] in Hs. apply andb_prop in Hs as [Hc Hr].
    apply negb_true_iff in Hc.
    destruct fuel as [|fuel]; [cbn in Hfuel; lia|].
    change (String c r ++ String "`" sep' ++ rest)
      with (String c (r ++ String "`" sep' ++ rest)).
    cbn [Py.split_aux]. rewrite (prefix_mismatch _ _ _ _ Hc).
    cbn [String.length] in Hfuel.
    rewrite (IH Hr fuel _ ltac:(lia)). rewrite append_cons.
    replace (S fuel - S (String.length (String c r))) with (fuel - S (String.length r))
      by (cbn; lia).
    reflexivity.
Qed.

Lemma prefix_cons (c : ascii) (a b : string) :
  String.prefix (String c a) (String c b) = String.prefix a b.
Proof.
  cbn [String.prefix]. destruct (ascii_dec c c) as [_|Hne]; [reflexivity | congruence].
Qed.

Lemma prefix_plain (sep' s : string) :
  no_backtick s = true -> String.prefix (String "`" sep') s = false.
Proof.
  intros Hs. destruct s as [|c r]; [reflexivity|].
  cbn [no_backtick] in Hs. apply andb_prop in Hs as [Hc _].
  apply negb_true_iff in Hc. apply prefix_mismatch. exact Hc.
Qed.

Lemma contains_plain (sep' s : string) :
  no_backtick s = true -> Py.contains (String "`" sep') s = false.
Proof.
  induction s as [|c r IH]; intros Hs; [reflexivity|].
  cbn [Py.contains]. rewrite (prefix_plain _ _ Hs).
  cbn [no_backtick] in Hs. apply andb_prop in Hs as [_ Hr].
  rewrite (IH Hr). reflexivity.
Qed.

(** A text with no occurrence of the separator is returned whole. *)
Lemma split_aux_absent (sep s : string) :
  Py.contains sep s = false ->
  forall fuel acc, Py.split_aux fuel sep s acc = [acc ++ s].
Proof.
  induction s as [|c r IH]; intros Hs fuel acc.
  - destruct fuel; cbn [Py.split_aux]; rewrite ?append_empty; reflexivity.
  - cbn [Py.contains] in Hs. apply orb_false_elim in Hs as [Hp Hr].
    destruct fuel as [|fuel]; [reflexivity|].
    cbn [Py.split_aux]. rewrite Hp, (IH Hr), append_cons. reflexivity.
Qed.

(** The piece [split] cuts after the opening tag: the body, or the body
    with the closing fence and what follows it. *)
Lemma fence_piece (body post : string) :
  no_backtick body = true ->
  no_backtick post = true ->
  forall fuel acc,
    (exists tail, Py.split_aux fuel "```json" (body ++ "```" ++ post) acc
                  = (acc ++ body) :: tail) \/
    Py.split_aux fuel "```json" (body ++ "```" ++ post) acc
    = [acc ++ body ++ "```" ++ post].
Proof.
  intros Hbody Hpost.
  induction body as [|c r IH]; intros fuel acc.
  - change (EmptyString ++ "```" ++ post) with ("```" ++ post).
    destruct fuel as [|fuel]; [right; reflexivity|].
    destruct (String.prefix "```json" ("```" ++ post)) eqn:Hp.
    + left. change ("```" ++ post) with (String "`" ("``" ++ post)) at 1.
      cbn [Py.split_aux].
      change (String "`" ("``" ++ post)) with ("```" ++ post).
      rewrite Hp, append_empty. eauto.
    + right. apply split_aux_absent.
      change ("```" ++ post) with (String "`" (String "`" (String "`" post))) in *.
      cbn [Py.contains]. rewrite Hp. rewrite !prefix_cons.
      rewrite !(prefix_plain _ _ Hpost). rewrite (contains_plain _ _ Hpost).
      reflexivity.
  - cbn [no_backtick] in Hbody. apply andb_prop in Hbody as [Hc Hr].
    apply negb_true_iff in Hc.
    change (String c r ++ "```" ++ post) with (String c (r ++ "```" ++ post)).
    destruct fuel as [|fuel]; [right; reflexivity|].
    cbn [Py.split_aux]. rewrite (prefix_mismatch _ _ _ _ Hc).
    destruct (IH Hr fuel (acc ++ String c EmptyString)) as [[tail Ht] | Ht];
      rewrite Ht, append_cons; eauto.
Qed.

Lemma length_app_le (a b : string) : String.length a <= String.length (a ++ b).
Proof.
  induction a as [|c r IH]; [cbn; lia|].
  change (String c r ++ b) with (String c (r ++ b)). cbn [String.length]. lia.
Qed.

Lemma first_of_piece (body post x : string) :
  no_backtick body = true ->
  x = body \/ x = body ++ "```" ++ post ->
  index (Py.split "```" x) 0 = Ok body.
Proof.
  intros Hbody [-> | ->]; unfold Py.split.
  - rewrite (split_aux_plain "``" body Hbody). reflexivity.
  - pose proof (length_app_le body ("```" ++ post)) as Hlen.
    rewrite (split_aux_head "``" body post Hbody) by lia.
    reflexivity.
Qed.

Lemma fenced_json_is_extracted (pre body post : string) :
  no_backtick pre = true ->
  no_backtick body = true ->
  no_backtick post = true ->
  extract_json (pre ++ "```json" ++ body ++ "```" ++ post) = Ok (Py.strip body).
Proof.
  intros Hpre Hbody Hpost. unfold extract_json.
  rewrite contains_app. unfold Py.split at 1.
  pose proof (length_app_le pre ("```json" ++ body ++ "```" ++ post)) as Hlen.
  rewrite (split_aux_head "``json" pre (body ++ "```" ++ post) Hpre) by lia.
  cbn [and_then index lookup list_lookup].
  destruct (fence_piece body post Hbody Hpost
              (S (String.length (pre ++ "```json" ++ body ++ "```" ++ post))
               - S (String.length pre)) EmptyString) as [[tail Ht] | Ht];
    rewrite Ht; cbn [index lookup list_lookup and_then];
    change (EmptyString ++ ?x) with x.
  - rewrite (first_of_piece body post body Hbody (or_introl eq_refl)). reflexivity.
  - rewrite (first_of_piece body post _ Hbody (or_intror eq_refl)). reflexivity.
Qed.

Lemma lstrip_app (pre x : string) (c : ascii) :
  Py.is_space c = false ->
  Py.lstrip (pre ++ String c x) = Py.lstrip pre ++ String c x.
Proof.
  intros Hc. induction pre as [|d r IH].
  - change (EmptyString ++ String c x) with (String c x).
    cbn [Py.lstrip]. rewrite Hc. reflexivity.
  - change (String d r ++ String c x) with (String d (r ++ String c x)).
    cbn [Py.lstrip]. destruct (Py.is_space d); [exact IH | reflexivity].
Qed.

Lemma rstrip_cons (c : ascii) (r : string) :
  Py.is_space c = false -> Py.rstrip (String c r) = String c (Py.rstrip r).
Proof.
  intros Hc. cbn [Py.rstrip]. destruct (Py.rstrip r); [rewrite Hc|]; reflexivity.
Qed.

Lemma rstrip_app (a : string) (c : ascii) (t : string) :
  Py.is_space c = false ->
  Py.rstrip (a ++ String c t) = a ++ String c (Py.rstrip t).
Proof.
  intros Hc. induction a as [|d r IH].
  - change (EmptyString ++ String c t) with (String c t). apply rstrip_cons. exact Hc.
  - change (String d r ++ String c t) with (String d (r ++ String c t)).
    cbn [Py.rstrip]. rewrite IH.
    destruct r; reflexivity.
Qed.

Lemma no_backtick_lstrip (s : string) :
  no_backtick s = true -> no_backtick (Py.lstrip s) = true.
Proof.
  induction s as [|c r IH]; intros Hs; [reflexivity|].
  cbn [Py.lstrip]. destruct (Py.is_space c); [|exact Hs].
  cbn [no_backtick] in Hs. apply andb_prop in Hs as [_ Hr]. auto.
Qed.

Lemma no_backtick_rstrip (s : string) :
  no_backtick s = true -> no_backtick (Py.rstrip s) = true.
Proof.
  induction s as [|c r IH]; intros Hs; [reflexivity|].
  cbn [no_backtick] in Hs. apply andb_prop in Hs as [Hc Hr].
  specialize (IH Hr). cbn [Py.rstrip].
  destruct (Py.rstrip r) as [|d r'].
  - destruct (Py.is_space c); [reflexivity|]. cbn [no_backtick]. rewrite Hc. reflexivity.
  - cbn [no_backtick] in *. rewrite Hc. exact IH.
Qed.

Lemma extract_json_plain (s : string) :
  no_backtick s = true -> extract_json s = Ok s.
Proof.
  intros Hs. unfold extract_json.
  rewrite (contains_plain "``json" s Hs), (contains_plain "``" s Hs). reflexivity.
Qed.

(** X21.  An answer of the judge that wraps its JSON in a json code fence,
    with text before and after, is read as the body of the fence alone, when
    none of the three parts contains a backtick. *)
Theorem fenced_judgment_is_parsed (L : library) (pre body post : string) :
  no_backtick pre = true ->
  no_backtick body = true ->
  no_backtick post = true ->
  extract_json (Py.strip (pre ++ "```json" ++ body ++ "```" ++ post))
  = Ok (Py.strip body) /\
  parse_judgment L (pre ++ "```json" ++ body ++ "```" ++ post)
  = parse_judgment L body.
Proof.
  intros Hpre Hbody Hpost.
  assert (Hstrip : Py.strip (pre ++ "```json" ++ body ++ "```" ++ post)
                   = Py.lstrip pre ++ "```json" ++ body ++ "```" ++ Py.rstrip post).
  { unfold Py.strip.
    change ("```json" ++ body ++ "```" ++ post)
      with (String "`" ("``json" ++ body ++ "```" ++ post)).
    rewrite lstrip_app by reflexivity.
    change (String "`" ("``json" ++ body ++ "```" ++ post))
      with ("```json" ++ body ++ "```" ++ post).
    rewrite <- (append_assoc "```json" body), <- (append_assoc (Py.lstrip pre)).
    change ("```" ++ post) with (String "`" ("``" ++ post)).
    rewrite rstrip_app by reflexivity.
    change ("``" ++ post) with (String "`" (String "`" post)).
    rewrite !rstrip_cons by reflexivity.
    rewrite !append_assoc. reflexivity. }
  assert (Hextract : extract_json (Py.strip (pre ++ "```json" ++ body ++ "```" ++ post))
                     = Ok (Py.strip body)).
  { rewrite Hstrip. apply fenced_json_is_extracted.
    - apply no_backtick_lstrip, Hpre.
    - exact Hbody.
    - apply no_backtick_rstrip, Hpost. }
  split; [exact Hextract|].
  unfold parse_judgment. rewrite Hextract.
  rewrite extract_json_plain.
  - reflexivity.
  - unfold Py.strip. apply no_backtick_rstrip, no_backtick_lstrip, Hbody.
Qed.

Lemma fenced_judgment_is_parsed_witness :
  let pre := "Here is my evaluation:" ++ Py.nl in
  let body := Py.nl ++ brand_text ++ Py.nl in
  let post := " Done." in
  no_backtick pre = true /\ no_backtick body = true /\ no_backtick post = true /\
  parse_judgment sample_library (pre ++ "```json" ++ body ++ "```" ++ post)
  = Ok brand_judgment.
Proof.
  intros pre body post.
  split; [reflexivity|]. split; [reflexivity|]. split; [reflexivity|].
  rewrite (proj2 (fenced_judgment_is_parsed sample_library pre body post
                    eq_refl eq_refl eq_refl)).
  vm_compute. reflexivity.
Defined.

(** X22.  [generate_email_subject] never raises, uses one random draw and
    nothing else of the state, and the subject it returns contains the
    customer name. *)
Theorem subject_names_the_customer (W : world) (customer_name : string) (st : state) :
  wp (generate_email_subject W customer_name)
     (fun st' r =>
        draws st' = S (draws st) /\
        messages_table st' = messages_table st /\
        bedrock_log st' = bedrock_log st /\
        metrics_log st' = metrics_log st /\
        exists subject, r = Ok subject /\ Py.contains customer_name subject = true)
     st.
Proof.
  unfold generate_email_subject. wp_steps. unfold index.
  pose proof (Nat.mod_upper_bound (random_index W (draws st)) 5 ltac:(discriminate))
    as Hlt.
  destruct (random_index W (draws st) mod 5) as [|[|[|[|[|n]]]]]; [| | | | |lia];
    cbn [lookup list_lookup]; (repeat (split; [reflexivity|]));
    eexists; (split; [reflexivity|]);
    first [apply contains_start | apply contains_end].
Qed.

Lemma judge_verdict_rejects_at (L : library) (W : world) (st : state)
    (request : converse_request) :
  judge_rejects_at L W (length (bedrock_log st)) ->
  maxTokens request = 500%Z ->
  Json.truthy (Json.get (judge_verdict L W st request) "approved" JNull) = false.
Proof.
  intros Hrej Hmax. unfold judge_verdict.
  destruct (bedrock_converse W _ request) as [text|] eqn:Hc; [|reflexivity].
  destruct (parse_judgment L text) as [judgment|e] eqn:Hp; [|reflexivity].
  destruct (cloudwatch_put_ok W _ _); [|reflexivity].
  unfold Json.get at 1. rewrite (proj1 (proj2 (verdict_of_shape judgment _))).
  exact (Hrej _ _ _ Hmax Hc Hp).
Qed.

Lemma judge_verdict_approves_at (L : library) (W : world) (st : state)
    (request : converse_request) :
  judge_approves_at L W (length (bedrock_log st)) ->
  maxTokens request = 500%Z ->
  Json.truthy (Json.get (judge_verdict L W st request) "approved" JNull) = true.
Proof.
  intros Happ Hmax. unfold judge_verdict.
  destruct (Happ request Hmax) as (text & judgment & -> & -> & Htrue & Hmetric).
  rewrite Hmetric. unfold Json.get at 1.
  rewrite (proj1 (proj2 (verdict_of_shape judgment _))). exact Htrue.
Qed.

(** Where in the Bedrock log the judgment of a pass sits. *)
Lemma attempt_trace (L : library) (W : world)
    (model_id customer_data_str brand_guidelines : string)
    (features : option customer_features) (ls : loop_state) (st : state) :
  wp (attempt L W model_id customer_data_str brand_guidelines features ls)
     (fun st' r =>
        match r with
        | Ok (_, ls') =>
            exists st1 judge_req,
              length (bedrock_log st1) = S (length (bedrock_log st)) /\
              maxTokens judge_req = 500%Z /\
              final_judgment ls' = Some (judge_verdict L W st1 judge_req) /\
              length (bedrock_log st') = (length (bedrock_log st) + 2)%nat
        | Raise _ => True
        end)
     st.
Proof.
  unfold attempt. wp_step.
  wp_use (call_bedrock_generator_spec L W model_id customer_data_str brand_guidelines
            (retry_count ls) (previous_feedback ls) features st).
  destruct H as (_ & B1 & _ & _).
  destruct r as [g|e]; [|exact I].
  wp_step.
  wp_use (call_bedrock_judge_spec L W model_id (email_content g) brand_guidelines
            customer_data_str st').
  destruct H as (-> & _ & B2).
  set (jreq := judge_request L (utcnow_date W (ticks st')) model_id (email_content g)
                 brand_guidelines customer_data_str) in *.
  destruct (judge_verdict_shape L W st' jreq) as (Hreason & [va Hva] & [vf Hvf]).
  set (v := judge_verdict L W st' jreq) in *.
  assert (Hlen1 : length (bedrock_log st') = S (length (bedrock_log st))).
  { rewrite B1, length_app. cbn [length]. lia. }
  assert (Hlen2 : length (bedrock_log st'0) = (length (bedrock_log st) + 2)%nat).
  { rewrite B2, length_app, Hlen1. cbn [length]. lia. }
  wp_step. unfold getitem at 1. rewrite Hva. wp_step.
  destruct (Json.truthy va) eqn:Htruthy; wp_steps.
  - exists st', jreq. repeat split; assumption.
  - unfold getitem. rewrite Hvf. wp_steps.
    unfold Json.get at 1. rewrite Hreason. cbn [Json.eq_str String.eqb].
    change (String.eqb "brand" "appropriateness") with false. cbn iota.
    wp_steps. exists st', jreq. repeat split; assumption.
Qed.

Lemma while_loop_approval_after (L : library) (W : world) (k : nat)
    (model_id customer_data_str brand_guidelines : string)
    (features : option customer_features) (st0 : state) :
  k <= MAX_RETRIES ->
  (forall i, i < k -> judge_rejects_at L W (length (bedrock_log st0) + 2 * i + 1)) ->
  judge_approves_at L W (length (bedrock_log st0) + 2 * k + 1) ->
  wp (while_loop L W (S MAX_RETRIES) MAX_RETRIES model_id customer_data_str
        brand_guidelines features loop_start)
     (fun st' r =>
        match r with
        | Ok ls =>
            (looped L W MAX_RETRIES st0 st' ls /\
             (approved ls = true /\ retry_count ls = k)) /\
            (approved ls = true \/ MAX_RETRIES < retry_count ls)
        | Raise e => messages_table st' = messages_table st0 /\ ~ cooperative W
        end) st0.
Proof.
  intros Hk Hrej Happ.
  set (n0 := length (bedrock_log st0)) in *.
  eapply wp_mono.
  { apply (while_loop_rule L W MAX_RETRIES model_id customer_data_str brand_guidelines
             features
             (fun st ls =>
                looped L W MAX_RETRIES st0 st ls /\
                ((approved ls = false /\ retry_count ls <= k /\
                  length (bedrock_log st) = (n0 + 2 * retry_count ls)%nat)
                 \/ (approved ls = true /\ retry_count ls = k)))
             (fun st' e => messages_table st' = messages_table st0 /\ ~ cooperative W)).
    - intros ls st [Hl Hpos] Hle Hfalse.
      destruct Hpos as [(_ & Hlek & Hlen) | (Htrue & _)]; [|congruence].
      eapply wp_mono.
      { apply wp_and.
        - apply (attempt_spec L W model_id customer_data_str brand_guidelines
                   features ls st).
        - apply (attempt_trace L W model_id customer_data_str brand_guidelines
                   features ls st). }
      cbn beta. intros st' r [[HM' H] Htrace].
      destruct r as [[fl ls']|e].
      2: { destruct H as [Hfail _].
           split; [rewrite HM'; apply Hl|]. intros HW. apply Hfail.
           apply cooperative_generator_succeeds. exact HW. }
      destruct H as (-> & Hatt).
      destruct Htrace as (st1 & jreq & Hlen1 & Hmax & Hfinal & Hlen2).
      split; [reflexivity|].
      destruct (looped_step L W MAX_RETRIES model_id customer_data_str brand_guidelines
                  features st0 st st' ls ls' Hl Hle Hfalse HM' Hatt) as [Hl' Hprog].
      split; [|exact Hprog]. split; [exact Hl'|].
      destruct Hatt as (g & v & st2 & jreq2 & _ & _ & _ & _ & Hj & _ & Hcase).
      assert (Hv : v = judge_verdict L W st1 jreq) by congruence.
      destruct (Nat.eq_dec (retry_count ls) k) as [Heq|Hne].
      + assert (Ht : Json.truthy (Json.get v "approved" JNull) = true).
        { rewrite Hv. apply judge_verdict_approves_at; [|exact Hmax].
          rewrite Hlen1, Hlen, Heq.
          replace (S (n0 + 2 * k)) with (n0 + 2 * k + 1)%nat by lia. exact Happ. }
        rewrite Ht in Hcase.
        destruct Hcase as [(_ & Ha & Hr & _) | (Hf & _)]; [|discriminate].
        right. split; [exact Ha | congruence].
      + assert (Ht : Json.truthy (Json.get v "approved" JNull) = false).
        { rewrite Hv. apply judge_verdict_rejects_at; [|exact Hmax].
          rewrite Hlen1, Hlen.
          replace (S (n0 + 2 * retry_count ls)) with (n0 + 2 * retry_count ls + 1)%nat
            by lia.
          apply Hrej. lia. }
        rewrite Ht in Hcase.
        destruct Hcase as [(Hf & _) | (_ & Ha & Hr & _)]; [discriminate|].
        left. split; [congruence|]. split; [lia|]. rewrite Hlen2, Hlen, Hr. lia.
    - split; [apply looped_start|]. left. cbn [loop_start approved retry_count].
      split; [reflexivity|]. split; [lia|]. unfold n0. lia.
    - right. cbn [loop_start retry_count]. lia. }
  cbn beta. intros st' [ls|e] H; [|exact H].
  destruct H as [[Hl Hpos] Hexit]. split; [|exact Hexit]. split; [exact Hl|].
  destruct Hpos as [(Hf & Hlek & _) | Hdone]; [|exact Hdone].
  destruct Hexit as [Ht|Hgt]; [congruence | lia].
Qed.

(** X23.  When the judge's first k answers are no approvals, with k at most
    MAX_RETRIES, and the next one is an approval, [process_message] makes k
    + 1 generations and writes an approved record with retry count k; the
    result it returns, if it returns one, says the same. *)
Theorem approval_after_rejections (L : library) (W : world)
    (body : message_body) (p : payload) (st : state) (k : nat) :
  cooperative W ->
  webhook_payload body = Some p ->
  k <= MAX_RETRIES ->
  (forall i, i < k -> judge_rejects_at L W (length (bedrock_log st) + 2 * i + 1)) ->
  judge_approves_at L W (length (bedrock_log st) + 2 * k + 1) ->
  wp (process_message L W body)
     (fun st' r =>
        generation_attempts st' = (generation_attempts st + k + 1)%nat /\
        (exists rec,
           messages_table st' !! messageId rec = Some rec /\
           customerData rec = p /\
           status rec = "approved" /\
           retryCount rec = k) /\
        match r with
        | Ok res => res_approved res = true /\ res_retry_count res = k
        | Raise _ => True
        end)
     st.
Proof.
  intros HW Hp Hk Hrej Happ.
  wp_use (process_message_after L W body st
            (fun ls => approved ls = true /\ retry_count ls = k)).
  { intros p' st1 model_id brand_guidelines features _ (_ & _ & B & _).
    apply while_loop_approval_after; rewrite ?B; assumption. }
  destruct H as [(_ & _ & Hno) | (p' & rec & ls & Hp' & Hd & [Ha Hr] & _ & Hres)].
  { exfalso. apply Hno. split; [exact HW|]. rewrite Hp. eauto. }
  rewrite Hp in Hp'. injection Hp' as <-.
  pose proof (decided_persisted _ _ _ _ _ _ _ Hd) as Hstored.
  destruct Hd as [_ Hstatus Hretries _ _ _ Hpayload _ Hatt _ _].
  split; [rewrite Hatt, Ha, Hr; reflexivity|].
  split.
  - exists rec. rewrite Hstatus, Hretries, Ha, Hr. auto.
  - destruct r as [res|e]; [|exact I].
    destruct Hres as (_ & _ & Hra & Hrr & _). split; congruence.
Qed.

Lemma second_attempt_approved :
  let W := sample_world (Some " Hello there ")
             (fun n => if (n =? 1)%nat then Some (fenced brand_text)
                       else Some (fenced approval_text))
             (fun _ => true) true in
  judge_rejects_at approving_library W 1 /\ judge_approves_at approving_library W 3.
Proof.
  split.
  - intros r text judgment Hmax Hc Hparse.
    cbn in Hc. rewrite Hmax in Hc. cbn in Hc. injection Hc as <-.
    assert (Hb : parse_judgment approving_library (fenced brand_text) = Ok brand_judgment)
      by (vm_compute; reflexivity).
    rewrite Hb in Hparse. injection Hparse as <-. reflexivity.
  - intros r Hmax. exists (fenced approval_text), approval_judgment.
    split; [cbn; rewrite Hmax; reflexivity|].
    split; [apply parse_approval_text|]. split; reflexivity.
Qed.

Lemma approval_after_rejections_witness :
  wp (process_message approving_library
        (sample_world (Some " Hello there ")
           (fun n => if (n =? 1)%nat then Some (fenced brand_text)
                     else Some (fenced approval_text))
           (fun _ => true) true)
        (sample_body (event_of (Some "a@b.com") (Some 5%Q) None)))
     (fun st' r =>
        generation_attempts st' = (generation_attempts initial_state + 1 + 1)%nat /\
        (exists rec,
           messages_table st' !! messageId rec = Some rec /\
           customerData rec = event_of (Some "a@b.com") (Some 5%Q) None /\
           status rec = "approved" /\
           retryCount rec = 1%nat) /\
        match r with
        | Ok res => res_approved res = true /\ res_retry_count res = 1%nat
        | Raise _ => True
        end)
     initial_state.
Proof.
  apply approval_after_rejections.
  - apply sample_world_all_metrics.
  - reflexivity.
  - unfold MAX_RETRIES. lia.
  - intros i Hi. assert (i = 0)%nat as -> by lia. apply second_attempt_approved.
  - apply second_attempt_approved.
Defined.

Lemma attempt_judges_its_generation (L : library) (W : world)
    (model_id customer_data_str brand_guidelines : string)
    (features : option customer_features) (ls : loop_state) (st : state) :
  wp (attempt L W model_id customer_data_str brand_guidelines features ls)
     (fun st' r =>
        match r with
        | Ok (_, ls') => judged L W model_id brand_guidelines customer_data_str ls'
        | Raise _ => True
        end)
     st.
Proof.
  unfold attempt. wp_step.
  wp_use (call_bedrock_generator_result L W model_id customer_data_str brand_guidelines
            (retry_count ls) (previous_feedback ls) features st).
  cbv zeta in H. destruct H as (_ & _ & Hcase).
  destruct r as [g|e]; [|exact I].
  assert (Hstrip : Py.strip (email_content g) = email_content g).
  { destruct (bedrock_converse W _ _) as [text|]; [|destruct Hcase; discriminate].
    destruct (cloudwatch_put_ok W _ _); [|destruct Hcase; discriminate].
    destruct Hcase as [Hg _]. injection Hg as ->. apply strip_strip. }
  wp_step.
  wp_use (call_bedrock_judge_spec L W model_id (email_content g) brand_guidelines
            customer_data_str st').
  destruct H as (-> & _ & _).
  set (jreq := judge_request L (utcnow_date W (ticks st')) model_id (email_content g)
                 brand_guidelines customer_data_str) in *.
  destruct (judge_verdict_shape L W st' jreq) as (Hreason & [va Hva] & [vf Hvf]).
  wp_step. unfold getitem at 1. rewrite Hva. wp_step.
  destruct (Json.truthy va) eqn:Htruthy; wp_steps.
  - exists g, (utcnow_date W (ticks st')), st'. repeat split. exact Hstrip.
  - unfold getitem. rewrite Hvf. wp_steps.
    unfold Json.get at 1. rewrite Hreason. cbn [Json.eq_str String.eqb].
    change (String.eqb "brand" "appropriateness") with false. cbn iota.
    wp_steps. exists g, (utcnow_date W (ticks st')), st'. repeat split. exact Hstrip.
Qed.

Lemma while_loop_judges (L : library) (W : world)
    (model_id customer_data_str brand_guidelines : string)
    (features : option customer_features) (st0 : state) :
  wp (while_loop L W (S MAX_RETRIES) MAX_RETRIES model_id customer_data_str
        brand_guidelines features loop_start)
     (fun st' r =>
        match r with
        | Ok ls =>
            (looped L W MAX_RETRIES st0 st' ls /\
             judged L W model_id brand_guidelines customer_data_str ls) /\
            (approved ls = true \/ MAX_RETRIES < retry_count ls)
        | Raise e => messages_table st' = messages_table st0 /\ ~ cooperative W
        end) st0.
Proof.
  eapply wp_mono.
  { apply (while_loop_rule L W MAX_RETRIES model_id customer_data_str brand_guidelines
             features
             (fun st ls =>
                looped L W MAX_RETRIES st0 st ls /\
                (ls = loop_start \/
                 judged L W model_id brand_guidelines customer_data_str ls))
             (fun st' e => messages_table st' = messages_table st0 /\ ~ cooperative W)).
    - intros ls st [Hl _] Hle Hfalse.
      eapply wp_mono.
      { apply wp_and.
        - apply (attempt_spec L W model_id customer_data_str brand_guidelines
                   features ls st).
        - apply (attempt_judges_its_generation L W model_id customer_data_str
                   brand_guidelines features ls st). }
      cbn beta. intros st' r [[HM' H] Hjudged].
      destruct r as [[fl ls']|e].
      2: { destruct H as [Hfail _].
           split; [rewrite HM'; apply Hl|]. intros HW. apply Hfail.
           apply cooperative_generator_succeeds. exact HW. }
      destruct H as (-> & Hatt).
      split; [reflexivity|].
      destruct (looped_step L W MAX_RETRIES model_id customer_data_str brand_guidelines
                  features st0 st st' ls ls' Hl Hle Hfalse HM' Hatt) as [Hl' Hprog].
      split; [|exact Hprog]. split; [exact Hl' | right; exact Hjudged].
    - split; [apply looped_start | left; reflexivity].
    - right. cbn [loop_start retry_count]. lia. }
  cbn beta. intros st' [ls|e] H; [|exact H].
  destruct H as [[Hl Hpos] Hexit]. split; [|exact Hexit]. split; [exact Hl|].
  destruct Hpos as [-> | Hj]; [|exact Hj].
  cbn in Hexit. destruct Hexit as [Ht|Hgt]; [discriminate | unfold MAX_RETRIES in Hgt; lia].
Qed.

Lemma judge_prompt_shows (L : library)
    (date customer_data_str generated_email brand_guidelines : string) :
  Py.contains generated_email
    (judge_prompt L date customer_data_str generated_email brand_guidelines) = true /\
  Py.contains customer_data_str
    (judge_prompt L date customer_data_str generated_email brand_guidelines) = true /\
  Py.contains brand_guidelines
    (judge_prompt L date customer_data_str generated_email brand_guidelines) = true.
Proof.
  unfold judge_prompt. repeat split.
  - do 5 apply contains_skip. apply contains_start.
  - do 3 apply contains_skip. apply contains_start.
  - do 7 apply contains_skip. apply contains_start.
Qed.

(** X24.  In a world whose collaborators answer, the email content of the
    record is a stripped generator answer, and the verdict fields of the
    record are those of the judge's verdict on a request whose prompt shows
    that very content and the customer data of the message. *)
Theorem recorded_email_is_the_judged_one (L : library) (W : world)
    (body : message_body) (p : payload) (st : state) :
  cooperative W ->
  webhook_payload body = Some p ->
  wp (process_message L W body)
     (fun st' _ =>
        exists rec content date model_id brand_guidelines st1,
          let request := judge_request L date model_id content brand_guidelines
                           (format_customer_data L p) in
          let verdict := judge_verdict L W st1 request in
          messages_table st' !! messageId rec = Some rec /\
          emailContent rec = Some content /\
          Py.strip content = content /\
          Py.contains content (prompt request) = true /\
          Py.contains (format_customer_data L p) (prompt request) = true /\
          judgeApproved rec = Json.get verdict "approved" (JBool false) /\
          llmJudgeScore rec = Json.get verdict "score" (JNum 0) /\
          judgeIssues rec = Json.get verdict "issues" (JArr []) /\
          judgeFeedback rec = Json.get verdict "feedback" (JStr EmptyString))
     st.
Proof.
  intros HW Hp.
  wp_use (process_message_after L W body st
            (fun ls => exists model_id brand_guidelines,
                         judged L W model_id brand_guidelines
                           (format_customer_data L p) ls)).
  { intros p' st1 model_id brand_guidelines features Hp' _.
    rewrite Hp in Hp'. injection Hp' as <-.
    wp_use (while_loop_judges L W model_id (format_customer_data L p) brand_guidelines
              features st1).
    destruct r as [ls|e]; [|exact H].
    destruct H as [[Hl Hj] Hexit]. eauto 6. }
  destruct H as [(_ & _ & Hno) | (p' & rec & ls & Hp' & Hd & HJ & _)].
  { exfalso. apply Hno. split; [exact HW|]. rewrite Hp. eauto. }
  rewrite Hp in Hp'. injection Hp' as <-.
  pose proof (decided_persisted _ _ _ _ _ _ _ Hd) as Hstored.
  destruct HJ as (model_id & brand_guidelines & g & date & st1 & Hg & Hc & Hstrip & Hv).
  destruct Hd as [_ _ _ _ _ Hcontent _ Hverdict _ _ _].
  destruct Hverdict as (v & st2 & jreq & Hv' & _ & _ & _ & HjA & HjS & HjI & HjF).
  rewrite Hv in Hv'. injection Hv' as <-.
  exists rec, (email_content g), date, model_id, brand_guidelines, st1.
  cbv zeta.
  destruct (judge_prompt_shows L date (format_customer_data L p) (email_content g)
              brand_guidelines) as (Hshow1 & Hshow2 & _).
  repeat split; try assumption. congruence.
Qed.

Lemma recorded_email_is_the_judged_one_witness :
  wp (process_message approving_library
        (sample_world (Some " Hello there ") (fun _ => Some (fenced approval_text))
           (fun _ => true) true)
        (sample_body (event_of (Some "a@b.com") (Some 5%Q) None)))
     (fun st' _ =>
        exists rec content date model_id brand_guidelines st1,
          let request := judge_request approving_library date model_id content
                           brand_guidelines
                           (format_customer_data approving_library
                              (event_of (Some "a@b.com") (Some 5%Q) None)) in
          let verdict := judge_verdict approving_library
                           (sample_world (Some " Hello there ")
                              (fun _ => Some (fenced approval_text))
                              (fun _ => true) true) st1 request in
          messages_table st' !! messageId rec = Some rec /\
          emailContent rec = Some content /\
          Py.strip content = content /\
          Py.contains content (prompt request) = true /\
          Py.contains (format_customer_data approving_library
                         (event_of (Some "a@b.com") (Some 5%Q) None))
            (prompt request) = true /\
          judgeApproved rec = Json.get verdict "approved" (JBool false) /\
          llmJudgeScore rec = Json.get verdict "score" (JNum 0) /\
          judgeIssues rec = Json.get verdict "issues" (JArr []) /\
          judgeFeedback rec = Json.get verdict "feedback" (JStr EmptyString))
     initial_state.
Proof.
  apply recorded_email_is_the_judged_one.
  - apply sample_world_all_metrics.
  - reflexivity.
Defined.

Lemma get_parameter_lookups (W : world) (k : string) (st : state) :
  wp (get_parameter W k)
     (fun st' r =>
        same_but_cache st st' /\
        same_lookups W st st' /\
        r = match lookup_parameter W st k with
            | Some v => Ok v
            | None => Raise (ClientError "ssm")
            end) st.
Proof.
  unfold get_parameter, same_lookups, lookup_parameter. wp_steps.
  destruct (parameter_cache st !! k) as [c|] eqn:Hc.
  - wp_steps. split; [apply same_but_cache_refl|]. auto.
  - destruct (ssm_get_parameter W k) as [v|] eqn:Hv; wp_steps.
    + split; [repeat split|]. split; [|reflexivity].
      intros k'. cbn [parameter_cache with_cache].
      destruct (decide (k = k')) as [<- | Hne].
      * rewrite lookup_insert_eq, Hc, Hv. reflexivity.
      * rewrite lookup_insert_ne by exact Hne. reflexivity.
    + split; [apply same_but_cache_refl|]. auto.
Qed.

Lemma same_lookups_trans (W : world) (st1 st2 st3 : state) :
  same_lookups W st1 st2 -> same_lookups W st2 st3 -> same_lookups W st1 st3.
Proof. intros H1 H2 k. rewrite H2. apply H1. Qed.

Lemma same_lookups_registry (W : world) (st st' : state) (agent_id : string) :
  same_lookups W st st' -> registry_record W st' agent_id = registry_record W st agent_id.
Proof. intros H. unfold registry_record. rewrite H. reflexivity. Qed.

Lemma get_active_agent_lookups (W : world) (agent_id : string) (st : state) :
  wp (get_active_agent W agent_id) (fun st' _ => same_lookups W st st') st.
Proof.
  assert (Hfallback : forall st1, same_lookups W st st1 ->
    wp (try_except
          (model_id <- get_parameter W "/referral-system/bedrock-model-id" ;;
           ret (legacy_agent model_id))
          (fun fallback_error => raise fallback_error))
       (fun st' _ => same_lookups W st st') st1).
  { intros st1 H1. wp_step. wp_step.
    wp_use (get_parameter_lookups W "/referral-system/bedrock-model-id" st1).
    destruct H as (_ & S2 & _).
    pose proof (same_lookups_trans _ _ _ _ H1 S2) as S3.
    destruct r as [m|e]; wp_steps; exact S3. }
  unfold get_active_agent. wp_step. wp_step.
  wp_use (get_parameter_lookups W "/referral-system/agent-registry-table-name" st).
  destruct H as (_ & S1 & _).
  destruct r as [tn|e]; [|apply Hfallback; exact S1].
  wp_step.
  destruct (registry_query W agent_id) as [[|agent rest]|].
  - wp_step. wp_step.
    wp_use (get_parameter_lookups W "/referral-system/bedrock-model-id" st').
    destruct H as (_ & S2 & _).
    pose proof (same_lookups_trans _ _ _ _ S1 S2) as S3.
    destruct r as [m|e].
    + wp_steps. exact S3.
    + apply Hfallback. exact S3.
  - wp_step. wp_step.
    destruct (item_version agent) as [v|]; wp_step; [|apply Hfallback; exact S1].
    wp_step.
    destruct (bedrockModel agent) as [m|]; wp_step; [|apply Hfallback; exact S1].
    wp_steps. exact S1.
  - wp_step. apply Hfallback. exact S1.
Qed.

Lemma get_active_agent_run (W : world) (agent_id : string) (st : state) :
  wp (get_active_agent W agent_id)
     (fun st' r =>
        same_but_cache st st' /\
        same_lookups W st st' /\
        r = match registry_record W st agent_id with
            | Some cfg => Ok cfg
            | None =>
                match lookup_parameter W st "/referral-system/bedrock-model-id" with
                | Some m => Ok (legacy_agent m)
                | None => Raise (ClientError "ssm")
                end
            end) st.
Proof.
  pose proof (get_active_agent_frame W agent_id st) as [Hsame _].
  pose proof (get_active_agent_lookups W agent_id st) as Hlook.
  unfold wp in *. split; [exact Hsame|]. split; [exact Hlook|].
  apply get_active_agent_outcome.
Qed.

(** X25.  When the configuration cannot be had (the bucket name or the table
    name does not resolve, neither the registry nor the legacy parameter
    gives a model, or S3 does not serve the guidelines), [process_message]
    raises and changes nothing but the parameter cache: no inference call,
    no metric, no record. *)
Theorem configuration_failure_has_no_effect (L : library) (W : world)
    (body : message_body) (p : payload) (st : state) :
  unconfigurable W st ->
  webhook_payload body = Some p ->
  wp (process_message L W body)
     (fun st' r =>
        same_but_cache st st' /\ exists e, r = Raise e)
     st.
Proof.
  intros Hbad Hp. unfold process_message. rewrite Hp. wp_step.
  unfold generate_and_validate. wp_step.
  wp_use (get_parameter_lookups W "/referral-system/s3-bucket-name" st).
  destruct H as (S1 & K1 & ->).
  destruct (lookup_parameter W st "/referral-system/s3-bucket-name") as [bucket|] eqn:Hb.
  2: { wp_steps. split; [exact S1 | eauto]. }
  wp_step.
  wp_use (get_parameter_lookups W "/referral-system/dynamodb-table-name" st').
  destruct H as (S2 & K2 & ->).
  pose proof (same_but_cache_trans _ _ _ S1 S2) as S12.
  pose proof (same_lookups_trans _ _ _ _ K1 K2) as K12.
  rewrite K1.
  destruct (lookup_parameter W st "/referral-system/dynamodb-table-name")
    as [table|] eqn:Ht.
  2: { wp_steps. split; [exact S12 | eauto]. }
  wp_step.
  wp_use (get_active_agent_run W "upsell-generator" st'0).
  destruct H as (S3 & _ & ->).
  pose proof (same_but_cache_trans _ _ _ S12 S3) as S13.
  rewrite (same_lookups_registry W st st'0 _ K12), K12.
  assert (Hagent :
    (exists agent,
       match registry_record W st "upsell-generator" with
       | Some cfg => Ok cfg
       | None =>
           match lookup_parameter W st "/referral-system/bedrock-model-id" with
           | Some m => Ok (legacy_agent m)
           | None => Raise (ClientError "ssm")
           end
       end = Ok agent /\
       ~ (registry_record W st "upsell-generator" = None /\
          lookup_parameter W st "/referral-system/bedrock-model-id" = None))
    \/
    match registry_record W st "upsell-generator" with
    | Some cfg => Ok cfg
    | None =>
        match lookup_parameter W st "/referral-system/bedrock-model-id" with
        | Some m => Ok (legacy_agent m)
        | None => Raise (ClientError "ssm")
        end
    end = Raise (ClientError "ssm")).
  { destruct (registry_record W st "upsell-generator") as [cfg|].
    - left. exists cfg. split; [reflexivity|]. intros [H _]. discriminate.
    - destruct (lookup_parameter W st "/referral-system/bedrock-model-id") as [m|].
      + left. eexists. split; [reflexivity|]. intros [_ H]. discriminate.
      + right. reflexivity. }
  destruct Hagent as [(agent & -> & Hagent) | ->].
  2: { wp_steps. split; [exact S13 | eauto]. }
  wp_step. unfold get_brand_guidelines.
  destruct (s3_guidelines W bucket) as [guidelines|] eqn:Hg; wp_step.
  2: { split; [exact S13 | eauto]. }
  exfalso. destruct Hbad as [H | [H | [H | H]]].
  - congruence.
  - congruence.
  - exact (Hagent H).
  - rewrite H in Hg. discriminate.
Qed.

Lemma configuration_failure_has_no_effect_witness :
  wp (process_message sample_library (world_with None (Some []) false)
        (sample_body (event_of (Some "a@b.com") (Some 5%Q) None)))
     (fun st' r =>
        same_but_cache initial_state st' /\ exists e, r = Raise e)
     initial_state.
Proof.
  apply (configuration_failure_has_no_effect _ _ _
           (event_of (Some "a@b.com") (Some 5%Q) None)).
  - right. right. left. split; reflexivity.
  - reflexivity.
Defined.

Lemma prefix_app_l (sub a b : string) :
  String.prefix sub a = true -> String.prefix sub (a ++ b) = true.
Proof.
  revert a. induction sub as [|c sub IH]; intros a H.
  - destruct (a ++ b); reflexivity.
  - destruct a as [|d a]; [discriminate|].
    change (String d a ++ b) with (String d (a ++ b)).
    cbn [String.prefix] in *.
    destruct (ascii_dec c d); [apply IH; exact H | discriminate].
Qed.

Lemma contains_app_l (sub a b : string) :
  Py.contains sub a = true -> Py.contains sub (a ++ b) = true.
Proof.
  induction a as [|c r IH]; intros H.
  - cbn [Py.contains] in H. rewrite orb_false_r in H.
    apply contains_of_prefix. destruct sub; [|discriminate].
    destruct (EmptyString ++ b); reflexivity.
  - change (String c r ++ b) with (String c (r ++ b)).
    cbn [Py.contains] in *. apply orb_true_iff in H as [H|H].
    + change (String c (r ++ b)) with (String c r ++ b).
      rewrite (prefix_app_l _ _ _ H). reflexivity.
    + rewrite (IH H). apply orb_true_r.
Qed.

Lemma format_customer_features_shows (L : library) (f : customer_features) :
  Py.contains "CUSTOMER INSIGHTS (from Feature Store):"
    (format_customer_features L (Some f)) = true /\
  Py.contains (Py.upper (cf_lifetime_value f))
    (format_customer_features L (Some f)) = true.
Proof.
  unfold format_customer_features. cbv zeta.
  destruct (Json.truthy (JObj (cf_property_features f))); split.
  - do 2 apply contains_app_l. do 2 apply contains_skip. apply contains_start.
  - do 2 apply contains_app_l. do 12 apply contains_skip. apply contains_start.
  - apply contains_app_l. do 2 apply contains_skip. apply contains_start.
  - apply contains_app_l. do 12 apply contains_skip. apply contains_start.
Qed.

(** X26.  The request [call_bedrock_generator] sends is the last one logged,
    and its prompt contains the customer data and the guidelines; with
    customer features it also contains the insights heading and the tier in
    upper case, and without them it is the plain prompt with no insights
    section. *)
Theorem generator_prompt_shows_its_inputs (L : library) (W : world)
    (model_id customer_data_str brand_guidelines : string) (retry_count : nat)
    (previous_feedback : json) (features : option customer_features) (st : state) :
  wp (call_bedrock_generator L W model_id customer_data_str brand_guidelines
        retry_count previous_feedback features)
     (fun st' _ =>
        exists request,
          last (bedrock_log st') = Some request /\
          Py.contains customer_data_str (prompt request) = true /\
          Py.contains brand_guidelines (prompt request) = true /\
          match features with
          | Some f =>
              Py.contains "CUSTOMER INSIGHTS (from Feature Store):" (prompt request)
              = true /\
              Py.contains (Py.upper (cf_lifetime_value f)) (prompt request) = true
          | None =>
              prompt request
              = generator_head ++ customer_data_str ++ generator_catalog
                ++ brand_guidelines ++ generator_task
                ++ feedback_note L retry_count previous_feedback ++ generator_tail
          end)
     st.
Proof.
  wp_use (call_bedrock_generator_result L W model_id customer_data_str brand_guidelines
            retry_count previous_feedback features st).
  cbv zeta in H. destruct H as (_ & Hlog & _).
  eexists. split; [rewrite Hlog; apply last_snoc|].
  cbn [prompt generator_request]. unfold generator_prompt.
  split; [apply contains_skip, contains_start|].
  split; [do 3 apply contains_skip; apply contains_start|].
  destruct features as [f|].
  - destruct (format_customer_features_shows L f) as [H1 H2].
    split; do 4 apply contains_skip; apply contains_app_l; assumption.
  - reflexivity.
Qed.
